(** * Result computation engine of the Student Management System

    A shallow embedding of [services/semester_result_service.py],
    [services/yearly_result_service.py] and of the part of
    [database/db_manager.py] and [database/schema.py] they rely on.

    Conventions of the embedding.
    - A table is the list of its rows in rowid order; a query is the list
      comprehension its SQL text denotes (nested-loop joins in FROM order).
      The queries that constrain [ExamResults.student_id] read
      [ExamResults] in the order of the index of its [UNIQUE] constraint.
    - SQLite [REAL] values and Python floats are idealised as exact rationals
      ([Q]); Python's numeric [==], [!=], [>] become [Qeq_bool] and
      [Qle_bool].  Integer columns that take part in arithmetic
      ([max_marks]) are rationals as well.
    - Columns the engine reads are non-null: marks, max marks, grade ids and
      the computed fields of stored results (the data-entry layer rejects
      the missing ones before they reach the engine).
    - A Python [dict] is an association list in insertion order.
    - An uncaught Python exception is the outcome [None]. *)

From Stdlib Require Import String Ascii.
From Stdlib Require Import List ZArith QArith Qfield Bool Arith Lia Lqa.
From Stdlib Require Import Permutation Sorted.
Import ListNotations.

Set Implicit Arguments.
Local Open Scope string_scope.
Local Open Scope list_scope.

(* ================================================================== *)
(** ** Text matching: SQL [LIKE] and Python [in] *)

Module Text.

(** SQLite's default [LIKE] folds the case of ASCII letters.  The patterns
    of the engine are ['%Semester%'], ['%CAT%'] and ['%Semester%Exam%']:
    literal words between [%] wildcards, each wildcard standing for any
    run of characters. *)
Definition lower (c : ascii) : ascii :=
  let n := nat_of_ascii c in
  if (65 <=? n)%nat && (n <=? 90)%nat then ascii_of_nat (n + 32) else c.

Definition eq_nocase (a b : ascii) : bool := Ascii.eqb (lower a) (lower b).

Section Matching.
Variable eqc : ascii -> ascii -> bool.

Fixpoint starts_with (p s : string) : bool :=
  match p, s with
  | EmptyString, _ => true
  | String _ _, EmptyString => false
  | String a p', String b s' => eqc a b && starts_with p' s'
  end.

Fixpoint skip (n : nat) (s : string) : string :=
  match n, s with
  | O, _ => s
  | S _, EmptyString => EmptyString
  | S n', String _ s' => skip n' s'
  end.

(** What follows the leftmost occurrence of [p] in [s], if any. *)
Fixpoint after_first (p s : string) : option string :=
  if starts_with p s then Some (skip (String.length p) s)
  else match s with
       | EmptyString => None
       | String _ s' => after_first p s'
       end.

Definition occurs (p s : string) : bool :=
  match after_first p s with Some _ => true | None => false end.

Definition occurs_then (p q s : string) : bool :=
  match after_first p s with Some rest => occurs q rest | None => false end.
End Matching.

(** [name LIKE '%p%'] *)
Definition like (p name : string) : bool := occurs eq_nocase p name.
(** [name LIKE '%p%q%'] *)
Definition like2 (p q name : string) : bool := occurs_then eq_nocase p q name.
(** Python [p in name] *)
Definition py_in (p name : string) : bool := occurs Ascii.eqb p name.

End Text.

(* ================================================================== *)
(** ** Python dictionaries keyed by integer ids *)

Module Dict.
Section Ops.
Variable V : Type.
Definition t := list (Z * V).

Fixpoint get (d : t) (k : Z) : option V :=
  match d with
  | [] => None
  | (k', v) :: d' => if (k' =? k)%Z then Some v else get d' k
  end.

Definition mem (d : t) (k : Z) : bool :=
  match get d k with Some _ => true | None => false end.

(** [d[k] = v]: an existing key keeps its place, a new one goes last. *)
Fixpoint set (d : t) (k : Z) (v : V) : t :=
  match d with
  | [] => [(k, v)]
  | (k', v') :: d' =>
      if (k' =? k)%Z then (k, v) :: d' else (k', v') :: set d' k v
  end.

(** [d[k][field] = ...] for a key [k] drawn from [d.items()]: the
    inner record of [k] is changed in place. *)
Definition update (d : t) (k : Z) (f : V -> V) : t :=
  map (fun kv => if (fst kv =? k)%Z then (fst kv, f (snd kv)) else kv) d.
End Ops.
End Dict.

(* ================================================================== *)
(** ** The schema ([database/schema.py]) *)

Record Student := {
  student_pk : Z;
  current_grade_id : Z }.

Record Enrollment := {
  enr_student_id : Z;
  enr_academic_year_id : Z;
  enr_grade_id : Z }.

Record Subject := {
  subject_pk : Z;
  subject_name : string }.

Record Exam := {
  exam_pk : Z;
  exam_name : string;
  exam_semester_id : option Z;
  exam_academic_year_id : Z;
  max_marks : Q }.

Record ExamResult := {
  er_student_id : Z;
  er_exam_id : Z;
  er_subject_id : Z;
  marks : Q }.

(** [SemesterResults] and [YearlyResults] differ in their key columns only:
    [(student_id, semester_id, academic_year_id)] and
    [(student_id, academic_year_id)]. *)
Record ResultRow (K : Type) := {
  row_id : Z;
  key : K;
  total_marks : Q;
  average_score : Q;
  grade_rank : nat }.

(** [autoinc] is the table's entry in [sqlite_sequence] (AUTOINCREMENT). *)
Record ResultTable (K : Type) := {
  rows : list (ResultRow K);
  autoinc : Z }.

Definition SemesterKey : Type := Z * Z * Z.
Definition YearlyKey : Type := Z * Z.

Record DB := {
  Students : list Student;
  Enrollments : list Enrollment;
  Subjects : list Subject;
  Exams : list Exam;
  ExamResults : list ExamResult;
  SemesterResults : ResultTable SemesterKey;
  YearlyResults : ResultTable YearlyKey }.

Definition semester_key_eqb (a b : SemesterKey) : bool :=
  let '(s1, m1, y1) := a in
  let '(s2, m2, y2) := b in
  ((s1 =? s2) && (m1 =? m2) && (y1 =? y2))%Z.

Definition yearly_key_eqb (a b : YearlyKey) : bool :=
  ((fst a =? fst b) && (snd a =? snd b))%Z.

(* ================================================================== *)
(** ** [DBManager]: the operations on a result table *)

Module DBManager.
Section Table.
Variable K : Type.
Variable key_eqb : K -> K -> bool.

(** [fetch_one("SELECT * FROM T WHERE <key columns> = ?")] *)
Definition fetch_one_by_key (t : ResultTable K) (k : K) : option (ResultRow K) :=
  find (fun r => key_eqb (key r) k) (rows t).

(** [update_one(T, record_id, data)]: [UPDATE T SET ... WHERE id = ?] *)
Definition update_one (t : ResultTable K) (record_id : Z)
           (k : K) (total avg : Q) (rank : nat) : ResultTable K :=
  {| rows := map (fun r =>
                    if (row_id r =? record_id)%Z
                    then {| row_id := row_id r; key := k; total_marks := total;
                            average_score := avg; grade_rank := rank |}
                    else r) (rows t);
     autoinc := autoinc t |}.

Definition max_rowid (l : list (ResultRow K)) : Z :=
  fold_right (fun r m => Z.max (row_id r) m) 0%Z l.

(** [insert_one(T, data)]: the new rowid is one more than the largest
    rowid the table has ever held. *)
Definition lastrowid (t : ResultTable K) : Z :=
  (Z.max (autoinc t) (max_rowid (rows t)) + 1)%Z.

Definition insert_one (t : ResultTable K)
           (k : K) (total avg : Q) (rank : nat) : ResultTable K :=
  let new_id := lastrowid t in
  {| rows := rows t ++ [ {| row_id := new_id; key := k; total_marks := total;
                            average_score := avg; grade_rank := rank |} ];
     autoinc := new_id |}.

(** The body shared by [add_semester_result] and [add_yearly_result]. *)
Definition add_result (t : ResultTable K)
           (k : K) (total avg : Q) (rank : nat) : ResultTable K :=
  match fetch_one_by_key t k with
  | Some existing_result => update_one t (row_id existing_result) k total avg rank
  | None => insert_one t k total avg rank
  end.
End Table.
End DBManager.

(** Python's [a > b] on numbers. *)
Definition Qgtb (a b : Q) : bool := negb (Qle_bool a b).

(* ================================================================== *)
(** ** Ranking within a grade (the loop both services end with) *)

(** The per-student record both services keep in their dictionary while
    they rank: [{'total_marks', 'average_score', 'grade_id'}], to which the
    ranking loop adds ['grade_rank']. *)
Record Entry := {
  e_total_marks : Q;
  e_average_score : Q;
  e_grade_id : Z;
  e_grade_rank : option nat }.

Definition set_grade_rank (r : nat) (e : Entry) : Entry :=
  {| e_total_marks := e_total_marks e;
     e_average_score := e_average_score e;
     e_grade_id := e_grade_id e;
     e_grade_rank := Some r |}.

Module Ranking.

(** [sorted(list(set(xs)))] on grade ids. *)
Fixpoint insert_unique (x : Z) (l : list Z) : list Z :=
  match l with
  | [] => [x]
  | y :: l' =>
      if (x <? y)%Z then x :: l
      else if (x =? y)%Z then l
      else y :: insert_unique x l'
  end.

Definition sorted_set (xs : list Z) : list Z := fold_right insert_unique [] xs.

(** [students_in_grade = [(s_id, data['average_score']) for s_id, data in
    d.items() if data['grade_id'] == grade_id]] *)
Definition students_in_grade (d : Dict.t Entry) (grade_id : Z) : list (Z * Q) :=
  map (fun kv => (fst kv, e_average_score (snd kv)))
      (filter (fun kv => (e_grade_id (snd kv) =? grade_id)%Z) d).

(** [students_in_grade.sort(key=lambda x: x[1], reverse=True)]: a stable
    sort, larger scores first, equal scores in their original order. *)
Fixpoint insert_desc (x : Z * Q) (l : list (Z * Q)) : list (Z * Q) :=
  match l with
  | [] => [x]
  | y :: l' =>
      if Qle_bool (snd y) (snd x) then x :: l else y :: insert_desc x l'
  end.

Definition sort_desc (l : list (Z * Q)) : list (Z * Q) := fold_right insert_desc [] l.

(** The state of the ranking loop: [i], [current_rank], [prev_score] and
    the dictionary. *)
Record Walk := {
  w_index : nat;
  current_rank : nat;
  prev_score : Q;
  w_data : Dict.t Entry }.

(** One iteration of
    [for i, (s_id, avg_score) in enumerate(students_in_grade)]. *)
Definition rank_step (w : Walk) (x : Z * Q) : Walk :=
  let '(s_id, avg_score) := x in
  let rank := if negb (Qeq_bool avg_score (prev_score w))
              then (w_index w + 1)%nat else current_rank w in
  {| w_index := S (w_index w);
     current_rank := rank;
     prev_score := avg_score;
     w_data := Dict.update (w_data w) s_id (set_grade_rank rank) |}.

(** The body of [for grade_id in grades_in_year]. *)
Definition rank_grade (d : Dict.t Entry) (grade_id : Z) : Dict.t Entry :=
  let sorted := sort_desc (students_in_grade d grade_id) in
  w_data (fold_left rank_step sorted
            {| w_index := 0; current_rank := 1; prev_score := (-1 # 1)%Q;
               w_data := d |}).

Definition rank_grades (grades_in_year : list Z) (d : Dict.t Entry) : Dict.t Entry :=
  fold_left rank_grade grades_in_year d.

End Ranking.

(* ================================================================== *)
(** ** [SemesterResultService] *)

Module SemesterResultService.

Definition add_semester_result (db : DB) (student_id semester_id academic_year_id : Z)
           (total avg : Q) (rank : nat) : DB :=
  {| Students := Students db; Enrollments := Enrollments db;
     Subjects := Subjects db; Exams := Exams db; ExamResults := ExamResults db;
     SemesterResults :=
       DBManager.add_result semester_key_eqb (SemesterResults db)
         (student_id, semester_id, academic_year_id) total avg rank;
     YearlyResults := YearlyResults db |}.

Definition get_semester_result_by_composite_keys (db : DB)
           (student_id semester_id academic_year_id : Z) :=
  DBManager.fetch_one_by_key semester_key_eqb (SemesterResults db)
    (student_id, semester_id, academic_year_id).

(** [query_students]: Students JOIN Enrollments, for one academic year;
    each answer is [(student_id, grade_id)] with the student's
    [current_grade_id]. *)
Definition students_in_year (db : DB) (academic_year_id : Z) : list (Z * Z) :=
  flat_map (fun s =>
    flat_map (fun e =>
      if ((student_pk s =? enr_student_id e) &&
          (enr_academic_year_id e =? academic_year_id))%Z
      then [(student_pk s, current_grade_id s)] else [])
      (Enrollments db))
    (Students db).

Definition in_scope (academic_year_id semester_id : Z) (e : Exam) : bool :=
  (exam_academic_year_id e =? academic_year_id)%Z &&
  match exam_semester_id e with
  | Some m => (m =? semester_id)%Z
  | None => false
  end.

(** [query_exams] *)
Definition semester_exams (db : DB) (academic_year_id semester_id : Z) : list Exam :=
  filter (fun e => in_scope academic_year_id semester_id e &&
                   (Text.like "Semester" (exam_name e) || Text.like "CAT" (exam_name e)))
         (Exams db).

(** Two lists the routine builds and never reads again. *)
Definition semester_exam_ids (db : DB) (academic_year_id semester_id : Z) : list Z :=
  map exam_pk (filter (fun e => Text.py_in "Semester" (exam_name e))
                      (semester_exams db academic_year_id semester_id)).
Definition cat_exam_ids (db : DB) (academic_year_id semester_id : Z) : list Z :=
  map exam_pk (filter (fun e => Text.py_in "CAT" (exam_name e))
                      (semester_exams db academic_year_id semester_id)).

(** The order in which SQLite visits [ExamResults] for the per-student
    queries: they constrain [er.student_id], so the rows are read through
    the index of [UNIQUE(student_id, exam_id, subject_id)], by student,
    then exam id, then subject id, rows with equal columns in rowid
    order. *)
Definition index_leb (a b : ExamResult) : bool :=
  ((er_student_id a <? er_student_id b) ||
   ((er_student_id a =? er_student_id b) &&
    ((er_exam_id a <? er_exam_id b) ||
     ((er_exam_id a =? er_exam_id b) && (er_subject_id a <=? er_subject_id b)))))%Z.

Fixpoint insert_by_index (x : ExamResult) (l : list ExamResult) : list ExamResult :=
  match l with
  | [] => [x]
  | y :: l' => if index_leb x y then x :: l else y :: insert_by_index x l'
  end.

Definition index_scan (l : list ExamResult) : list ExamResult :=
  fold_right insert_by_index [] l.

(** [ExamResults er JOIN Exams e ON er.exam_id = e.id
     WHERE er.student_id = ? AND e.academic_year_id = ? AND e.semester_id = ?],
    the join every per-student query starts from: the results in the order
    of the index, each with its exam. *)
Definition scoped_results (db : DB) (student_id academic_year_id semester_id : Z)
  : list (ExamResult * Exam) :=
  flat_map (fun er =>
    flat_map (fun e =>
      if ((er_exam_id er =? exam_pk e) && (er_student_id er =? student_id))%Z
         && in_scope academic_year_id semester_id e
      then [(er, e)] else [])
      (Exams db))
    (index_scan (ExamResults db)).

(** [query_student_results]: rows [(marks, exam_name, exam_max_marks)]. *)
Definition student_exam_results (db : DB) (student_id academic_year_id semester_id : Z)
  : list (Q * string * Q) :=
  map (fun p => (marks (fst p), exam_name (snd p), max_marks (snd p)))
      (scoped_results db student_id academic_year_id semester_id).

(** [SELECT DISTINCT]: the first occurrence of each answer is kept. *)
Section Distinct.
Variable A : Type.
Variable eqb : A -> A -> bool.
Fixpoint distinct_acc (seen l : list A) : list A :=
  match l with
  | [] => []
  | x :: l' =>
      if existsb (eqb x) seen then distinct_acc seen l'
      else x :: distinct_acc (x :: seen) l'
  end.
Definition distinct (l : list A) : list A := distinct_acc [] l.
End Distinct.

(** [query_student_subjects]: Subjects JOIN ExamResults JOIN Exams,
    [SELECT DISTINCT s.id]. *)
Definition student_subjects_in_semester (db : DB)
           (student_id academic_year_id semester_id : Z) : list Z :=
  distinct Z.eqb
    (flat_map (fun s =>
       flat_map (fun p =>
         if (subject_pk s =? er_subject_id (fst p))%Z then [subject_pk s] else [])
         (scoped_results db student_id academic_year_id semester_id))
       (Subjects db)).

(** [query_subjects_with_results]: ExamResults JOIN Subjects JOIN Exams,
    [SELECT DISTINCT er.subject_id, s.name]. *)
Definition subjects_with_results (db : DB)
           (student_id academic_year_id semester_id : Z) : list (Z * string) :=
  distinct (fun a b => (fst a =? fst b)%Z && String.eqb (snd a) (snd b))
    (flat_map (fun p =>
       flat_map (fun s =>
         if (er_subject_id (fst p) =? subject_pk s)%Z
         then [(er_subject_id (fst p), subject_name s)] else [])
         (Subjects db))
       (scoped_results db student_id academic_year_id semester_id)).

(** [sem_exam_query], read with [fetch_one]: the first row, if any. *)
Definition sem_exam_result (db : DB)
           (student_id subject_id academic_year_id semester_id : Z) : option (Q * Q) :=
  match filter (fun p => (er_subject_id (fst p) =? subject_id)%Z &&
                         Text.like2 "Semester" "Exam" (exam_name (snd p)))
               (scoped_results db student_id academic_year_id semester_id) with
  | [] => None
  | p :: _ => Some (marks (fst p), max_marks (snd p))
  end.

(** [cat_query], read with [fetch_all]. *)
Definition cat_results (db : DB)
           (student_id subject_id academic_year_id semester_id : Z) : list (Q * Q) :=
  map (fun p => (marks (fst p), max_marks (snd p)))
      (filter (fun p => (er_subject_id (fst p) =? subject_id)%Z &&
                        Text.like "CAT" (exam_name (snd p)))
              (scoped_results db student_id academic_year_id semester_id)).

(** Python's [sum] and [len]. *)
Definition sum (l : list Q) : Q := fold_left Qplus l 0%Q.
Definition len (A : Type) (l : list A) : Q := inject_Z (Z.of_nat (List.length l)).

Definition mean_or_zero (l : list Q) : Q :=
  match l with
  | [] => 0%Q
  | _ => (sum l / len l)%Q
  end.

(** [(subject_total_for_semester, subject_possible_total_for_semester)] *)
Definition subject_totals (db : DB)
           (student_id subject_id academic_year_id semester_id : Z) : Q * Q :=
  let sem_exam_result :=
    sem_exam_result db student_id subject_id academic_year_id semester_id in
  let subject_semester_exam_score :=
    match sem_exam_result with Some r => fst r | None => 0%Q end in
  let subject_semester_exam_max_marks :=
    match sem_exam_result with Some r => snd r | None => 0%Q end in
  let cat_results := cat_results db student_id subject_id academic_year_id semester_id in
  let cat_scores := map fst cat_results in
  let cat_max_marks := map snd cat_results in
  let avg_cat_score := mean_or_zero cat_scores in
  let avg_cat_max_marks := mean_or_zero cat_max_marks in
  ((subject_semester_exam_score + avg_cat_score)%Q,
   (subject_semester_exam_max_marks + avg_cat_max_marks)%Q).

(** The accumulators of the loop over subjects:
    [total_semester_score], [total_possible_semester_score],
    [num_subjects_counted]. *)
Record Totals := {
  total_semester_score : Q;
  total_possible_semester_score : Q;
  num_subjects_counted : nat }.

Definition count_subject (db : DB) (student_id academic_year_id semester_id : Z)
           (acc : Totals) (subject_entry : Z * string) : Totals :=
  let subject_id := fst subject_entry in
  let st := subject_totals db student_id subject_id academic_year_id semester_id in
  if Qgtb (snd st) 0
  then {| total_semester_score := (total_semester_score acc + fst st)%Q;
          total_possible_semester_score := (total_possible_semester_score acc + snd st)%Q;
          num_subjects_counted := S (num_subjects_counted acc) |}
  else acc.

Definition semester_totals (db : DB) (student_id academic_year_id semester_id : Z) : Totals :=
  fold_left (count_subject db student_id academic_year_id semester_id)
            (subjects_with_results db student_id academic_year_id semester_id)
            {| total_semester_score := 0; total_possible_semester_score := 0;
               num_subjects_counted := 0 |}.

(** The body of [for student_info in students_in_year]: [None] is
    [continue], [Some e] the value stored under the student's id.  The
    routine first adds up the marks of the student's rows by kind of exam
    into [total_semester_exam_marks] and [total_cat_marks], which it never
    reads; that loop is left out, as are the messages it prints. *)
Definition student_result (db : DB) (academic_year_id semester_id : Z)
           (student_info : Z * Z) : option Entry :=
  let student_id := fst student_info in
  let grade_id := snd student_info in
  match student_exam_results db student_id academic_year_id semester_id with
  | [] => None
  | _ :: _ =>
    match student_subjects_in_semester db student_id academic_year_id semester_id with
    | [] => None
    | _ :: _ =>
      let t := semester_totals db student_id academic_year_id semester_id in
      match num_subjects_counted t with
      | O => None
      | S _ =>
        let average_score :=
          if Qgtb (total_possible_semester_score t) 0
          then (total_semester_score t / total_possible_semester_score t * 100)%Q
          else 0%Q in
        Some {| e_total_marks := total_semester_score t;
                e_average_score := average_score;
                e_grade_id := grade_id;
                e_grade_rank := None |}
      end
    end
  end.

Definition student_semester_data (db : DB) (academic_year_id semester_id : Z)
           (students : list (Z * Z)) : Dict.t Entry :=
  fold_left (fun d student_info =>
               match student_result db academic_year_id semester_id student_info with
               | Some e => Dict.set d (fst student_info) e
               | None => d
               end)
            students [].

Definition grades_in_year (students : list (Z * Z)) (d : Dict.t Entry) : list Z :=
  Ranking.sorted_set (map snd (filter (fun s => Dict.mem d (fst s)) students)).

(** The dictionary after the ranking loop. *)
Definition ranked_semester_data (db : DB) (academic_year_id semester_id : Z)
  : Dict.t Entry :=
  let students := students_in_year db academic_year_id in
  let d := student_semester_data db academic_year_id semester_id students in
  Ranking.rank_grades (grades_in_year students d) d.

(** One iteration of the storing loop; [data['grade_rank']] raises
    [KeyError] when the ranking loop left the entry without a rank. *)
Definition store_one (academic_year_id semester_id : Z)
           (acc : option DB) (item : Z * Entry) : option DB :=
  match acc, e_grade_rank (snd item) with
  | Some db, Some rank =>
      Some (add_semester_result db (fst item) semester_id academic_year_id
              (e_total_marks (snd item)) (e_average_score (snd item)) rank)
  | _, _ => None
  end.

Definition compute_and_store_semester_results (db : DB)
           (academic_year_id semester_id : Z) : option DB :=
  match students_in_year db academic_year_id with
  | [] => Some db
  | _ :: _ =>
    match semester_exams db academic_year_id semester_id with
    | [] => Some db
    | _ :: _ =>
      fold_left (store_one academic_year_id semester_id)
                (ranked_semester_data db academic_year_id semester_id)
                (Some db)
    end
  end.

End SemesterResultService.

(* ================================================================== *)
(** ** [YearlyResultService] *)

Module YearlyResultService.

Definition add_yearly_result (db : DB) (student_id academic_year_id : Z)
           (total avg : Q) (rank : nat) : DB :=
  {| Students := Students db; Enrollments := Enrollments db;
     Subjects := Subjects db; Exams := Exams db; ExamResults := ExamResults db;
     SemesterResults := SemesterResults db;
     YearlyResults :=
       DBManager.add_result yearly_key_eqb (YearlyResults db)
         (student_id, academic_year_id) total avg rank |}.

Definition get_yearly_result_by_composite_keys (db : DB)
           (student_id academic_year_id : Z) :=
  DBManager.fetch_one_by_key yearly_key_eqb (YearlyResults db)
    (student_id, academic_year_id).

(** One answer of [query_semester_results]. *)
Record SemesterResultData := {
  res_student_id : Z;
  res_total_marks : Q;
  res_average_score : Q;
  res_grade_id : Z }.

(** [query_semester_results]: SemesterResults JOIN Students, for one
    academic year. *)
Definition semester_results_data (db : DB) (academic_year_id : Z)
  : list SemesterResultData :=
  flat_map (fun sr =>
    flat_map (fun s =>
      let '(sr_student_id, _, sr_academic_year_id) := key sr in
      if ((sr_student_id =? student_pk s) &&
          (sr_academic_year_id =? academic_year_id))%Z
      then [ {| res_student_id := sr_student_id;
                res_total_marks := total_marks sr;
                res_average_score := average_score sr;
                res_grade_id := current_grade_id s |} ]
      else [])
      (Students db))
    (rows (SemesterResults db)).

(** What the first loop keeps per student. *)
Record YearAcc := {
  total_marks_sum : Q;
  average_score_sum : Q;
  num_semesters : nat;
  acc_grade_id : Z }.

Definition add_semester (total avg : Q) (a : YearAcc) : YearAcc :=
  {| total_marks_sum := (total_marks_sum a + total)%Q;
     average_score_sum := (average_score_sum a + avg)%Q;
     num_semesters := S (num_semesters a);
     acc_grade_id := acc_grade_id a |}.

(** The body of [for res in semester_results_data]. *)
Definition accumulate (d : Dict.t YearAcc) (res : SemesterResultData) : Dict.t YearAcc :=
  let student_id := res_student_id res in
  let d1 := if Dict.mem d student_id then d
            else Dict.set d student_id
                   {| total_marks_sum := 0; average_score_sum := 0;
                      num_semesters := 0; acc_grade_id := res_grade_id res |} in
  Dict.update d1 student_id (add_semester (res_total_marks res) (res_average_score res)).

Definition student_yearly_sums (data : list SemesterResultData) : Dict.t YearAcc :=
  fold_left accumulate data [].

(** The second loop adds ['total_marks'] and ['average_score'] to every
    record; the sums stay in the Python record and are not read again. *)
Definition finalize (a : YearAcc) : Entry :=
  {| e_total_marks := total_marks_sum a;
     e_average_score :=
       match num_semesters a with
       | O => 0%Q
       | S _ => (average_score_sum a / inject_Z (Z.of_nat (num_semesters a)))%Q
       end;
     e_grade_id := acc_grade_id a;
     e_grade_rank := None |}.

Definition student_yearly_data (data : list SemesterResultData) : Dict.t Entry :=
  map (fun kv => (fst kv, finalize (snd kv))) (student_yearly_sums data).

Definition grades_in_year (d : Dict.t Entry) : list Z :=
  Ranking.sorted_set (map (fun kv => e_grade_id (snd kv)) d).

Definition ranked_yearly_data (db : DB) (academic_year_id : Z) : Dict.t Entry :=
  let d := student_yearly_data (semester_results_data db academic_year_id) in
  Ranking.rank_grades (grades_in_year d) d.

Definition store_one (academic_year_id : Z)
           (acc : option DB) (item : Z * Entry) : option DB :=
  match acc, e_grade_rank (snd item) with
  | Some db, Some rank =>
      Some (add_yearly_result db (fst item) academic_year_id
              (e_total_marks (snd item)) (e_average_score (snd item)) rank)
  | _, _ => None
  end.

Definition compute_and_store_yearly_results (db : DB) (academic_year_id : Z)
  : option DB :=
  match semester_results_data db academic_year_id with
  | [] => Some db
  | _ :: _ =>
      fold_left (store_one academic_year_id)
                (ranked_yearly_data db academic_year_id)
                (Some db)
  end.

End YearlyResultService.

(* ================================================================== *)
(** ** The data of the services' own test blocks *)

Module Sample.
Import SemesterResultService YearlyResultService.

Definition grade1 : Z := 1.
Definition grade2 : Z := 2.
Definition ay_2023_2024 : Z := 1.
Definition sem1 : Z := 1.
Definition sem2 : Z := 2.
Definition john : Z := 1.
Definition jane : Z := 2.
Definition mike : Z := 3.
Definition math : Z := 1.
Definition science : Z := 2.
Definition english : Z := 3.
Definition exam_s1 : Z := 1.
Definition cat1_s1 : Z := 2.
Definition cat2_s1 : Z := 3.
Definition exam_s2 : Z := 4.
Definition cat1_s2 : Z := 5.
Definition cat2_s2 : Z := 6.

Definition empty_table (K : Type) : ResultTable K := {| rows := []; autoinc := 0 |}.

Definition score (student exam subject : Z) (m : Z) : ExamResult :=
  {| er_student_id := student; er_exam_id := exam; er_subject_id := subject;
     marks := inject_Z m |}.

Definition exam (pk : Z) (name : string) (sem : Z) (mx : Z) : Exam :=
  {| exam_pk := pk; exam_name := name; exam_semester_id := Some sem;
     exam_academic_year_id := ay_2023_2024; max_marks := inject_Z mx |}.

Definition school : DB :=
  {| Students := [ {| student_pk := john; current_grade_id := grade1 |};
                   {| student_pk := jane; current_grade_id := grade1 |};
                   {| student_pk := mike; current_grade_id := grade2 |} ];
     Enrollments :=
       [ {| enr_student_id := john; enr_academic_year_id := ay_2023_2024; enr_grade_id := grade1 |};
         {| enr_student_id := jane; enr_academic_year_id := ay_2023_2024; enr_grade_id := grade1 |};
         {| enr_student_id := mike; enr_academic_year_id := ay_2023_2024; enr_grade_id := grade2 |} ];
     Subjects := [ {| subject_pk := math; subject_name := "Mathematics" |};
                   {| subject_pk := science; subject_name := "Science" |};
                   {| subject_pk := english; subject_name := "English" |} ];
     Exams := [ exam exam_s1 "Semester 1 Exam" sem1 100;
                exam cat1_s1 "CAT 1" sem1 30;
                exam cat2_s1 "CAT 2" sem1 30;
                exam exam_s2 "Semester 2 Exam" sem2 100;
                exam cat1_s2 "CAT 1" sem2 30;
                exam cat2_s2 "CAT 2" sem2 30 ];
     ExamResults :=
       [ score john exam_s1 math 70; score john cat1_s1 math 25; score john cat2_s1 math 28;
         score john exam_s1 science 65; score john cat1_s1 science 20; score john cat2_s1 science 22;
         score john exam_s2 math 75; score john cat1_s2 math 26; score john cat2_s2 math 29;
         score john exam_s2 science 70; score john cat1_s2 science 23; score john cat2_s2 science 25;
         score jane exam_s1 math 80; score jane cat1_s1 math 28; score jane cat2_s1 math 29;
         score jane exam_s1 english 75; score jane cat1_s1 english 26; score jane cat2_s1 english 27;
         score jane exam_s2 math 85; score jane cat1_s2 math 29; score jane cat2_s2 math 30;
         score jane exam_s2 english 80; score jane cat1_s2 english 28; score jane cat2_s2 english 29;
         score mike exam_s1 math 90; score mike cat1_s1 math 29; score mike cat2_s1 math 30;
         score mike exam_s2 math 95; score mike cat1_s2 math 30; score mike cat2_s2 math 30 ];
     SemesterResults := empty_table SemesterKey;
     YearlyResults := empty_table YearlyKey |}.



(** Three students of one grade whose only exam gives them 90%, 90% and 80%. *)
Definition three_students : DB :=
  {| Students := [ {| student_pk := john; current_grade_id := grade1 |};
                   {| student_pk := jane; current_grade_id := grade1 |};
                   {| student_pk := mike; current_grade_id := grade1 |} ];
     Enrollments :=
       [ {| enr_student_id := john; enr_academic_year_id := ay_2023_2024; enr_grade_id := grade1 |};
         {| enr_student_id := jane; enr_academic_year_id := ay_2023_2024; enr_grade_id := grade1 |};
         {| enr_student_id := mike; enr_academic_year_id := ay_2023_2024; enr_grade_id := grade1 |} ];
     Subjects := [ {| subject_pk := math; subject_name := "Mathematics" |} ];
     Exams := [ exam exam_s1 "Semester 1 Exam" sem1 100 ];
     ExamResults := [ score john exam_s1 math 90; score jane exam_s1 math 90;
                      score mike exam_s1 math 80 ];
     SemesterResults := empty_table SemesterKey;
     YearlyResults := empty_table YearlyKey |}.

(** The sample school with a fourth student, enrolled but without any
    exam result. *)
Definition school_with_idle_student : DB :=
  {| Students := Students school ++ [ {| student_pk := 4; current_grade_id := grade1 |} ];
     Enrollments :=
       Enrollments school ++
       [ {| enr_student_id := 4; enr_academic_year_id := ay_2023_2024;
            enr_grade_id := grade1 |} ];
     Subjects := Subjects school; Exams := Exams school;
     ExamResults := ExamResults school;
     SemesterResults := empty_table SemesterKey;
     YearlyResults := empty_table YearlyKey |}.

(** The same, where the idle student still has a row from an earlier run. *)
Definition stale_row : ResultRow SemesterKey :=
  {| row_id := 7; key := (4%Z, sem1, ay_2023_2024); total_marks := 50 # 1;
     average_score := 50 # 1; grade_rank := 1 |}.

Definition school_with_stale_row : DB :=
  {| Students := Students school_with_idle_student;
     Enrollments := Enrollments school_with_idle_student;
     Subjects := Subjects school; Exams := Exams school;
     ExamResults := ExamResults school;
     SemesterResults := {| rows := [stale_row]; autoinc := 7 |};
     YearlyResults := empty_table YearlyKey |}.

(** The sample school where John also sat a "Midterm" in English, an exam
    that is neither a semester exam nor a CAT. *)
Definition midterm : Z := 7.

Definition school_with_midterm : DB :=
  {| Students := Students school; Enrollments := Enrollments school;
     Subjects := Subjects school;
     Exams := Exams school ++ [ exam midterm "Midterm" sem1 50 ];
     ExamResults := ExamResults school ++ [ score john midterm english 40 ];
     SemesterResults := empty_table SemesterKey;
     YearlyResults := empty_table YearlyKey |}.


(** One student with a semester exam and an exam called "Education Quiz". *)
Definition education_quiz : DB :=
  {| Students := [ {| student_pk := john; current_grade_id := grade1 |} ];
     Enrollments :=
       [ {| enr_student_id := john; enr_academic_year_id := ay_2023_2024;
            enr_grade_id := grade1 |} ];
     Subjects := [ {| subject_pk := math; subject_name := "Mathematics" |} ];
     Exams := [ exam exam_s1 "Semester 1 Exam" sem1 100;
                exam cat1_s1 "Education Quiz" sem1 20 ];
     ExamResults := [ score john exam_s1 math 70; score john cat1_s1 math 10 ];
     SemesterResults := empty_table SemesterKey;
     YearlyResults := empty_table YearlyKey |}.

(** The sample school after both of its semesters have been computed. *)
Definition school_after_semesters : DB :=
  match compute_and_store_semester_results school ay_2023_2024 sem1 with
  | Some db1 =>
      match compute_and_store_semester_results db1 ay_2023_2024 sem2 with
      | Some db2 => db2
      | None => db1
      end
  | None => school
  end.

End Sample.


(* ================================================================== *)
(** ** The constraints of the schema, as decidable checks *)

Module Constraints.

Section Unique.
Variable A : Type.
Variable eqb : A -> A -> bool.
Fixpoint uniqueb (l : list A) : bool :=
  match l with
  | [] => true
  | x :: l' => negb (existsb (eqb x) l') && uniqueb l'
  end.
End Unique.

(** [id INTEGER PRIMARY KEY] and [UNIQUE(<key columns>)] of a result table. *)
Definition table_ok (K : Type) (key_eqb : K -> K -> bool) (t : ResultTable K) : bool :=
  uniqueb Z.eqb (map (@row_id K) (rows t)) && uniqueb key_eqb (map (@key K) (rows t)).

(** The result tables satisfy their [PRIMARY KEY] and [UNIQUE] constraints. *)
Definition results_ok (db : DB) : bool :=
  table_ok semester_key_eqb (SemesterResults db) &&
  table_ok yearly_key_eqb (YearlyResults db).

(** [Students.id] is a primary key and [Enrollments] has
    [UNIQUE(student_id, academic_year_id)]. *)
Definition enrollment_ok (db : DB) : bool :=
  uniqueb Z.eqb (map student_pk (Students db)) &&
  uniqueb yearly_key_eqb
          (map (fun e => (enr_student_id e, enr_academic_year_id e)) (Enrollments db)).

(** [Subjects.id] is a primary key. *)
Definition subjects_ok (db : DB) : bool :=
  uniqueb Z.eqb (map subject_pk (Subjects db)).

Definition schema_ok (db : DB) : bool := enrollment_ok db && results_ok db.

End Constraints.

(* ================================================================== *)
(** ** Vocabulary of the statements *)

Module DictSpec.
Definition keys (V : Type) (d : Dict.t V) : list Z := map fst d.
End DictSpec.

Module TableSpec.
Section Spec.
Variable K : Type.
Variable key_eqb : K -> K -> bool.
Implicit Types (t : ResultTable K) (r : ResultRow K) (k : K).

(** A row of values to store under a key. *)
Definition Item : Type := K * (Q * Q * nat).

Definition wf t : Prop :=
  NoDup (map (@row_id K) (rows t)) /\ NoDup (map (@key K) (rows t)).

Definition mk_row (i : Z) (k : K) (v : Q * Q * nat) : ResultRow K :=
  {| row_id := i; key := k; total_marks := fst (fst v);
     average_score := snd (fst v); grade_rank := snd v |}.

Definition values r : Q * Q * nat := (total_marks r, average_score r, grade_rank r).

Definition add_item t (it : Item) : ResultTable K :=
  DBManager.add_result key_eqb t (fst it) (fst (fst (snd it))) (snd (fst (snd it))) (snd (snd it)).

(** Overwriting in place the row that holds key [k]. *)
Definition put (k : K) (v : Q * Q * nat) r : ResultRow K :=
  if key_eqb (key r) k then mk_row (row_id r) k v else r.

(** Storing a list of items, one [add_result] each. *)
Definition item_keys (items : list Item) : list K := map fst items.

Definition store_items t (items : list Item) : ResultTable K :=
  fold_left add_item items t.
End Spec.
End TableSpec.

Module RankSpec.

(** Competition ("1224") rank of a score within a cohort: one more than
    the number of strictly larger scores. *)
Definition competition_rank (scores : list Q) (x : Q) : nat :=
  S (length (filter (fun y => Qgtb y x) scores)).

Definition cohort_scores (d : Dict.t Entry) (grade_id : Z) : list Q :=
  map snd (Ranking.students_in_grade d grade_id).

Definition rank_of (d : Dict.t Entry) (student_id : Z) : option nat :=
  match Dict.get d student_id with
  | Some e => e_grade_rank e
  | None => None
  end.

(** Larger scores first. *)
Definition descending (l : list (Z * Q)) : Prop :=
  StronglySorted (fun a b => (snd b <= snd a)%Q) l.

(** The ranks the ranking loop hands out, in the order of the walk. *)
Fixpoint walk_ranks (i cur : nat) (prev : Q) (l : list (Z * Q)) : list (Z * nat) :=
  match l with
  | [] => []
  | (s_id, avg_score) :: l' =>
      let rank := if negb (Qeq_bool avg_score prev) then (i + 1)%nat else cur in
      (s_id, rank) :: walk_ranks (S i) rank avg_score l'
  end.

(** The dictionary with every entry ranked within its own grade. *)
Definition ranked (d : Dict.t Entry) : Dict.t Entry :=
  map (fun kv =>
         (fst kv,
          set_grade_rank
            (competition_rank (cohort_scores d (e_grade_id (snd kv)))
                              (e_average_score (snd kv)))
            (snd kv))) d.


(** Competition ranking, as a walk down the sorted cohort of each grade:
    the first student has rank 1; a later student shares the rank of the
    one before exactly when their scores are equal, and otherwise takes
    the 1-based position. *)
Definition competition_ranked (R : Dict.t Entry) : Prop :=
  forall grade_id,
    let sorted := Ranking.sort_desc (Ranking.students_in_grade R grade_id) in
    descending sorted /\
    Permutation (Ranking.students_in_grade R grade_id) sorted /\
    (forall s a, nth_error sorted 0 = Some (s, a) -> rank_of R s = Some 1%nat) /\
    (forall i s' a' s a,
       nth_error sorted i = Some (s', a') ->
       nth_error sorted (S i) = Some (s, a) ->
       exists r' r,
         rank_of R s' = Some r' /\ rank_of R s = Some r /\
         (r = r' <-> (a == a')%Q) /\
         (~ (a == a')%Q -> r = S (S i))).

(** A better score never has a worse rank within a grade, and equal
    scores have equal ranks. *)
Definition rank_monotone (R : Dict.t Entry) : Prop :=
  forall A B eA eB,
    Dict.get R A = Some eA -> Dict.get R B = Some eB ->
    e_grade_id eA = e_grade_id eB ->
    exists rA rB,
      e_grade_rank eA = Some rA /\ e_grade_rank eB = Some rB /\
      ((e_average_score eB < e_average_score eA)%Q -> (rA <= rB)%nat) /\
      ((e_average_score eA == e_average_score eB)%Q -> rA = rB).

(** The effect on one entry of writing a list of ranks into the dictionary. *)
Definition apply_ranks (assigns : list (Z * nat)) (k : Z) (e : Entry) : Entry :=
  fold_left (fun e sr => if (k =? fst sr)%Z then set_grade_rank (snd sr) e else e)
            assigns e.

(** Ranking reads the scores and grade ids only, and never changes them. *)
Definition scores_of (d : Dict.t Entry) : list (Z * Q * Z) :=
  map (fun kv => (fst kv, e_average_score (snd kv), e_grade_id (snd kv))) d.

End RankSpec.

Module StoreSpec.

Definition with_semester_results (db : DB) (t : ResultTable SemesterKey) : DB :=
  {| Students := Students db; Enrollments := Enrollments db;
     Subjects := Subjects db; Exams := Exams db; ExamResults := ExamResults db;
     SemesterResults := t; YearlyResults := YearlyResults db |}.

Definition with_yearly_results (db : DB) (t : ResultTable YearlyKey) : DB :=
  {| Students := Students db; Enrollments := Enrollments db;
     Subjects := Subjects db; Exams := Exams db; ExamResults := ExamResults db;
     SemesterResults := SemesterResults db; YearlyResults := t |}.

(** What the storing loop passes to [add_result] for a ranked entry. *)
Definition entry_values (e : Entry) : Q * Q * nat :=
  (e_total_marks e, e_average_score e,
   match e_grade_rank e with Some r => r | None => 0%nat end).

Definition semester_items (academic_year_id semester_id : Z) (d : Dict.t Entry)
  : list (TableSpec.Item SemesterKey) :=
  map (fun kv => ((fst kv, semester_id, academic_year_id), entry_values (snd kv))) d.

Definition yearly_items (academic_year_id : Z) (d : Dict.t Entry)
  : list (TableSpec.Item YearlyKey) :=
  map (fun kv => ((fst kv, academic_year_id), entry_values (snd kv))) d.


(** The [SemesterResults] table after a semester run, and the
    [YearlyResults] table after a yearly run. *)
Definition semester_run_table (db : DB) (academic_year_id semester_id : Z)
  : ResultTable SemesterKey :=
  TableSpec.store_items semester_key_eqb (SemesterResults db)
    (semester_items academic_year_id semester_id
       (SemesterResultService.ranked_semester_data db academic_year_id semester_id)).

Definition yearly_run_table (db : DB) (academic_year_id : Z) : ResultTable YearlyKey :=
  TableSpec.store_items yearly_key_eqb (YearlyResults db)
    (yearly_items academic_year_id
       (YearlyResultService.ranked_yearly_data db academic_year_id)).

(** The rows of a table whose key is one of [ks]. *)
Definition rows_keyed (K : Type) (key_eqb : K -> K -> bool)
           (ks : list K) (t : ResultTable K) : list (ResultRow K) :=
  filter (fun r => existsb (key_eqb (key r)) ks) (rows t).

(** The items of a ranked dictionary, for a table keyed by [mkkey student]. *)
Definition items_of (K : Type) (mkkey : Z -> K) (R : Dict.t Entry)
  : list (TableSpec.Item K) :=
  map (fun kv => (mkkey (fst kv), entry_values (snd kv))) R.

End StoreSpec.

Module SemesterSpec.
Import SemesterResultService.

(** A student the run leaves out: no exam result in the scope, or no
    subject counted. *)
Definition skipped (db : DB) (academic_year_id semester_id student_id : Z) : bool :=
  match student_result db academic_year_id semester_id (student_id, 0%Z) with
  | Some _ => false
  | None => true
  end.

Definition survivors (db : DB) (academic_year_id semester_id : Z) : list (Z * Z) :=
  filter (fun s => negb (skipped db academic_year_id semester_id (fst s)))
         (students_in_year db academic_year_id).

(** An entry of the first loop, for a student of grade [g]. *)
Definition with_grade (g : Z) (e : Entry) : Entry :=
  {| e_total_marks := e_total_marks e; e_average_score := e_average_score e;
     e_grade_id := g; e_grade_rank := None |}.

(** One iteration of the first loop on the dictionary. *)
Definition data_step (db : DB) (ay sem : Z) (d : Dict.t Entry) (student_info : Z * Z) : Dict.t Entry :=
  match student_result db ay sem student_info with
  | Some e => Dict.set d (fst student_info) e
  | None => d
  end.

End SemesterSpec.

Module AggregateSpec.
Import SemesterResultService.

(** The subject aggregator, in the words of its description: the
    semester-exam marks (0 if absent) plus the mean of the CAT marks (0 if
    none), and the same for the maximum marks. *)
Definition mean (l : list Q) : Q :=
  match l with
  | [] => 0%Q
  | _ :: _ => (sum l / len l)%Q
  end.

Definition semester_score (db : DB) (student subject ay sem : Z) : Q :=
  match sem_exam_result db student subject ay sem with
  | Some r => fst r
  | None => 0%Q
  end.

Definition semester_max (db : DB) (student subject ay sem : Z) : Q :=
  match sem_exam_result db student subject ay sem with
  | Some r => snd r
  | None => 0%Q
  end.

Definition cat_avg_score (db : DB) (student subject ay sem : Z) : Q :=
  mean (map fst (cat_results db student subject ay sem)).

Definition cat_avg_max (db : DB) (student subject ay sem : Z) : Q :=
  mean (map snd (cat_results db student subject ay sem)).

Definition achieved (db : DB) (student ay sem subject : Z) : Q :=
  (semester_score db student subject ay sem + cat_avg_score db student subject ay sem)%Q.

Definition possible (db : DB) (student ay sem subject : Z) : Q :=
  (semester_max db student subject ay sem + cat_avg_max db student subject ay sem)%Q.

(** The subjects that count: those with something possible. *)
Definition counted_subjects (db : DB) (student ay sem : Z) : list Z :=
  filter (fun subject => Qgtb (possible db student ay sem subject) 0)
         (map fst (subjects_with_results db student ay sem)).

Definition total_achieved (db : DB) (student ay sem : Z) : Q :=
  sum (map (achieved db student ay sem) (counted_subjects db student ay sem)).

Definition total_possible (db : DB) (student ay sem : Z) : Q :=
  sum (map (possible db student ay sem) (counted_subjects db student ay sem)).

Definition percentage (db : DB) (student ay sem : Z) : Q :=
  if Qgtb (total_possible db student ay sem) 0
  then (total_achieved db student ay sem / total_possible db student ay sem * 100)%Q
  else 0%Q.

End AggregateSpec.

Module YearlySpec.
Import YearlyResultService.

(** The [SemesterResults] rows of one student in one academic year. *)
Definition semester_rows (db : DB) (academic_year_id student_id : Z)
  : list (ResultRow SemesterKey) :=
  filter (fun sr => let '(st, _, ay) := key sr in
                    ((st =? student_id) && (ay =? academic_year_id))%Z)
         (rows (SemesterResults db)).

(** The answers of [query_semester_results] about one student. *)
Definition answers_of (student_id : Z) (data : list SemesterResultData)
  : list SemesterResultData :=
  filter (fun r => (res_student_id r =? student_id)%Z) data.

(** The record a student starts with, and the record after a list of
    answers has been added to it. *)
Definition init (r : SemesterResultData) : YearAcc :=
  {| total_marks_sum := 0; average_score_sum := 0; num_semesters := 0;
     acc_grade_id := res_grade_id r |}.

Definition absorb (l : list SemesterResultData) (a : YearAcc) : YearAcc :=
  fold_left (fun a r => add_semester (res_total_marks r) (res_average_score r) a) l a.

End YearlySpec.

Module CallSpec.
Import SemesterResultService YearlyResultService.

(** The calls that write result rows. *)
Inductive Call : Type :=
| AddSemesterResult (student_id semester_id academic_year_id : Z)
                    (total avg : Q) (rank : nat)
| AddYearlyResult (student_id academic_year_id : Z) (total avg : Q) (rank : nat)
| ComputeSemesterResults (academic_year_id semester_id : Z)
| ComputeYearlyResults (academic_year_id : Z).

Definition perform (c : Call) (db : DB) : option DB :=
  match c with
  | AddSemesterResult s m y total avg rank =>
      Some (add_semester_result db s m y total avg rank)
  | AddYearlyResult s y total avg rank =>
      Some (add_yearly_result db s y total avg rank)
  | ComputeSemesterResults y m => compute_and_store_semester_results db y m
  | ComputeYearlyResults y => compute_and_store_yearly_results db y
  end.

Fixpoint run (calls : list Call) (db : DB) : option DB :=
  match calls with
  | [] => Some db
  | c :: calls' =>
      match perform c db with
      | Some db' => run calls' db'
      | None => None
      end
  end.

End CallSpec.

Module TextSpec.

(** [m] is [p] up to the characters the comparison [eqc] identifies. *)
Fixpoint same (eqc : ascii -> ascii -> bool) (p m : string) : Prop :=
  match p, m with
  | EmptyString, EmptyString => True
  | String a p', String b m' => eqc a b = true /\ same eqc p' m'
  | _, _ => False
  end.

(** [name] contains [p]. *)
Definition contains (eqc : ascii -> ascii -> bool) (p name : string) : Prop :=
  exists pre mid post,
    name = (pre ++ mid ++ post)%string /\ same eqc p mid.

(** [name] contains [p] and, after it, [q]. *)
Definition contains_then (eqc : ascii -> ascii -> bool) (p q name : string) : Prop :=
  exists a m1 b m2 c,
    name = (a ++ m1 ++ b ++ m2 ++ c)%string /\ same eqc p m1 /\ same eqc q m2.

End TextSpec.

Module ClassifySpec.
Import SemesterResultService.


Definition contains_CAT (name : string) : bool := Text.py_in "CAT" name.


(** The CAT rows of a subject under that reading. *)
Definition cat_results_by_substring (db : DB)
           (student_id subject_id academic_year_id semester_id : Z) : list (Q * Q) :=
  map (fun p => (marks (fst p), max_marks (snd p)))
      (filter (fun p => (er_subject_id (fst p) =? subject_id)%Z &&
                        contains_CAT (exam_name (snd p)))
              (scoped_results db student_id academic_year_id semester_id)).


End ClassifySpec.

(* ================================================================== *)
(** ** The model classes ([models/semester_result.py], [models/yearly_result.py]) *)

Module Models.

(** What a field of a model object, or an entry of a dictionary, holds. *)
Inductive Value : Type :=
| PyNone
| PyInt (z : Z)
| PyFloat (q : Q).

Definition is_none (v : Value) : bool :=
  match v with PyNone => true | _ => false end.

(** A Python dictionary with string keys, in insertion order. *)
Definition PyDict : Type := list (string * Value).

(** [data.get(k)] *)
Fixpoint get (data : PyDict) (k : string) : Value :=
  match data with
  | [] => PyNone
  | (k', v) :: data' => if String.eqb k' k then v else get data' k
  end.

(** [{k: v for k, v in data.items() if v is not None}] *)
Definition drop_none (data : PyDict) : PyDict :=
  filter (fun kv => negb (is_none (snd kv))) data.

Record SemesterResult := {
  o_id : Value;
  o_student_id : Value;
  o_semester_id : Value;
  o_academic_year_id : Value;
  o_total_marks : Value;
  o_average_score : Value;
  o_grade_rank : Value }.

(** [SemesterResult.to_dict] *)
Definition semester_to_dict (r : SemesterResult) : PyDict :=
  drop_none [ ("student_id", o_student_id r);
              ("semester_id", o_semester_id r);
              ("academic_year_id", o_academic_year_id r);
              ("total_marks", o_total_marks r);
              ("average_score", o_average_score r);
              ("grade_rank", o_grade_rank r) ].

(** [SemesterResult.from_dict] *)
Definition semester_from_dict (data : PyDict) : SemesterResult :=
  {| o_id := get data "id";
     o_student_id := get data "student_id";
     o_semester_id := get data "semester_id";
     o_academic_year_id := get data "academic_year_id";
     o_total_marks := get data "total_marks";
     o_average_score := get data "average_score";
     o_grade_rank := get data "grade_rank" |}.

Record YearlyResult := {
  y_id : Value;
  y_student_id : Value;
  y_academic_year_id : Value;
  y_total_marks : Value;
  y_average_score : Value;
  y_grade_rank : Value }.

(** [YearlyResult.to_dict] *)
Definition yearly_to_dict (r : YearlyResult) : PyDict :=
  drop_none [ ("student_id", y_student_id r);
              ("academic_year_id", y_academic_year_id r);
              ("total_marks", y_total_marks r);
              ("average_score", y_average_score r);
              ("grade_rank", y_grade_rank r) ].

(** [YearlyResult.from_dict] *)
Definition yearly_from_dict (data : PyDict) : YearlyResult :=
  {| y_id := get data "id";
     y_student_id := get data "student_id";
     y_academic_year_id := get data "academic_year_id";
     y_total_marks := get data "total_marks";
     y_average_score := get data "average_score";
     y_grade_rank := get data "grade_rank" |}.

(** [dict(row)] for a row of [SemesterResults] and of [YearlyResults]:
    the columns in the order of the schema. *)
Definition semester_row_dict (r : ResultRow SemesterKey) : PyDict :=
  let '(student_id, semester_id, academic_year_id) := key r in
  [ ("id", PyInt (row_id r));
    ("student_id", PyInt student_id);
    ("semester_id", PyInt semester_id);
    ("academic_year_id", PyInt academic_year_id);
    ("total_marks", PyFloat (total_marks r));
    ("average_score", PyFloat (average_score r));
    ("grade_rank", PyInt (Z.of_nat (grade_rank r))) ].

Definition yearly_row_dict (r : ResultRow YearlyKey) : PyDict :=
  let '(student_id, academic_year_id) := key r in
  [ ("id", PyInt (row_id r));
    ("student_id", PyInt student_id);
    ("academic_year_id", PyInt academic_year_id);
    ("total_marks", PyFloat (total_marks r));
    ("average_score", PyFloat (average_score r));
    ("grade_rank", PyInt (Z.of_nat (grade_rank r))) ].

End Models.

(* ================================================================== *)
(** ** [DBManager]: reading, updating and deleting by id *)

Module DBManagerById.
Section Table.
Variable K : Type.

(** [get_by_id(T, record_id)] *)
Definition get_by_id (t : ResultTable K) (record_id : Z) : option (ResultRow K) :=
  find (fun r => (row_id r =? record_id)%Z) (rows t).

(** The computed columns an [update_one] is given: [None] for a column
    that is not in the dictionary. *)
Record Columns := {
  set_total_marks : option Q;
  set_average_score : option Q;
  set_grade_rank : option nat }.

Definition no_columns (c : Columns) : bool :=
  match set_total_marks c, set_average_score c, set_grade_rank c with
  | None, None, None => true
  | _, _, _ => false
  end.

Definition set_columns (c : Columns) (r : ResultRow K) : ResultRow K :=
  {| row_id := row_id r;
     key := key r;
     total_marks := match set_total_marks c with Some v => v | None => total_marks r end;
     average_score :=
       match set_average_score c with Some v => v | None => average_score r end;
     grade_rank := match set_grade_rank c with Some v => v | None => grade_rank r end |}.

(** [cursor.rowcount] of a statement with [WHERE id = ?]. *)
Definition rowcount (t : ResultTable K) (record_id : Z) : nat :=
  length (filter (fun r => (row_id r =? record_id)%Z) (rows t)).

(** [update_one(T, record_id, update_data)] with computed columns only. *)
Definition update_columns (t : ResultTable K) (record_id : Z) (c : Columns)
  : ResultTable K * nat :=
  ({| rows := map (fun r => if (row_id r =? record_id)%Z then set_columns c r else r)
                  (rows t);
      autoinc := autoinc t |},
   rowcount t record_id).

(** [delete_one(T, record_id)]; the table's entry in [sqlite_sequence]
    stays as it is. *)
Definition delete_one (t : ResultTable K) (record_id : Z) : ResultTable K * nat :=
  ({| rows := filter (fun r => negb (row_id r =? record_id)%Z) (rows t);
      autoinc := autoinc t |},
   rowcount t record_id).
End Table.
End DBManagerById.

(* ================================================================== *)
(** ** The other methods of [SemesterResultService] and [YearlyResultService] *)

Module SemesterResultCrud.
Import SemesterResultService.

(** [add_semester_result] with the object it returns. *)
Definition add_semester_result_returning (db : DB)
           (student_id semester_id academic_year_id : Z)
           (total avg : Q) (rank : nat) : DB * option Models.SemesterResult :=
  let object (i : Z) : Models.SemesterResult :=
    {| Models.o_id := Models.PyInt i;
       Models.o_student_id := Models.PyInt student_id;
       Models.o_semester_id := Models.PyInt semester_id;
       Models.o_academic_year_id := Models.PyInt academic_year_id;
       Models.o_total_marks := Models.PyFloat total;
       Models.o_average_score := Models.PyFloat avg;
       Models.o_grade_rank := Models.PyInt (Z.of_nat rank) |} in
  let k := (student_id, semester_id, academic_year_id) in
  match get_semester_result_by_composite_keys db student_id semester_id academic_year_id with
  | Some existing_result =>
      (StoreSpec.with_semester_results db
         (DBManager.update_one (SemesterResults db) (row_id existing_result) k total avg rank),
       Some (object (row_id existing_result)))
  | None =>
      let new_id := DBManager.lastrowid (SemesterResults db) in
      (StoreSpec.with_semester_results db
         (DBManager.insert_one (SemesterResults db) k total avg rank),
       if (new_id =? 0)%Z then None else Some (object new_id))
  end.

Definition get_semester_result_by_id (db : DB) (result_id : Z)
  : option Models.SemesterResult :=
  option_map (fun r => Models.semester_from_dict (Models.semester_row_dict r))
             (DBManagerById.get_by_id (SemesterResults db) result_id).

(** [get_semester_result_by_composite_keys] with the object it returns. *)
Definition get_semester_result_object (db : DB)
           (student_id semester_id academic_year_id : Z) : option Models.SemesterResult :=
  option_map (fun r => Models.semester_from_dict (Models.semester_row_dict r))
             (get_semester_result_by_composite_keys db student_id semester_id
                academic_year_id).

Definition update_semester_result (db : DB) (result_id : Z)
           (total_marks average_score : option Q) (grade_rank : option nat) : DB * bool :=
  let update_data :=
    {| DBManagerById.set_total_marks := total_marks;
       DBManagerById.set_average_score := average_score;
       DBManagerById.set_grade_rank := grade_rank |} in
  if DBManagerById.no_columns update_data then (db, false)
  else
    let '(t, rows_affected) :=
      DBManagerById.update_columns (SemesterResults db) result_id update_data in
    (StoreSpec.with_semester_results db t, (0 <? rows_affected)%nat).

Definition delete_semester_result (db : DB) (result_id : Z) : DB * bool :=
  let '(t, rows_affected) := DBManagerById.delete_one (SemesterResults db) result_id in
  (StoreSpec.with_semester_results db t, (0 <? rows_affected)%nat).

End SemesterResultCrud.

Module YearlyResultCrud.
Import YearlyResultService.

(** [add_yearly_result] with the object it returns. *)
Definition add_yearly_result_returning (db : DB) (student_id academic_year_id : Z)
           (total avg : Q) (rank : nat) : DB * option Models.YearlyResult :=
  let object (i : Z) : Models.YearlyResult :=
    {| Models.y_id := Models.PyInt i;
       Models.y_student_id := Models.PyInt student_id;
       Models.y_academic_year_id := Models.PyInt academic_year_id;
       Models.y_total_marks := Models.PyFloat total;
       Models.y_average_score := Models.PyFloat avg;
       Models.y_grade_rank := Models.PyInt (Z.of_nat rank) |} in
  let k := (student_id, academic_year_id) in
  match get_yearly_result_by_composite_keys db student_id academic_year_id with
  | Some existing_result =>
      (StoreSpec.with_yearly_results db
         (DBManager.update_one (YearlyResults db) (row_id existing_result) k total avg rank),
       Some (object (row_id existing_result)))
  | None =>
      let new_id := DBManager.lastrowid (YearlyResults db) in
      (StoreSpec.with_yearly_results db
         (DBManager.insert_one (YearlyResults db) k total avg rank),
       if (new_id =? 0)%Z then None else Some (object new_id))
  end.

Definition get_yearly_result_by_id (db : DB) (result_id : Z)
  : option Models.YearlyResult :=
  option_map (fun r => Models.yearly_from_dict (Models.yearly_row_dict r))
             (DBManagerById.get_by_id (YearlyResults db) result_id).

Definition get_yearly_result_object (db : DB) (student_id academic_year_id : Z)
  : option Models.YearlyResult :=
  option_map (fun r => Models.yearly_from_dict (Models.yearly_row_dict r))
             (get_yearly_result_by_composite_keys db student_id academic_year_id).

Definition update_yearly_result (db : DB) (result_id : Z)
           (total_marks average_score : option Q) (grade_rank : option nat) : DB * bool :=
  let update_data :=
    {| DBManagerById.set_total_marks := total_marks;
       DBManagerById.set_average_score := average_score;
       DBManagerById.set_grade_rank := grade_rank |} in
  if DBManagerById.no_columns update_data then (db, false)
  else
    let '(t, rows_affected) :=
      DBManagerById.update_columns (YearlyResults db) result_id update_data in
    (StoreSpec.with_yearly_results db t, (0 <? rows_affected)%nat).

Definition delete_yearly_result (db : DB) (result_id : Z) : DB * bool :=
  let '(t, rows_affected) := DBManagerById.delete_one (YearlyResults db) result_id in
  (StoreSpec.with_yearly_results db t, (0 <? rows_affected)%nat).

End YearlyResultCrud.

(* ================================================================== *)
(** ** Further conditions on the data, as decidable checks *)

Module DataChecks.

(** No row id is larger than the table's entry in [sqlite_sequence], as
    AUTOINCREMENT keeps it. *)
Definition autoinc_ok (K : Type) (t : ResultTable K) : bool :=
  forallb (fun r => (row_id r <=? autoinc t)%Z) (rows t).

Definition sequences_ok (db : DB) : bool :=
  autoinc_ok (SemesterResults db) && autoinc_ok (YearlyResults db).

(** Every exam result lies between 0 and the maximum marks of its exam. *)
Definition marks_in_range (db : DB) : bool :=
  forallb (fun er =>
    forallb (fun e =>
      negb (er_exam_id er =? exam_pk e)%Z ||
      (Qle_bool 0 (marks er) && Qle_bool (marks er) (max_marks e)))
      (Exams db))
    (ExamResults db).

(** Every stored semester average is a percentage. *)
Definition semester_averages_in_range (db : DB) : bool :=
  forallb (fun r => Qle_bool 0 (average_score r) && Qle_bool (average_score r) 100)
          (rows (SemesterResults db)).

End DataChecks.

Module ByIdSpec.
Section Spec.
Variable K : Type.
Variable key_eqb : K -> K -> bool.

(** The id under which [add_result] leaves the values: the id of the row
    that holds the key, or the next rowid. *)
Definition result_id (t : ResultTable K) (k : K) : Z :=
  match DBManager.fetch_one_by_key key_eqb t k with
  | Some existing_result => row_id existing_result
  | None => DBManager.lastrowid t
  end.

Definition or_keep (A : Type) (new : option A) (old : A) : A :=
  match new with Some v => v | None => old end.

(** [t'] is [t] with the given columns of the row [record_id] set: every
    row is where it was, with its id and key; the rows with another id are
    as they were; in the row [record_id] a column that was given has the
    new value and a column that was not given has the old one. *)
Definition updated_in_place (t t' : ResultTable K) (record_id : Z)
           (total avg : option Q) (rank : option nat) : Prop :=
  length (rows t') = length (rows t) /\
  forall n r,
    nth_error (rows t) n = Some r ->
    exists r',
      nth_error (rows t') n = Some r' /\ row_id r' = row_id r /\ key r' = key r /\
      (row_id r <> record_id -> r' = r) /\
      (row_id r = record_id ->
       total_marks r' = or_keep total (total_marks r) /\
       average_score r' = or_keep avg (average_score r) /\
       grade_rank r' = or_keep rank (grade_rank r)).

(** [t'] is [t] without the row [record_id]: the other rows are all
    there and found under their ids as before, and nothing is found under
    [record_id]. *)
Definition deleted_from (t t' : ResultTable K) (record_id : Z) : Prop :=
  (forall r, In r (rows t') <-> In r (rows t) /\ row_id r <> record_id) /\
  (forall j, DBManagerById.get_by_id t' j =
             (if (j =? record_id)%Z then None else DBManagerById.get_by_id t j)) /\
  (length (rows t') + DBManagerById.rowcount t record_id = length (rows t))%nat.

(** What one call of a service can do to a result table: nothing, a run
    of [add_result], an [update_one] or a [delete_one]. *)
Inductive table_step (t : ResultTable K) : ResultTable K -> Prop :=
| step_none : table_step t t
| step_store (items : list (TableSpec.Item K)) :
    table_step t (TableSpec.store_items key_eqb t items)
| step_update (i : Z) (c : DBManagerById.Columns) :
    table_step t (fst (DBManagerById.update_columns t i c))
| step_delete (i : Z) :
    table_step t (fst (DBManagerById.delete_one t i)).

(** An id the table has handed out and holds no more. *)
Definition retired (t : ResultTable K) (i : Z) : Prop :=
  (i <= autoinc t)%Z /\ ~ In i (map (@row_id K) (rows t)).
End Spec.

(** The tables a call on one result table must leave alone. *)
Definition same_but_semester_results (db db' : DB) : Prop :=
  Students db' = Students db /\ Enrollments db' = Enrollments db /\
  Subjects db' = Subjects db /\ Exams db' = Exams db /\
  ExamResults db' = ExamResults db /\ YearlyResults db' = YearlyResults db.

Definition same_but_yearly_results (db db' : DB) : Prop :=
  Students db' = Students db /\ Enrollments db' = Enrollments db /\
  Subjects db' = Subjects db /\ Exams db' = Exams db /\
  ExamResults db' = ExamResults db /\ SemesterResults db' = SemesterResults db.
End ByIdSpec.

(** The calls of the two services that change the database. *)
Module ServiceCalls.
Import SemesterResultCrud YearlyResultCrud.

Inductive Op : Type :=
| Write (c : CallSpec.Call)
| UpdateSemesterResult (result_id : Z) (total avg : option Q) (rank : option nat)
| UpdateYearlyResult (result_id : Z) (total avg : option Q) (rank : option nat)
| DeleteSemesterResult (result_id : Z)
| DeleteYearlyResult (result_id : Z).

Definition perform_op (o : Op) (db : DB) : option DB :=
  match o with
  | Write c => CallSpec.perform c db
  | UpdateSemesterResult i total avg rank =>
      Some (fst (update_semester_result db i total avg rank))
  | UpdateYearlyResult i total avg rank =>
      Some (fst (update_yearly_result db i total avg rank))
  | DeleteSemesterResult i => Some (fst (delete_semester_result db i))
  | DeleteYearlyResult i => Some (fst (delete_yearly_result db i))
  end.

Fixpoint run_ops (ops : list Op) (db : DB) : option DB :=
  match ops with
  | [] => Some db
  | o :: ops' =>
      match perform_op o db with
      | Some db' => run_ops ops' db'
      | None => None
      end
  end.

End ServiceCalls.

(** The cohort of a grade in a ranked dictionary, and the students of
    the cohort whose average is strictly greater than that of an entry. *)
Module CohortSpec.

Definition cohort (R : Dict.t Entry) (grade_id : Z) : list (Z * Entry) :=
  filter (fun kv => (e_grade_id (snd kv) =? grade_id)%Z) R.

Definition better (R : Dict.t Entry) (e : Entry) : list (Z * Entry) :=
  filter (fun kv => Qgtb (e_average_score (snd kv)) (e_average_score e))
         (cohort R (e_grade_id e)).

End CohortSpec.

(** Databases that differ in what a run is not meant to read. *)
Module ScopeSpec.

(** The database with the grade of every enrolment changed by [f]. *)
Definition with_enrollment_grades (f : Z -> Z) (db : DB) : DB :=
  {| Students := Students db;
     Enrollments :=
       map (fun e => {| enr_student_id := enr_student_id e;
                        enr_academic_year_id := enr_academic_year_id e;
                        enr_grade_id := f (enr_grade_id e) |})
           (Enrollments db);
     Subjects := Subjects db; Exams := Exams db; ExamResults := ExamResults db;
     SemesterResults := SemesterResults db; YearlyResults := YearlyResults db |}.

End ScopeSpec.

(* ================================================================== *)
(** ** The aggregation in the words of its description *)

(** The marks of a student in a subject, read off the tables: the results
    of the student in the subject whose exam, found by its id, belongs to
    the semester and academic year; among them the semester exam (of
    several, the one with the least exam id) and the CATs, told apart by
    the names of the exams. *)
Module MarksSpec.
Section Spec.
Variable semester_exam_name cat_name : string -> bool.
Variable db : DB.

Definition exam_of (er : ExamResult) : option Exam :=
  find (fun e => (exam_pk e =? er_exam_id er)%Z) (Exams db).

Definition of_semester (academic_year_id semester_id : Z) (e : Exam) : bool :=
  match exam_semester_id e with
  | Some m => (m =? semester_id)%Z && (exam_academic_year_id e =? academic_year_id)%Z
  | None => false
  end.

Definition results_of (student subject academic_year_id semester_id : Z)
  : list (ExamResult * Exam) :=
  flat_map (fun er =>
              match exam_of er with
              | Some e =>
                  if (er_student_id er =? student)%Z && (er_subject_id er =? subject)%Z
                     && of_semester academic_year_id semester_id e
                  then [(er, e)] else []
              | None => []
              end)
           (ExamResults db).


Definition earlier (p q : ExamResult * Exam) : ExamResult * Exam :=
  if (exam_pk (snd q) <? exam_pk (snd p))%Z then q else p.

Definition least_exam (l : list (ExamResult * Exam)) : option (ExamResult * Exam) :=
  match l with
  | [] => None
  | p :: l' => Some (fold_left earlier l' p)
  end.

Definition semester_exam_result (student subject academic_year_id semester_id : Z)
  : option (ExamResult * Exam) :=
  least_exam (filter (fun p => semester_exam_name (exam_name (snd p)))
                     (results_of student subject academic_year_id semester_id)).

Definition cat_results_of (student subject academic_year_id semester_id : Z)
  : list (ExamResult * Exam) :=
  filter (fun p => cat_name (exam_name (snd p)))
         (results_of student subject academic_year_id semester_id).

Definition mean (l : list Q) : Q :=
  match l with
  | [] => 0%Q
  | _ :: _ => (SemesterResultService.sum l / SemesterResultService.len l)%Q
  end.

(** achieved = semester-exam marks (0 if absent) + mean of the CAT marks
    (0 if none); possible = the same of the maximum marks. *)
Definition achieved (student academic_year_id semester_id subject : Z) : Q :=
  (match semester_exam_result student subject academic_year_id semester_id with
   | Some p => marks (fst p)
   | None => 0
   end +
   mean (map (fun p => marks (fst p))
             (cat_results_of student subject academic_year_id semester_id)))%Q.

Definition possible (student academic_year_id semester_id subject : Z) : Q :=
  (match semester_exam_result student subject academic_year_id semester_id with
   | Some p => max_marks (snd p)
   | None => 0
   end +
   mean (map (fun p => max_marks (snd p))
             (cat_results_of student subject academic_year_id semester_id)))%Q.

(** The subjects of the [Subjects] table in which the student has a result
    in the semester, and those of them that count: the ones with something
    possible. *)
Definition subjects_of (student academic_year_id semester_id : Z) : list Z :=
  filter (fun subject =>
            match results_of student subject academic_year_id semester_id with
            | [] => false
            | _ :: _ => true
            end)
         (map subject_pk (Subjects db)).

Definition counted (student academic_year_id semester_id : Z) : list Z :=
  filter (fun subject => Qgtb (possible student academic_year_id semester_id subject) 0)
         (subjects_of student academic_year_id semester_id).

Definition total_achieved (student academic_year_id semester_id : Z) : Q :=
  SemesterResultService.sum
    (map (achieved student academic_year_id semester_id)
         (counted student academic_year_id semester_id)).

Definition total_possible (student academic_year_id semester_id : Z) : Q :=
  SemesterResultService.sum
    (map (possible student academic_year_id semester_id)
         (counted student academic_year_id semester_id)).

Definition percentage (student academic_year_id semester_id : Z) : Q :=
  if Qgtb (total_possible student academic_year_id semester_id) 0
  then (total_achieved student academic_year_id semester_id /
        total_possible student academic_year_id semester_id * 100)%Q
  else 0%Q.
End Spec.
End MarksSpec.

(** The names of exams as the description reads them: a semester exam is
    called "...Semester...Exam...", a CAT "...CAT...", in these letters. *)
Module NameSpec.

Definition named_semester_exam (name : string) : bool :=
  Text.occurs_then Ascii.eqb "Semester" "Exam" name.

Definition named_cat (name : string) : bool := Text.occurs Ascii.eqb "CAT" name.


(** No exam of the semester has a name that matches a pattern of the
    queries only when the case of its letters is ignored. *)
Definition names_regular (db : DB) (academic_year_id semester_id : Z) : bool :=
  forallb (fun e =>
             negb (MarksSpec.of_semester academic_year_id semester_id e) ||
             (Bool.eqb (Text.like2 "Semester" "Exam" (exam_name e))
                       (named_semester_exam (exam_name e)) &&
              Bool.eqb (Text.like "CAT" (exam_name e)) (named_cat (exam_name e))))
          (Exams db).

(** [Exams.id], [Subjects.id] are primary keys and [ExamResults] has
    [UNIQUE(student_id, exam_id, subject_id)]. *)
Definition marks_ok (db : DB) : bool :=
  Constraints.uniqueb Z.eqb (map exam_pk (Exams db)) &&
  Constraints.uniqueb semester_key_eqb
    (map (fun er => (er_student_id er, er_exam_id er, er_subject_id er)) (ExamResults db)) &&
  Constraints.subjects_ok db.

(** The database with another [Exams] table. *)
Definition with_exams (exams : list Exam) (db : DB) : DB :=
  {| Students := Students db; Enrollments := Enrollments db;
     Subjects := Subjects db; Exams := exams; ExamResults := ExamResults db;
     SemesterResults := SemesterResults db; YearlyResults := YearlyResults db |}.


End NameSpec.

(** The aggregation with the names read as the description reads them. *)
Module SemesterMarks.
Definition semester_exam_result :=
  MarksSpec.semester_exam_result NameSpec.named_semester_exam.
Definition cat_results_of := MarksSpec.cat_results_of NameSpec.named_cat.
Definition achieved := MarksSpec.achieved NameSpec.named_semester_exam NameSpec.named_cat.
Definition possible := MarksSpec.possible NameSpec.named_semester_exam NameSpec.named_cat.
Definition counted := MarksSpec.counted NameSpec.named_semester_exam NameSpec.named_cat.
Definition total_achieved :=
  MarksSpec.total_achieved NameSpec.named_semester_exam NameSpec.named_cat.
Definition total_possible :=
  MarksSpec.total_possible NameSpec.named_semester_exam NameSpec.named_cat.
Definition percentage :=
  MarksSpec.percentage NameSpec.named_semester_exam NameSpec.named_cat.
End SemesterMarks.

(** Further sample data. *)
Module MoreSamples.

(** The sample school before any marks are entered, with a row in
    [SemesterResults] left from an earlier year. *)
Definition school_before_marks : DB :=
  {| Students := Students Sample.school; Enrollments := Enrollments Sample.school;
     Subjects := Subjects Sample.school; Exams := Exams Sample.school;
     ExamResults := [];
     SemesterResults := {| rows := [Sample.stale_row]; autoinc := 7 |};
     YearlyResults := Sample.empty_table YearlyKey |}.


(** Another [Exams] table for the sample school: the exams of semester 1
    as they are, exam 4 an exam of semester 1 of another academic year and
    exam 5 an exam without a semester. *)
Definition exams_of_two_years : list Exam :=
  [ Sample.exam Sample.exam_s1 "Semester 1 Exam" Sample.sem1 100;
    Sample.exam Sample.cat1_s1 "CAT 1" Sample.sem1 30;
    Sample.exam Sample.cat2_s1 "CAT 2" Sample.sem1 30;
    {| exam_pk := 4; exam_name := "Semester 1 Exam"; exam_semester_id := Some Sample.sem1;
       exam_academic_year_id := 2; max_marks := 50 |};
    {| exam_pk := 5; exam_name := "CAT 1"; exam_semester_id := None;
       exam_academic_year_id := Sample.ay_2023_2024; max_marks := 30 |} ].

End MoreSamples.

(* ================================================================== *)
(** * Properties *)

Unset Implicit Arguments.

(** ** Dictionaries *)

Module DictFacts.
Section Facts.
Variable V : Type.
Implicit Types (d : Dict.t V) (k : Z) (v : V).
Local Abbreviation keys := (@DictSpec.keys V).


Lemma get_In d k v : Dict.get d k = Some v -> In (k, v) d.
Proof.
  induction d as [|[k' v'] d IH]; simpl; [discriminate|].
  destruct (Z.eqb_spec k' k) as [->|Hne].
  - intros [= ->]. now left.
  - intros H. right. now apply IH.
Qed.

Lemma get_None d k : Dict.get d k = None <-> ~ In k (keys d).
Proof.
  induction d as [|[k' v'] d IH]; simpl.
  - tauto.
  - destruct (Z.eqb_spec k' k) as [->|Hne].
    + split; [discriminate|]. intros H. exfalso. apply H. now left.
    + rewrite IH. tauto.
Qed.

Lemma In_get d k v : NoDup (keys d) -> In (k, v) d -> Dict.get d k = Some v.
Proof.
  induction d as [|[k' v'] d IH]; simpl; [tauto|].
  intros Hnd [Heq|Hin].
  - injection Heq as -> ->. now rewrite Z.eqb_refl.
  - inversion Hnd as [|? ? Hk Hnd']; subst.
    destruct (Z.eqb_spec k' k) as [->|Hne].
    + exfalso. apply Hk. now apply (in_map fst) in Hin.
    + now apply IH.
Qed.

Lemma mem_true d k : Dict.mem d k = true <-> In k (keys d).
Proof.
  unfold Dict.mem. destruct (Dict.get d k) eqn:E.
  - split; [|reflexivity]. intros _. apply get_In in E.
    now apply (in_map fst) in E.
  - apply get_None in E. split; [discriminate|tauto].
Qed.

Lemma get_set_same d k v : Dict.get (Dict.set d k v) k = Some v.
Proof.
  induction d as [|[k' v'] d IH]; simpl.
  - now rewrite Z.eqb_refl.
  - destruct (Z.eqb_spec k' k) as [->|Hne]; simpl.
    + now rewrite Z.eqb_refl.
    + destruct (Z.eqb_spec k' k); [contradiction|exact IH].
Qed.

Lemma get_set_other d k k' v : k' <> k -> Dict.get (Dict.set d k v) k' = Dict.get d k'.
Proof.
  intros Hne. induction d as [|[k0 v0] d IH]; simpl.
  - destruct (Z.eqb_spec k k'); [congruence|reflexivity].
  - destruct (Z.eqb_spec k0 k) as [->|Hne0]; simpl.
    + destruct (Z.eqb_spec k k'); [congruence|reflexivity].
    + now rewrite IH.
Qed.

Lemma keys_set_In d k v k' : In k' (keys (Dict.set d k v)) <-> k' = k \/ In k' (keys d).
Proof.
  induction d as [|[k0 v0] d IH]; simpl.
  - intuition.
  - destruct (Z.eqb_spec k0 k) as [->|Hne0]; simpl.
    + intuition.
    + rewrite IH. intuition.
Qed.

Lemma keys_set_NoDup d k v : NoDup (keys d) -> NoDup (keys (Dict.set d k v)).
Proof.
  induction d as [|[k0 v0] d IH]; simpl; intros Hnd.
  - constructor; [tauto|constructor].
  - inversion Hnd as [|? ? Hk Hnd']; subst.
    destruct (Z.eqb_spec k0 k) as [->|Hne0]; simpl.
    + now constructor.
    + constructor; [|now apply IH].
      rewrite keys_set_In. intros [->|H]; [congruence|contradiction].
Qed.

Lemma length_set_new d k v :
  Dict.get d k = None -> length (Dict.set d k v) = S (length d).
Proof.
  induction d as [|[k0 v0] d IH]; simpl; [reflexivity|].
  destruct (Z.eqb_spec k0 k); [discriminate|].
  intros H. simpl. now rewrite IH.
Qed.

Lemma keys_update d k (f : V -> V) : keys (Dict.update d k f) = keys d.
Proof.
  unfold Dict.update, keys. rewrite map_map. apply map_ext.
  intros [k0 v0]; simpl. now destruct (k0 =? k)%Z.
Qed.

Lemma get_update d k k' (f : V -> V) :
  Dict.get (Dict.update d k f) k' =
  if (k' =? k)%Z then option_map f (Dict.get d k') else Dict.get d k'.
Proof.
  induction d as [|[k0 v0] d IH]; simpl.
  - now destruct (k' =? k)%Z.
  - destruct (Z.eqb_spec k0 k) as [->|Hne]; simpl.
    + destruct (Z.eqb_spec k k') as [->|Hne'].
      * now rewrite Z.eqb_refl.
      * exact IH.
    + destruct (Z.eqb_spec k0 k') as [->|Hne'].
      * destruct (Z.eqb_spec k' k); [contradiction|reflexivity].
      * exact IH.
Qed.
End Facts.

Lemma get_map_values (V W : Type) (f : V -> W) (d : Dict.t V) k :
  Dict.get (map (fun kv => (fst kv, f (snd kv))) d) k = option_map f (Dict.get d k).
Proof.
  induction d as [|[k0 v0] d IH]; simpl; [reflexivity|].
  destruct (k0 =? k)%Z; [reflexivity|exact IH].
Qed.
End DictFacts.

(** ** Uniqueness checks *)

Module UniqueFacts.
Import Constraints.
Section Facts.
Variable A : Type.
Variable eqb : A -> A -> bool.
Hypothesis eqb_eq : forall a b, eqb a b = true <-> a = b.

Lemma existsb_eqb_In (x : A) l : existsb (eqb x) l = true <-> In x l.
Proof.
  rewrite existsb_exists. split.
  - intros [y [Hy He]]. apply eqb_eq in He. now subst.
  - intros H. exists x. split; [exact H|now apply eqb_eq].
Qed.

Lemma uniqueb_NoDup l : uniqueb eqb l = true <-> NoDup l.
Proof.
  induction l as [|x l IH]; simpl.
  - split; [constructor|reflexivity].
  - rewrite andb_true_iff, negb_true_iff, IH. split.
    + intros [Hx Hl]. constructor; [|exact Hl].
      intros Hin. apply existsb_eqb_In in Hin. congruence.
    + intros H. inversion H as [|? ? Hx Hl]; subst. split; [|exact Hl].
      destruct (existsb (eqb x) l) eqn:E; [|reflexivity].
      apply existsb_eqb_In in E. contradiction.
Qed.
End Facts.

Lemma NoDup_map_inj (A B : Type) (f : A -> B) l a b :
  NoDup (map f l) -> In a l -> In b l -> f a = f b -> a = b.
Proof.
  induction l as [|x l IH]; simpl; [tauto|].
  intros Hnd Ha Hb Hf. inversion Hnd as [|? ? Hx Hl]; subst.
  destruct Ha as [->|Ha], Hb as [->|Hb]; auto.
  - exfalso. apply Hx. rewrite Hf. now apply in_map.
  - exfalso. apply Hx. rewrite <- Hf. now apply in_map.
Qed.

Lemma semester_key_eqb_eq a b : semester_key_eqb a b = true <-> a = b.
Proof.
  destruct a as [[s1 m1] y1], b as [[s2 m2] y2]. unfold semester_key_eqb.
  rewrite !andb_true_iff, !Z.eqb_eq. split.
  - intros [[-> ->] ->]. reflexivity.
  - intros [= -> -> ->]. auto.
Qed.

Lemma yearly_key_eqb_eq a b : yearly_key_eqb a b = true <-> a = b.
Proof.
  destruct a as [s1 y1], b as [s2 y2]. unfold yearly_key_eqb. simpl.
  rewrite !andb_true_iff, !Z.eqb_eq. split.
  - intros [-> ->]. reflexivity.
  - intros [= -> ->]. auto.
Qed.
End UniqueFacts.

(** ** Result tables under [add_result] *)

Module TableFacts.
Import DBManager Constraints UniqueFacts TableSpec.

Section Facts.
Variable K : Type.
Variable key_eqb : K -> K -> bool.
Hypothesis key_eqb_eq : forall a b, key_eqb a b = true <-> a = b.

Implicit Types (t : ResultTable K) (r : ResultRow K) (k : K).
Local Abbreviation Item := (TableSpec.Item K).
Local Abbreviation add_item := (TableSpec.add_item key_eqb).
Local Abbreviation put := (TableSpec.put key_eqb).


Lemma key_eqb_refl k : key_eqb k k = true.
Proof. now apply key_eqb_eq. Qed.

Lemma key_eqb_neq k k' : k <> k' -> key_eqb k k' = false.
Proof.
  intros H. destruct (key_eqb k k') eqn:E; [|reflexivity].
  apply key_eqb_eq in E. contradiction.
Qed.

Lemma table_ok_wf t : table_ok key_eqb t = true <-> wf t.
Proof.
  unfold table_ok, wf. rewrite andb_true_iff.
  rewrite (uniqueb_NoDup _ Z.eqb Z.eqb_eq), (uniqueb_NoDup _ key_eqb key_eqb_eq).
  reflexivity.
Qed.

Lemma fetch_Some t k r :
  fetch_one_by_key key_eqb t k = Some r -> In r (rows t) /\ key r = k.
Proof.
  unfold fetch_one_by_key. intros H. apply find_some in H.
  destruct H as [Hin He]. apply key_eqb_eq in He. auto.
Qed.

Lemma fetch_None t k :
  fetch_one_by_key key_eqb t k = None <-> ~ In k (map (@key K) (rows t)).
Proof.
  unfold fetch_one_by_key. split.
  - intros H Hin. apply in_map_iff in Hin. destruct Hin as [r [Hk Hr]].
    apply (find_none _ _ H) in Hr. rewrite Hk, key_eqb_refl in Hr. discriminate.
  - intros H. destruct (find _ _) eqn:E; [|reflexivity].
    apply find_some in E. destruct E as [Hin He]. apply key_eqb_eq in He.
    exfalso. apply H. rewrite <- He. now apply in_map.
Qed.

Lemma In_fetch t k r :
  wf t -> In r (rows t) -> key r = k -> fetch_one_by_key key_eqb t k = Some r.
Proof.
  intros [_ Hk] Hin He.
  destruct (fetch_one_by_key key_eqb t k) as [r'|] eqn:E.
  - apply fetch_Some in E. destruct E as [Hin' He'].
    f_equal. apply (NoDup_map_inj _ _ (@key K) (rows t)); auto. congruence.
  - apply fetch_None in E. exfalso. apply E. rewrite <- He. now apply in_map.
Qed.

Lemma max_rowid_ge (l : list (ResultRow K)) r :
  In r l -> (row_id r <= max_rowid l)%Z.
Proof.
  induction l as [|x l IH]; simpl; [tauto|].
  intros [->|H]; [lia|]. specialize (IH H). lia.
Qed.

Lemma lastrowid_fresh t : ~ In (lastrowid t) (map (@row_id K) (rows t)).
Proof.
  intros H. apply in_map_iff in H. destruct H as [r [He Hin]].
  apply max_rowid_ge in Hin. unfold lastrowid in He. lia.
Qed.

(** Under the table's constraints, [add_result] overwrites the one row
    that holds the key, or appends a row when there is none. *)
Lemma rows_add_item t (it : Item) :
  wf t ->
  rows (add_item t it) =
  map (put (fst it) (snd it)) (rows t) ++
  match fetch_one_by_key key_eqb t (fst it) with
  | Some _ => []
  | None => [mk_row (lastrowid t) (fst it) (snd it)]
  end.
Proof.
  intros Hwf. destruct it as [k [[tot avg] rk]]. unfold add_item, add_result. simpl.
  destruct (fetch_one_by_key key_eqb t k) as [r0|] eqn:E; simpl.
  - rewrite app_nil_r. apply map_ext_in. intros r Hin.
    apply fetch_Some in E. destruct E as [Hin0 He0]. unfold put, mk_row. simpl.
    destruct (Z.eqb_spec (row_id r) (row_id r0)) as [Hid|Hid].
    + assert (r = r0) by (apply (NoDup_map_inj _ _ (@row_id K) (rows t)); auto; apply Hwf).
      subst r. now rewrite He0, key_eqb_refl.
    + destruct (key_eqb (key r) k) eqn:Ek; [|reflexivity].
      apply key_eqb_eq in Ek.
      assert (r = r0) by (apply (NoDup_map_inj _ _ (@key K) (rows t)); auto;
                          [apply Hwf|congruence]).
      subst r. contradiction.
  - f_equal. rewrite <- map_id at 1. apply map_ext_in. intros r Hin.
    unfold put. rewrite key_eqb_neq; [reflexivity|].
    intros He. apply fetch_None in E. apply E. rewrite <- He. now apply in_map.
Qed.

Lemma row_id_put k v r : row_id (put k v r) = row_id r.
Proof. unfold put. now destruct (key_eqb (key r) k). Qed.

Lemma key_put k v r : key (put k v r) = key r.
Proof.
  unfold put. destruct (key_eqb (key r) k) eqn:E; [|reflexivity].
  apply key_eqb_eq in E. simpl. congruence.
Qed.

Lemma put_other k v r : key r <> k -> put k v r = r.
Proof. intros H. unfold put. now rewrite key_eqb_neq. Qed.

Lemma keys_add_item t (it : Item) :
  wf t ->
  map (@key K) (rows (add_item t it)) =
  map (@key K) (rows t) ++
  match fetch_one_by_key key_eqb t (fst it) with Some _ => [] | None => [fst it] end.
Proof.
  intros Hwf. rewrite rows_add_item by exact Hwf. rewrite map_app, map_map.
  f_equal.
  - apply map_ext. intros r. apply key_put.
  - now destruct (fetch_one_by_key key_eqb t (fst it)).
Qed.

Lemma ids_add_item t (it : Item) :
  wf t ->
  map (@row_id K) (rows (add_item t it)) =
  map (@row_id K) (rows t) ++
  match fetch_one_by_key key_eqb t (fst it) with Some _ => [] | None => [lastrowid t] end.
Proof.
  intros Hwf. rewrite rows_add_item by exact Hwf. rewrite map_app, map_map.
  f_equal.
  - apply map_ext. intros r. apply row_id_put.
  - now destruct (fetch_one_by_key key_eqb t (fst it)).
Qed.

Lemma NoDup_snoc (A : Type) (l : list A) x : NoDup l -> ~ In x l -> NoDup (l ++ [x]).
Proof.
  intros Hl Hx. apply NoDup_rev in Hl. rewrite <- (rev_involutive (l ++ [x])).
  apply NoDup_rev. rewrite rev_app_distr. simpl. constructor; [|exact Hl].
  now rewrite <- in_rev.
Qed.

Lemma wf_add_item t (it : Item) : wf t -> wf (add_item t it).
Proof.
  intros Hwf. split.
  - rewrite ids_add_item by exact Hwf.
    destruct (fetch_one_by_key key_eqb t (fst it)) eqn:E.
    + rewrite app_nil_r. apply Hwf.
    + apply NoDup_snoc; [apply Hwf|apply lastrowid_fresh].
  - rewrite keys_add_item by exact Hwf.
    destruct (fetch_one_by_key key_eqb t (fst it)) eqn:E.
    + rewrite app_nil_r. apply Hwf.
    + apply NoDup_snoc; [apply Hwf|now apply fetch_None].
Qed.

Lemma wf_fold_add t (items : list Item) : wf t -> wf (fold_left add_item items t).
Proof.
  revert t. induction items as [|it items IH]; simpl; intros t Hwf; [exact Hwf|].
  apply IH. now apply wf_add_item.
Qed.

(** *** One call *)

Lemma add_item_frame t (it : Item) i r :
  wf t -> nth_error (rows t) i = Some r -> key r <> fst it ->
  nth_error (rows (add_item t it)) i = Some r.
Proof.
  intros Hwf Hn Hk. rewrite rows_add_item by exact Hwf.
  rewrite nth_error_app1.
  - rewrite nth_error_map, Hn. simpl. now rewrite put_other.
  - rewrite length_map. apply nth_error_Some. congruence.
Qed.

Lemma add_item_In_other t (it : Item) r :
  wf t -> In r (rows t) -> key r <> fst it -> In r (rows (add_item t it)).
Proof.
  intros Hwf Hin Hk. apply In_nth_error in Hin. destruct Hin as [i Hi].
  eapply nth_error_In. eapply add_item_frame; eauto.
Qed.

Lemma add_item_stored t (it : Item) :
  wf t ->
  exists r, In r (rows (add_item t it)) /\ key r = fst it /\ values r = snd it.
Proof.
  intros Hwf. rewrite rows_add_item by exact Hwf.
  destruct it as [k [[tot avg] rk]]. simpl.
  destruct (fetch_one_by_key key_eqb t k) as [r0|] eqn:E.
  - apply fetch_Some in E. destruct E as [Hin He].
    exists (put k (tot, avg, rk) r0). rewrite app_nil_r. split.
    + now apply in_map.
    + unfold put. rewrite He, key_eqb_refl. simpl. auto.
  - exists (mk_row (lastrowid t) k (tot, avg, rk)). split.
    + apply in_or_app. right. now left.
    + simpl. auto.
Qed.

Lemma add_item_rows_inv t (it : Item) r' :
  wf t -> In r' (rows (add_item t it)) ->
  (In r' (rows t) /\ key r' <> fst it) \/ (key r' = fst it /\ values r' = snd it).
Proof.
  intros Hwf. rewrite rows_add_item by exact Hwf. intros Hin.
  apply in_app_or in Hin. destruct Hin as [Hin|Hin].
  - apply in_map_iff in Hin. destruct Hin as [r [Hp Hin]]. subst r'.
    unfold put. destruct (key_eqb (key r) (fst it)) eqn:E.
    + right. destruct it as [k [[tot avg] rk]]. simpl. auto.
    + left. split; [exact Hin|]. intros He. apply key_eqb_eq in He. congruence.
  - right. destruct (fetch_one_by_key key_eqb t (fst it)); [contradiction|].
    destruct Hin as [<-|[]]. destruct it as [k [[tot avg] rk]]. simpl. auto.
Qed.

Lemma add_item_noop t (it : Item) r :
  wf t -> In r (rows t) -> key r = fst it -> values r = snd it ->
  add_item t it = t.
Proof.
  intros Hwf Hin Hk Hv. pose proof (rows_add_item t it Hwf) as Hrows.
  rewrite (In_fetch t _ r Hwf Hin Hk), app_nil_r in Hrows.
  assert (Ha : autoinc (add_item t it) = autoinc t).
  { unfold add_item, add_result. now rewrite (In_fetch t _ r Hwf Hin Hk). }
  assert (Hm : map (put (fst it) (snd it)) (rows t) = rows t).
  { rewrite <- map_id. apply map_ext_in. intros r1 Hin1. unfold put.
    destruct (key_eqb (key r1) (fst it)) eqn:E; [|reflexivity].
    apply key_eqb_eq in E.
    assert (r1 = r) by (apply (NoDup_map_inj _ _ (@key K) (rows t)); auto;
                        [apply Hwf|congruence]).
    subst r1. rewrite <- Hv, <- Hk. destruct r. reflexivity. }
  destruct (add_item t it) as [rs a], t as [rs0 a0]. simpl in *. congruence.
Qed.

Lemma length_add_item t (it : Item) :
  wf t ->
  length (rows (add_item t it)) =
  (length (rows t) +
   match fetch_one_by_key key_eqb t (fst it) with Some _ => 0 | None => 1 end)%nat.
Proof.
  intros Hwf. rewrite rows_add_item by exact Hwf. rewrite length_app, length_map.
  now destruct (fetch_one_by_key key_eqb t (fst it)).
Qed.

Lemma add_item_insert t (it : Item) :
  wf t -> fetch_one_by_key key_eqb t (fst it) = None ->
  rows (add_item t it) = rows t ++ [mk_row (lastrowid t) (fst it) (snd it)].
Proof.
  intros Hwf Hnone. rewrite rows_add_item by exact Hwf. rewrite Hnone. f_equal.
  rewrite <- map_id. apply map_ext_in. intros r Hr. apply put_other.
  intros He. apply fetch_None in Hnone. apply Hnone. rewrite <- He. now apply in_map.
Qed.

Lemma add_item_overwrite t (it : Item) old :
  wf t -> fetch_one_by_key key_eqb t (fst it) = Some old ->
  rows (add_item t it) = map (put (fst it) (snd it)) (rows t) /\
  In (mk_row (row_id old) (fst it) (snd it)) (rows (add_item t it)).
Proof.
  intros Hwf Hsome. rewrite rows_add_item by exact Hwf. rewrite Hsome, app_nil_r.
  split; [reflexivity|]. apply fetch_Some in Hsome. destruct Hsome as [Hin Hk].
  apply in_map_iff. exists old. split; [|exact Hin].
  unfold put. now rewrite Hk, key_eqb_refl.
Qed.

(** *** A run of calls *)


Lemma fold_add_frame (items : list Item) t i r :
  wf t -> nth_error (rows t) i = Some r -> ~ In (key r) (item_keys items) ->
  nth_error (rows (fold_left add_item items t)) i = Some r.
Proof.
  revert t. induction items as [|it items IH]; simpl; intros t Hwf Hn Hk; [exact Hn|].
  apply IH.
  - now apply wf_add_item.
  - apply add_item_frame; auto.
  - tauto.
Qed.

Lemma fold_add_In_other (items : list Item) t r :
  wf t -> In r (rows t) -> ~ In (key r) (item_keys items) ->
  In r (rows (fold_left add_item items t)).
Proof.
  intros Hwf Hin Hk. apply In_nth_error in Hin. destruct Hin as [i Hi].
  eapply nth_error_In. eapply fold_add_frame; eauto.
Qed.

Lemma fold_add_stored (items : list Item) t (it : Item) :
  wf t -> NoDup (item_keys items) -> In it items ->
  exists r, In r (rows (fold_left add_item items t)) /\
            key r = fst it /\ values r = snd it.
Proof.
  revert t. induction items as [|it0 items IH]; simpl; intros t Hwf Hnd Hin; [tauto|].
  inversion Hnd as [|? ? Hk Hnd']; subst.
  destruct Hin as [->|Hin].
  - destruct (add_item_stored t it Hwf) as [r [Hr [Hkr Hv]]].
    exists r. split; [|auto].
    apply fold_add_In_other; [now apply wf_add_item|exact Hr|now rewrite Hkr].
  - apply IH; auto. now apply wf_add_item.
Qed.

Lemma fold_add_rows_inv (items : list Item) t r' :
  wf t -> In r' (rows (fold_left add_item items t)) ->
  (In r' (rows t) /\ ~ In (key r') (item_keys items)) \/
  (exists it, In it items /\ key r' = fst it /\ values r' = snd it).
Proof.
  revert t. induction items as [|it0 items IH]; simpl; intros t Hwf Hin; [tauto|].
  apply IH in Hin; [|now apply wf_add_item].
  destruct Hin as [[Hin Hk]|[it [Hit Hr]]].
  - apply add_item_rows_inv in Hin; [|exact Hwf].
    destruct Hin as [[Hin Hne]|[He Hv]].
    + left. split; [exact Hin|]. intros [H|H]; [congruence|contradiction].
    + right. exists it0. auto.
  - right. exists it. auto.
Qed.

Lemma fold_add_noop (items : list Item) t :
  wf t ->
  (forall it, In it items ->
              exists r, In r (rows t) /\ key r = fst it /\ values r = snd it) ->
  fold_left add_item items t = t.
Proof.
  intros Hwf. induction items as [|it0 items IH]; simpl; intros H; [reflexivity|].
  destruct (H it0 (or_introl eq_refl)) as [r [Hin [Hk Hv]]].
  rewrite (add_item_noop t it0 r Hwf Hin Hk Hv). apply IH. intros it Hit. apply H. now right.
Qed.

(** Storing the same items a second time changes nothing. *)
Lemma fold_add_idempotent (items : list Item) t :
  wf t -> NoDup (item_keys items) ->
  fold_left add_item items (fold_left add_item items t) = fold_left add_item items t.
Proof.
  intros Hwf Hnd. apply fold_add_noop.
  - now apply wf_fold_add.
  - intros it Hit. now apply fold_add_stored.
Qed.

Lemma fold_add_length_le (items : list Item) t :
  wf t -> (length (rows t) <= length (rows (fold_left add_item items t)))%nat.
Proof.
  revert t. induction items as [|it0 items IH]; simpl; intros t Hwf; [lia|].
  etransitivity; [|apply IH; now apply wf_add_item].
  rewrite length_add_item by exact Hwf. lia.
Qed.

(** The rows selected by a condition on keys that no stored key meets are
    the same list before and after. *)
Lemma add_item_filter (P : K -> bool) t (it : Item) :
  wf t -> P (fst it) = false ->
  filter (fun r => P (key r)) (rows (add_item t it)) =
  filter (fun r => P (key r)) (rows t).
Proof.
  intros Hwf HP. rewrite rows_add_item by exact Hwf. rewrite filter_app.
  replace (filter (fun r => P (key r))
             match fetch_one_by_key key_eqb t (fst it) with
             | Some _ => []
             | None => [mk_row (lastrowid t) (fst it) (snd it)]
             end) with (@nil (ResultRow K)).
  - rewrite app_nil_r. induction (rows t) as [|r l IH]; simpl; [reflexivity|].
    rewrite key_put. destruct (P (key r)) eqn:E; [|exact IH].
    rewrite put_other; [now rewrite IH|]. intros He. congruence.
  - destruct (fetch_one_by_key key_eqb t (fst it)); [reflexivity|]. simpl.
    now rewrite HP.
Qed.

Lemma fold_add_filter (P : K -> bool) (items : list Item) : forall t,
  wf t -> (forall it, In it items -> P (fst it) = false) ->
  filter (fun r => P (key r)) (rows (fold_left add_item items t)) =
  filter (fun r => P (key r)) (rows t).
Proof.
  induction items as [|it items IH]; intros t Hwf HP; simpl; [reflexivity|].
  rewrite IH.
  - apply add_item_filter; [exact Hwf|]. apply HP. now left.
  - now apply wf_add_item.
  - intros it' Hit. apply HP. now right.
Qed.
End Facts.
End TableFacts.

(** ** Storing a ranked dictionary *)

Module StoreFacts.
Import DBManager Constraints UniqueFacts TableSpec TableFacts StoreSpec.

Section Run.
Variable K : Type.
Variable key_eqb : K -> K -> bool.
Hypothesis key_eqb_eq : forall a b, key_eqb a b = true <-> a = b.
Variable mkkey : Z -> K.
Hypothesis mkkey_inj : forall a b, mkkey a = mkkey b -> a = b.

Implicit Types (t : ResultTable K) (R : Dict.t Entry).
Local Abbreviation items_of := (@StoreSpec.items_of K mkkey).


Lemma item_keys_of R : item_keys (items_of R) = map mkkey (DictSpec.keys R).
Proof. unfold item_keys, items_of, DictSpec.keys. now rewrite !map_map. Qed.

Lemma NoDup_map_mkkey (l : list Z) : NoDup l -> NoDup (map mkkey l).
Proof.
  induction 1 as [|x l Hx _ IH]; simpl; constructor; [|exact IH].
  intros H. apply in_map_iff in H. destruct H as [y [Hy Hin]].
  apply mkkey_inj in Hy. now subst.
Qed.

Lemma item_keys_NoDup R : NoDup (DictSpec.keys R) -> NoDup (item_keys (items_of R)).
Proof. intros H. rewrite item_keys_of. now apply NoDup_map_mkkey. Qed.

Lemma run_wf t R : wf t -> wf (store_items key_eqb t (items_of R)).
Proof. intros H. now apply wf_fold_add. Qed.

(** Every entry of the dictionary is in the table afterwards, under its key. *)
Lemma run_row t R k e :
  wf t -> NoDup (DictSpec.keys R) -> Dict.get R k = Some e ->
  exists row,
    fetch_one_by_key key_eqb (store_items key_eqb t (items_of R)) (mkkey k) = Some row /\
    key row = mkkey k /\ values row = entry_values e.
Proof.
  intros Hwf Hnd Hget. apply DictFacts.get_In in Hget.
  assert (Hit : In (mkkey k, entry_values e) (items_of R))
    by apply (in_map (fun kv : Z * Entry => (mkkey (fst kv), entry_values (snd kv))) R (k, e) Hget).
  destruct (fold_add_stored K key_eqb key_eqb_eq (items_of R) t _ Hwf
              (item_keys_NoDup R Hnd) Hit) as [row [Hin [Hk Hv]]].
  exists row. simpl in Hk, Hv. split; [|auto].
  apply (In_fetch K key_eqb key_eqb_eq); auto. now apply run_wf.
Qed.

(** A row under another key stays where it was, as it was. *)
Lemma run_frame t R i r :
  wf t -> nth_error (rows t) i = Some r ->
  (forall k, In k (DictSpec.keys R) -> key r <> mkkey k) ->
  nth_error (rows (store_items key_eqb t (items_of R))) i = Some r.
Proof.
  intros Hwf Hn Hk. apply (fold_add_frame K key_eqb key_eqb_eq); auto.
  rewrite item_keys_of. intros H. apply in_map_iff in H. destruct H as [k [Hk' Hin]].
  now apply (Hk k Hin).
Qed.

(** The table afterwards holds the old rows under other keys and one row
    per entry, and nothing else. *)
Lemma run_rows_inv t R r' :
  wf t -> NoDup (DictSpec.keys R) ->
  In r' (rows (store_items key_eqb t (items_of R))) ->
  (In r' (rows t) /\ forall k, In k (DictSpec.keys R) -> key r' <> mkkey k) \/
  (exists k e, Dict.get R k = Some e /\ key r' = mkkey k /\ values r' = entry_values e).
Proof.
  intros Hwf Hnd Hin.
  apply (fold_add_rows_inv K key_eqb key_eqb_eq) in Hin; [|exact Hwf].
  destruct Hin as [[Hin Hk]|[it [Hit [Hk Hv]]]].
  - left. split; [exact Hin|]. intros k Hkin He. apply Hk. rewrite item_keys_of, He.
    now apply in_map.
  - right. apply in_map_iff in Hit. destruct Hit as [[k e] [<- Hke]].
    exists k, e. simpl in *. split; [|auto]. now apply DictFacts.In_get.
Qed.

Lemma run_filter (P : K -> bool) t R :
  wf t -> (forall k, In k (DictSpec.keys R) -> P (mkkey k) = false) ->
  filter (fun r => P (key r)) (rows (store_items key_eqb t (items_of R))) =
  filter (fun r => P (key r)) (rows t).
Proof.
  intros Hwf HP. apply (fold_add_filter K key_eqb key_eqb_eq); [exact Hwf|].
  intros it Hit. apply in_map_iff in Hit. destruct Hit as [[k e] [<- Hke]]. simpl.
  apply HP. apply (in_map fst R (k, e) Hke).
Qed.

Lemma run_idempotent t R :
  wf t -> NoDup (DictSpec.keys R) ->
  store_items key_eqb (store_items key_eqb t (items_of R)) (items_of R) =
  store_items key_eqb t (items_of R).
Proof.
  intros Hwf Hnd. apply (fold_add_idempotent K key_eqb key_eqb_eq); auto.
  now apply item_keys_NoDup.
Qed.

(** One row per entry: the rows under the keys of the dictionary are as
    many as its entries. *)
Lemma run_count t R :
  wf t -> NoDup (DictSpec.keys R) ->
  length (rows_keyed key_eqb (map mkkey (DictSpec.keys R))
                     (store_items key_eqb t (items_of R))) = length R.
Proof.
  intros Hwf Hnd. set (T := store_items key_eqb t (items_of R)).
  assert (HwfT : wf T) by now apply run_wf.
  set (ks := map mkkey (DictSpec.keys R)).
  assert (Hperm : Permutation (map (@key K) (rows_keyed key_eqb ks T)) ks).
  { apply NoDup_Permutation.
    - unfold rows_keyed. destruct HwfT as [_ Hk]. revert Hk.
      generalize (rows T). intros l. induction l as [|r l IH]; simpl; intros H;
        [constructor|].
      inversion H as [|? ? Hr Hl]; subst.
      destruct (existsb (key_eqb (key r)) ks); simpl; [|now apply IH].
      constructor; [|now apply IH]. intros Hin. apply Hr.
      apply in_map_iff in Hin. destruct Hin as [r0 [He Hin]].
      apply filter_In in Hin. rewrite <- He. apply in_map. tauto.
    - now apply NoDup_map_mkkey.
    - intros k. split.
      + intros H. apply in_map_iff in H. destruct H as [r [<- Hr]].
        apply filter_In in Hr. destruct Hr as [_ Hr].
        now apply (existsb_eqb_In _ key_eqb key_eqb_eq) in Hr.
      + intros H. pose proof H as H0. apply in_map_iff in H. destruct H as [k0 [<- Hk0]].
        destruct (Dict.get R k0) as [e|] eqn:E;
          [|apply DictFacts.get_None in E; contradiction].
        destruct (run_row t R k0 e Hwf Hnd E) as [row [Hf [Hk _]]].
        apply (fetch_Some K key_eqb key_eqb_eq) in Hf. destruct Hf as [Hin _].
        rewrite <- Hk. apply in_map. apply filter_In. split; [exact Hin|].
        apply (existsb_eqb_In _ key_eqb key_eqb_eq). now rewrite Hk. }
  apply Permutation_length in Hperm. rewrite length_map in Hperm. rewrite Hperm.
  unfold ks, DictSpec.keys. now rewrite !length_map.
Qed.
End Run.

Lemma semester_mkkey_inj (sem ay a b : Z) : (a, sem, ay) = (b, sem, ay) -> a = b.
Proof. now intros [= ->]. Qed.

Lemma yearly_mkkey_inj (ay a b : Z) : (a, ay) = (b, ay) -> a = b.
Proof. now intros [= ->]. Qed.

Lemma results_ok_wf db :
  results_ok db = true -> wf (SemesterResults db) /\ wf (YearlyResults db).
Proof.
  unfold results_ok. rewrite andb_true_iff.
  rewrite (table_ok_wf _ _ semester_key_eqb_eq), (table_ok_wf _ _ yearly_key_eqb_eq).
  tauto.
Qed.


Lemma results_ok_iff db :
  results_ok db = true <-> wf (SemesterResults db) /\ wf (YearlyResults db).
Proof.
  unfold results_ok. rewrite andb_true_iff.
  rewrite (table_ok_wf _ _ semester_key_eqb_eq), (table_ok_wf _ _ yearly_key_eqb_eq).
  tauto.
Qed.

End StoreFacts.

(** ** Comparisons of scores *)

Module QFacts.

Lemma Qgtb_true y x : Qgtb y x = true <-> (x < y)%Q.
Proof.
  unfold Qgtb. rewrite negb_true_iff. split.
  - intros H. apply Qnot_le_lt. intros Hle. apply Qle_bool_iff in Hle. congruence.
  - intros H. destruct (Qle_bool y x) eqn:E; [|reflexivity].
    apply Qle_bool_iff in E. exfalso. apply (Qlt_not_le _ _ H E).
Qed.

Lemma Qgtb_false y x : Qgtb y x = false <-> (y <= x)%Q.
Proof.
  unfold Qgtb. rewrite negb_false_iff. apply Qle_bool_iff.
Qed.

Lemma Qgtb_compat y x x' : (x == x')%Q -> Qgtb y x = Qgtb y x'.
Proof.
  intros H. destruct (Qgtb y x') eqn:E.
  - apply Qgtb_true. apply Qgtb_true in E. now rewrite H.
  - apply Qgtb_false. apply Qgtb_false in E. now rewrite H.
Qed.

Lemma Qgtb_le y x : (y <= x)%Q -> Qgtb y x = false.
Proof. apply Qgtb_false. Qed.

End QFacts.

(** ** Sorting and ranking a cohort *)

Module RankFacts.
Import Ranking RankSpec QFacts.

Lemma competition_rank_compat scores x x' :
  (x == x')%Q -> competition_rank scores x = competition_rank scores x'.
Proof.
  intros H. unfold competition_rank. f_equal. f_equal.
  apply filter_ext. intros y. now apply Qgtb_compat.
Qed.

Lemma length_filter_Permutation (A : Type) (f : A -> bool) l l' :
  Permutation l l' -> length (filter f l) = length (filter f l').
Proof.
  induction 1 as [|x l l' _ IH|x y l|l l' l'' _ IH1 _ IH2]; simpl.
  - reflexivity.
  - destruct (f x); simpl; congruence.
  - destruct (f x), (f y); reflexivity.
  - congruence.
Qed.

Lemma competition_rank_Permutation scores scores' x :
  Permutation scores scores' ->
  competition_rank scores x = competition_rank scores' x.
Proof.
  intros H. unfold competition_rank. f_equal. now apply length_filter_Permutation.
Qed.

Lemma length_filter_all (A : Type) (f : A -> bool) l :
  Forall (fun y => f y = true) l -> length (filter f l) = length l.
Proof.
  induction 1 as [|y l Hy _ IH]; simpl; [reflexivity|]. rewrite Hy. simpl. congruence.
Qed.

Lemma filter_all_true (A : Type) (f : A -> bool) l :
  (forall x, In x l -> f x = true) -> filter f l = l.
Proof.
  induction l as [|a l IH]; simpl; intros H; [reflexivity|].
  rewrite (H a (or_introl eq_refl)). f_equal. apply IH. intros x Hx. apply H. now right.
Qed.

Lemma length_filter_none (A : Type) (f : A -> bool) l :
  Forall (fun y => f y = false) l -> length (filter f l) = 0%nat.
Proof.
  induction 1 as [|y l Hy _ IH]; simpl; [reflexivity|]. now rewrite Hy.
Qed.

(** The rank of a score that all of [pre] beats and none of [suf] does. *)
Lemma competition_rank_split (pre suf : list (Z * Q)) x :
  Forall (fun y => (x < snd y)%Q) pre ->
  Forall (fun z => (snd z <= x)%Q) suf ->
  competition_rank (map snd (pre ++ suf)) x = S (length pre).
Proof.
  intros Hpre Hsuf. unfold competition_rank. f_equal.
  rewrite map_app, filter_app, length_app.
  rewrite length_filter_all, length_filter_none, length_map; [lia| |].
  - apply Forall_map. eapply Forall_impl; [|exact Hsuf]. intros z Hz. now apply Qgtb_false.
  - apply Forall_map. eapply Forall_impl; [|exact Hpre]. intros z Hz. now apply Qgtb_true.
Qed.

(** *** The stable descending sort *)

Lemma insert_desc_Permutation x l : Permutation (x :: l) (insert_desc x l).
Proof.
  induction l as [|y l IH]; simpl; [reflexivity|].
  destruct (Qle_bool (snd y) (snd x)); [reflexivity|].
  rewrite perm_swap. now apply perm_skip.
Qed.

Lemma sort_desc_Permutation l : Permutation l (sort_desc l).
Proof.
  induction l as [|x l IH]; simpl; [reflexivity|].
  rewrite <- insert_desc_Permutation. now apply perm_skip.
Qed.

Lemma insert_desc_descending x l : descending l -> descending (insert_desc x l).
Proof.
  unfold descending. induction 1 as [|y l Hl IH Hy]; simpl.
  - constructor; constructor.
  - destruct (Qle_bool (snd y) (snd x)) eqn:E.
    + apply Qle_bool_iff in E. constructor; [now constructor|].
      constructor; [exact E|].
      eapply Forall_impl; [|exact Hy]. simpl. intros z Hz. now apply Qle_trans with (snd y).
    + constructor; [exact IH|].
      assert (Hx : (snd x <= snd y)%Q).
      { apply Qlt_le_weak, Qnot_le_lt. intros H. apply Qle_bool_iff in H. congruence. }
      apply (Permutation_Forall (insert_desc_Permutation x l)). now constructor.
Qed.

Lemma sort_desc_descending l : descending (sort_desc l).
Proof.
  induction l as [|x l IH]; simpl; [constructor|]. now apply insert_desc_descending.
Qed.

Lemma descending_split pre x suf :
  descending (pre ++ x :: suf) ->
  Forall (fun y => (snd x <= snd y)%Q) pre /\ Forall (fun z => (snd z <= snd x)%Q) suf.
Proof.
  unfold descending. induction pre as [|y pre IH]; simpl; intros H.
  - inversion H; subst. split; [constructor|assumption].
  - inversion H as [|? ? Hs Hy]; subst. destruct (IH Hs) as [Hp Hq].
    split; [|exact Hq]. constructor; [|exact Hp].
    rewrite Forall_forall in Hy. apply Hy. apply in_or_app. right. now left.
Qed.

(** *** The walk over a sorted cohort *)

Lemma rank_step_walk l w :
  w_data (fold_left rank_step l w) =
  fold_left (fun d sr => Dict.update d (fst sr) (set_grade_rank (snd sr)))
            (walk_ranks (w_index w) (current_rank w) (prev_score w) l) (w_data w).
Proof.
  revert w. induction l as [|[s a] l IH]; intros w; simpl; [reflexivity|].
  rewrite IH. reflexivity.
Qed.

Lemma walk_ranks_sorted suf : forall pre cur prev,
  descending (pre ++ suf) ->
  (pre = [] -> cur = 1%nat) ->
  (pre <> [] ->
   (exists y, In y pre /\ (snd y == prev)%Q) /\
   Forall (fun y => (prev <= snd y)%Q) pre /\
   cur = competition_rank (map snd (pre ++ suf)) prev) ->
  walk_ranks (length pre) cur prev suf =
  map (fun x => (fst x, competition_rank (map snd (pre ++ suf)) (snd x))) suf.
Proof.
  induction suf as [|[s a] suf IH]; intros pre cur prev Hdesc Hnil Hcons; simpl;
    [reflexivity|].
  destruct (descending_split pre (s, a) suf Hdesc) as [Hpre Hsuf]. simpl in Hpre, Hsuf.
  set (L := pre ++ (s, a) :: suf) in *.
  set (r := if negb (Qeq_bool a prev) then (length pre + 1)%nat else cur).
  assert (Hr : r = competition_rank (map snd L) a).
  { unfold r. destruct pre as [|p0 pre'].
    - rewrite (Hnil eq_refl).
      assert (Hone : competition_rank (map snd L) a = 1%nat).
      { unfold L. apply (competition_rank_split [] ((s, a) :: suf)).
        - constructor.
        - constructor; [apply Qle_refl|exact Hsuf]. }
      rewrite Hone. now destruct (negb (Qeq_bool a prev)).
    - destruct Hcons as [[y [Hy Hyp]] [Hall Hcur]]; [discriminate|].
      destruct (Qeq_bool a prev) eqn:E; simpl.
      + apply Qeq_bool_iff in E. rewrite Hcur. symmetry.
        now apply competition_rank_compat.
      + assert (Hlt : (a < prev)%Q).
        { assert (Hay : (a <= snd y)%Q) by (rewrite Forall_forall in Hpre; now apply Hpre).
          rewrite Hyp in Hay. apply Qle_lt_or_eq in Hay. destruct Hay as [H|H]; [exact H|].
          apply Qeq_bool_iff in H. congruence. }
        unfold L. rewrite (competition_rank_split (p0 :: pre') ((s, a) :: suf)).
        * simpl. lia.
        * eapply Forall_impl; [|exact Hall]. simpl. intros z Hz.
          now apply Qlt_le_trans with prev.
        * constructor; [apply Qle_refl|exact Hsuf]. }
  fold r. rewrite Hr. f_equal.
  replace (S (length pre)) with (length (pre ++ [(s, a)])) by (rewrite length_app; simpl; lia).
  assert (HL : L = (pre ++ [(s, a)]) ++ suf) by (unfold L; now rewrite <- app_assoc).
  rewrite HL. apply IH.
  - now rewrite <- HL.
  - intros H. now apply app_eq_nil in H.
  - intros _. split; [|split].
    + exists (s, a). split; [apply in_or_app; right; now left|reflexivity].
    + apply Forall_app. split; [exact Hpre|]. constructor; [apply Qle_refl|constructor].
    + now rewrite <- HL.
Qed.

Lemma walk_ranks_sort_desc cohort :
  walk_ranks 0 1 (-1 # 1) (sort_desc cohort) =
  map (fun x => (fst x, competition_rank (map snd cohort) (snd x))) (sort_desc cohort).
Proof.
  pose proof (walk_ranks_sorted (sort_desc cohort) [] 1 (-1 # 1)) as Hw.
  simpl in Hw. rewrite Hw.
  - apply map_ext. intros x. f_equal. apply competition_rank_Permutation.
    apply Permutation_map. symmetry. apply sort_desc_Permutation.
  - apply sort_desc_descending.
  - reflexivity.
  - intros Hne. now contradiction Hne.
Qed.

(** *** Writing the ranks into the dictionary *)


Lemma fold_update_map assigns : forall d : Dict.t Entry,
  fold_left (fun d sr => Dict.update d (fst sr) (set_grade_rank (snd sr))) assigns d =
  map (fun kv => (fst kv, apply_ranks assigns (fst kv) (snd kv))) d.
Proof.
  induction assigns as [|[s r] assigns IH]; intros d; simpl.
  - rewrite <- map_id at 1. apply map_ext. now intros [k e].
  - rewrite IH. unfold Dict.update. rewrite map_map. apply map_ext.
    intros [k e]. simpl. now destruct (k =? s)%Z.
Qed.

Lemma apply_ranks_notin assigns k e :
  ~ In k (map fst assigns) -> apply_ranks assigns k e = e.
Proof.
  revert e. induction assigns as [|[s r] assigns IH]; intros e H; simpl; [reflexivity|].
  simpl in H. destruct (Z.eqb_spec k s) as [->|Hne]; [tauto|]. apply IH. tauto.
Qed.

Lemma apply_ranks_unique assigns k r e :
  NoDup (map fst assigns) -> In (k, r) assigns ->
  apply_ranks assigns k e = set_grade_rank r e.
Proof.
  revert e. induction assigns as [|[s r0] assigns IH]; intros e Hnd Hin; simpl; [easy|].
  inversion Hnd as [|? ? Hs Hnd']; subst. destruct Hin as [Heq|Hin].
  - injection Heq as -> ->. rewrite Z.eqb_refl. now apply apply_ranks_notin.
  - destruct (Z.eqb_spec k s) as [->|Hne].
    + exfalso. apply Hs. now apply (in_map fst) in Hin.
    + now apply IH.
Qed.

Lemma NoDup_keys_filter (V : Type) (f : Z * V -> bool) (d : Dict.t V) :
  NoDup (DictSpec.keys d) -> NoDup (DictSpec.keys (filter f d)).
Proof.
  unfold DictSpec.keys. induction d as [|kv d IH]; simpl; intros H; [constructor|].
  inversion H as [|? ? Hk Hd]; subst. destruct (f kv); simpl; [|now apply IH].
  constructor; [|now apply IH].
  intros Hin. apply Hk. apply in_map_iff in Hin. destruct Hin as [kv' [He Hin]].
  apply filter_In in Hin. rewrite <- He. apply in_map. tauto.
Qed.

(** One grade: exactly the entries of that grade receive their
    competition rank within the grade. *)
Lemma rank_grade_spec (d : Dict.t Entry) g :
  NoDup (DictSpec.keys d) ->
  rank_grade d g =
  map (fun kv =>
         if (e_grade_id (snd kv) =? g)%Z
         then (fst kv,
               set_grade_rank
                 (competition_rank (cohort_scores d g) (e_average_score (snd kv)))
                 (snd kv))
         else kv) d.
Proof.
  intros Hnd. unfold rank_grade. rewrite rank_step_walk. simpl.
  rewrite walk_ranks_sort_desc, fold_update_map.
  set (C := students_in_grade d g).
  set (assigns := map (fun x => (fst x, competition_rank (map snd C) (snd x))) (sort_desc C)).
  assert (Hkeys : Permutation (map fst assigns) (DictSpec.keys (filter (fun kv => (e_grade_id (snd kv) =? g)%Z) d))).
  { unfold assigns. rewrite map_map. simpl.
    rewrite <- (Permutation_map fst (sort_desc_Permutation C)).
    unfold C, students_in_grade, DictSpec.keys. rewrite map_map. reflexivity. }
  assert (Hnda : NoDup (map fst assigns)).
  { eapply Permutation_NoDup; [symmetry; exact Hkeys|]. now apply NoDup_keys_filter. }
  apply map_ext_in. intros [k e] Hin. simpl.
  destruct (Z.eqb_spec (e_grade_id e) g) as [Hg|Hg].
  - f_equal. apply apply_ranks_unique; [exact Hnda|].
    unfold assigns.
    apply (in_map (fun x => (fst x, competition_rank (map snd C) (snd x)))
                  (sort_desc C) (k, e_average_score e)).
    apply (Permutation_in _ (sort_desc_Permutation C)).
    unfold C, students_in_grade.
    apply (in_map (fun kv => (fst kv, e_average_score (snd kv))) _ (k, e)).
    apply filter_In. split; [exact Hin|]. simpl. now apply Z.eqb_eq.
  - f_equal. apply apply_ranks_notin. intros Hk.
    apply (Permutation_in _ Hkeys) in Hk. unfold DictSpec.keys in Hk.
    apply in_map_iff in Hk. destruct Hk as [[k' e'] [Hk' Hin']]. simpl in Hk'. subst k'.
    apply filter_In in Hin'. destruct Hin' as [Hin' Hg']. simpl in Hg'.
    apply Z.eqb_eq in Hg'.
    assert (e' = e).
    { pose proof (DictFacts.In_get _ d k e' Hnd Hin') as H1.
      pose proof (DictFacts.In_get _ d k e Hnd Hin) as H2. congruence. }
    subst e'. contradiction.
Qed.


Lemma students_in_grade_scores d g :
  students_in_grade d g =
  map (fun t => (fst (fst t), snd (fst t)))
      (filter (fun t => (snd t =? g)%Z) (scores_of d)).
Proof.
  unfold students_in_grade, scores_of. induction d as [|[k e] d IH]; simpl; [reflexivity|].
  destruct (e_grade_id e =? g)%Z; simpl; now rewrite IH.
Qed.

Lemma cohort_scores_same d d0 g :
  scores_of d = scores_of d0 -> cohort_scores d g = cohort_scores d0 g.
Proof.
  intros H. unfold cohort_scores. now rewrite !students_in_grade_scores, H.
Qed.

Lemma rank_grades_spec d0 gs : forall d,
  NoDup (DictSpec.keys d) -> scores_of d = scores_of d0 ->
  rank_grades gs d =
  map (fun kv =>
         if existsb (Z.eqb (e_grade_id (snd kv))) gs
         then (fst kv,
               set_grade_rank
                 (competition_rank (cohort_scores d0 (e_grade_id (snd kv)))
                                   (e_average_score (snd kv)))
                 (snd kv))
         else kv) d.
Proof.
  induction gs as [|g gs IH]; intros d Hnd Hsc; simpl.
  - rewrite <- map_id at 1. reflexivity.
  - unfold rank_grades in *. simpl. rewrite IH.
    + rewrite (rank_grade_spec d g Hnd), map_map. apply map_ext. intros [k e]. simpl.
      rewrite (cohort_scores_same d d0 g Hsc).
      destruct (Z.eqb_spec (e_grade_id e) g) as [Hg|Hg]; simpl; [|reflexivity].
      rewrite <- Hg. now destruct (existsb (Z.eqb (e_grade_id e)) gs).
    + rewrite (rank_grade_spec d g Hnd). unfold DictSpec.keys in *. rewrite map_map.
      erewrite map_ext; [exact Hnd|]. intros [k e]. simpl.
      now destruct (e_grade_id e =? g)%Z.
    + rewrite <- Hsc. rewrite (rank_grade_spec d g Hnd). unfold scores_of.
      rewrite map_map. apply map_ext. intros [k e]. simpl.
      now destruct (e_grade_id e =? g)%Z.
Qed.

Lemma insert_unique_In x y l : In y (insert_unique x l) <-> y = x \/ In y l.
Proof.
  induction l as [|z l IH]; simpl.
  - intuition.
  - destruct (Z.ltb_spec x z); simpl; [intuition|].
    destruct (Z.eqb_spec x z) as [->|Hne]; simpl; [intuition|].
    rewrite IH. intuition.
Qed.

Lemma sorted_set_In y xs : In y (sorted_set xs) <-> In y xs.
Proof.
  induction xs as [|x xs IH]; simpl; [tauto|].
  rewrite insert_unique_In, IH. intuition.
Qed.

(** When the grade of every entry is among the grades walked, the loop
    over grades leaves every entry with its competition rank. *)
Lemma rank_grades_ranked (d : Dict.t Entry) gs :
  NoDup (DictSpec.keys d) ->
  (forall kv, In kv d -> In (e_grade_id (snd kv)) gs) ->
  rank_grades gs d = ranked d.
Proof.
  intros Hnd Hall. rewrite (rank_grades_spec d gs d Hnd eq_refl).
  unfold ranked. apply map_ext_in. intros kv Hin.
  destruct (existsb (Z.eqb (e_grade_id (snd kv))) gs) eqn:E; [reflexivity|].
  exfalso. apply Hall in Hin.
  assert (existsb (Z.eqb (e_grade_id (snd kv))) gs = true); [|congruence].
  apply existsb_exists. exists (e_grade_id (snd kv)). split; [exact Hin|apply Z.eqb_refl].
Qed.

Lemma keys_ranked d : DictSpec.keys (ranked d) = DictSpec.keys d.
Proof. unfold ranked, DictSpec.keys. rewrite map_map. reflexivity. Qed.

Lemma get_ranked d k :
  Dict.get (ranked d) k =
  option_map (fun e => set_grade_rank
                         (competition_rank (cohort_scores d (e_grade_id e))
                                           (e_average_score e)) e)
             (Dict.get d k).
Proof.
  unfold ranked.
  apply (DictFacts.get_map_values _ _
           (fun e => set_grade_rank
                       (competition_rank (cohort_scores d (e_grade_id e))
                                         (e_average_score e)) e)).
Qed.

Lemma ranked_all_ranked d : Forall (fun kv => e_grade_rank (snd kv) <> None) (ranked d).
Proof.
  unfold ranked. apply Forall_map. apply Forall_forall. intros kv _. simpl. discriminate.
Qed.


(** *** Competition ranking of the ranked dictionary *)

Lemma scores_of_ranked d : scores_of (ranked d) = scores_of d.
Proof. unfold scores_of, ranked. rewrite map_map. reflexivity. Qed.

Lemma students_in_grade_ranked d g : students_in_grade (ranked d) g = students_in_grade d g.
Proof. now rewrite !students_in_grade_scores, scores_of_ranked. Qed.

Lemma rank_of_ranked d s e :
  Dict.get d s = Some e ->
  rank_of (ranked d) s =
  Some (competition_rank (cohort_scores d (e_grade_id e)) (e_average_score e)).
Proof. intros H. unfold rank_of. now rewrite get_ranked, H. Qed.

Lemma rank_of_sorted d g s a :
  NoDup (DictSpec.keys d) ->
  In (s, a) (sort_desc (students_in_grade d g)) ->
  rank_of (ranked d) s =
  Some (competition_rank (map snd (sort_desc (students_in_grade d g))) a).
Proof.
  intros Hnd Hin.
  apply (Permutation_in _ (Permutation_sym (sort_desc_Permutation _))) in Hin.
  unfold students_in_grade in Hin. apply in_map_iff in Hin.
  destruct Hin as [[k e] [Heq Hin]]. simpl in Heq. injection Heq as -> <-.
  apply filter_In in Hin. destruct Hin as [Hin Hg]. simpl in Hg. apply Z.eqb_eq in Hg.
  rewrite (rank_of_ranked d s e (DictFacts.In_get _ d s e Hnd Hin)). f_equal.
  rewrite Hg. apply competition_rank_Permutation. unfold cohort_scores.
  apply Permutation_map. apply sort_desc_Permutation.
Qed.

Lemma competition_rank_le (pre suf : list (Z * Q)) x :
  Forall (fun z => (snd z <= x)%Q) suf ->
  (competition_rank (map snd (pre ++ suf)) x <= S (length pre))%nat.
Proof.
  intros Hsuf. unfold competition_rank. apply le_n_S.
  rewrite map_app, filter_app, length_app.
  rewrite (length_filter_none _ _ (map snd suf)).
  - rewrite Nat.add_0_r. etransitivity; [apply filter_length_le|]. now rewrite length_map.
  - apply Forall_map. eapply Forall_impl; [|exact Hsuf]. intros z Hz. now apply Qgtb_false.
Qed.

Lemma rank_head L s a :
  descending L -> nth_error L 0 = Some (s, a) -> competition_rank (map snd L) a = 1%nat.
Proof.
  intros Hd Hn. destruct L as [|x L]; [discriminate|]. injection Hn as ->.
  destruct (descending_split [] (s, a) L Hd) as [_ Hsuf].
  apply (competition_rank_split [] ((s, a) :: L)); [constructor|].
  constructor; [apply Qle_refl|exact Hsuf].
Qed.

Lemma rank_next L i s' a' s a :
  descending L ->
  nth_error L i = Some (s', a') -> nth_error L (S i) = Some (s, a) ->
  (competition_rank (map snd L) a = competition_rank (map snd L) a' <-> (a == a')%Q) /\
  (~ (a == a')%Q -> competition_rank (map snd L) a = S (S i)).
Proof.
  intros Hd Hi HSi.
  destruct (nth_error_split L i Hi) as [pre [suf [HL Hlen]]].
  assert (Hsuf : exists suf', suf = (s, a) :: suf').
  { rewrite HL in HSi. rewrite nth_error_app2 in HSi by lia.
    replace (S i - length pre)%nat with 1%nat in HSi by lia. simpl in HSi.
    destruct suf as [|y suf']; [discriminate|]. injection HSi as ->. eauto. }
  destruct Hsuf as [suf' ->]. subst L.
  destruct (descending_split pre (s', a') ((s, a) :: suf') Hd) as [Hpre Hrest].
  simpl in Hpre, Hrest. inversion Hrest as [|? ? Hle Hsuf']; subst. simpl in Hle.
  assert (Hd' : descending ((pre ++ [(s', a')]) ++ (s, a) :: suf'))
    by now rewrite <- app_assoc.
  destruct (descending_split _ (s, a) suf' Hd') as [_ Hafter]. simpl in Hafter.
  assert (Hstrict : ~ (a == a')%Q ->
            competition_rank (map snd (pre ++ (s', a') :: (s, a) :: suf')) a
            = S (S (length pre))).
  { intros Hne.
    assert (Hlt : (a < a')%Q).
    { apply Qle_lt_or_eq in Hle. destruct Hle as [H|H]; [exact H|contradiction]. }
    replace (pre ++ (s', a') :: (s, a) :: suf')
      with ((pre ++ [(s', a')]) ++ (s, a) :: suf') by now rewrite <- app_assoc.
    rewrite competition_rank_split.
    - rewrite length_app. simpl. lia.
    - apply Forall_app. split.
      + eapply Forall_impl; [|exact Hpre]. simpl. intros z Hz.
        now apply Qlt_le_trans with a'.
      + constructor; [exact Hlt|constructor].
    - constructor; [apply Qle_refl|exact Hafter]. }
  split; [|exact Hstrict].
  split.
  - intros Heq. destruct (Qeq_dec a a') as [H|H]; [exact H|exfalso].
    rewrite (Hstrict H) in Heq.
    pose proof (competition_rank_le pre ((s', a') :: (s, a) :: suf') a') as Hb.
    simpl in Hb. rewrite <- Heq in Hb.
    assert (S (S (length pre)) <= S (length pre))%nat; [|lia].
    apply Hb. constructor; [apply Qle_refl|]. constructor; [exact Hle|].
    eapply Forall_impl; [|exact Hafter]. simpl. intros z Hz.
    now apply Qle_trans with a.
  - intros Heq. now apply competition_rank_compat.
Qed.

Lemma ranked_competition d : NoDup (DictSpec.keys d) -> competition_ranked (ranked d).
Proof.
  intros Hnd g. rewrite students_in_grade_ranked.
  set (L := sort_desc (students_in_grade d g)).
  assert (HdL : descending L) by apply sort_desc_descending.
  split; [exact HdL|]. split; [apply sort_desc_Permutation|]. split.
  - intros s a Hn. rewrite (rank_of_sorted d g s a Hnd (nth_error_In _ _ Hn)).
    f_equal. now apply (rank_head L s a).
  - intros i s' a' s a Hi HSi.
    exists (competition_rank (map snd L) a'), (competition_rank (map snd L) a).
    split; [apply (rank_of_sorted d g s' a' Hnd (nth_error_In _ _ Hi))|].
    split; [apply (rank_of_sorted d g s a Hnd (nth_error_In _ _ HSi))|].
    now apply (rank_next L i s' a' s a).
Qed.

(** *** Monotonicity *)

Lemma competition_rank_mono scores a b :
  (b <= a)%Q -> (competition_rank scores a <= competition_rank scores b)%nat.
Proof.
  intros Hle. unfold competition_rank. apply le_n_S.
  induction scores as [|y l IH]; simpl; [lia|].
  destruct (Qgtb y a) eqn:Ea.
  - apply Qgtb_true in Ea.
    assert (Eb : Qgtb y b = true) by (apply Qgtb_true; now apply Qle_lt_trans with a).
    rewrite Eb. simpl. lia.
  - destruct (Qgtb y b); simpl; lia.
Qed.

Lemma ranked_monotone d : rank_monotone (ranked d).
Proof.
  intros A B eA eB HA HB Hg.
  rewrite get_ranked in HA, HB.
  destruct (Dict.get d A) as [a|]; [|discriminate].
  destruct (Dict.get d B) as [b|]; [|discriminate].
  simpl in HA, HB. injection HA as <-. injection HB as <-. simpl in *.
  eexists. eexists. split; [reflexivity|]. split; [reflexivity|]. rewrite Hg. split.
  - intros Hlt. apply competition_rank_mono. now apply Qlt_le_weak.
  - intros Heq. now apply competition_rank_compat.
Qed.

End RankFacts.

(** ** Patterns *)

Module TextFacts.
Import Text TextSpec.

Lemma like2_like p q name : like2 p q name = true -> like p name = true.
Proof.
  unfold like2, like, occurs_then, occurs.
  now destruct (after_first eq_nocase p name).
Qed.

Section Matching.
Variable eqc : ascii -> ascii -> bool.

Lemma after_first_unfold p s :
  after_first eqc p s =
  if starts_with eqc p s then Some (skip (String.length p) s)
  else match s with
       | EmptyString => None
       | String _ s' => after_first eqc p s'
       end.
Proof. now destruct s. Qed.

Lemma same_length p : forall m, same eqc p m -> String.length p = String.length m.
Proof.
  induction p as [|a p IH]; intros [|b m]; simpl; try tauto.
  intros [_ H]. f_equal. now apply IH.
Qed.

Lemma starts_with_iff p : forall s,
  starts_with eqc p s = true <->
  exists mid post, s = (mid ++ post)%string /\ same eqc p mid.
Proof.
  induction p as [|a p IH]; intros s; simpl.
  - split; [|reflexivity]. intros _. exists EmptyString, s. simpl. auto.
  - destruct s as [|b s].
    + split; [discriminate|]. intros [[|c mid] [post [Heq H]]]; simpl in *;
        [contradiction|discriminate].
    + rewrite andb_true_iff, IH. split.
      * intros [Hab [mid [post [-> H]]]]. exists (String b mid), post. simpl. auto.
      * intros [[|c mid] [post [Heq H]]]; simpl in *; [contradiction|].
        injection Heq as -> ->. destruct H as [Hab H]. split; [exact Hab|].
        exists mid, post. auto.
Qed.

Lemma skip_app m : forall t, skip (String.length m) (m ++ t)%string = t.
Proof. induction m as [|a m IH]; intros t; simpl; [now destruct t|apply IH]. Qed.

Lemma skip_app_le n : forall x t,
  (n <= String.length x)%nat -> skip n (x ++ t)%string = (skip n x ++ t)%string.
Proof.
  induction n as [|n IH]; intros x t H; simpl; [reflexivity|].
  destruct x as [|a x]; simpl in *; [lia|]. apply IH. lia.
Qed.

Lemma append_assoc (a b c : string) : ((a ++ b) ++ c)%string = (a ++ b ++ c)%string.
Proof. induction a as [|x a IH]; simpl; [reflexivity|now rewrite IH]. Qed.

Lemma length_append (a b : string) :
  String.length (a ++ b)%string = (String.length a + String.length b)%nat.
Proof. induction a as [|x a IH]; simpl; [reflexivity|now rewrite IH]. Qed.

Lemma starts_with_skip p s :
  starts_with eqc p s = true ->
  exists mid, s = (mid ++ skip (String.length p) s)%string /\ same eqc p mid.
Proof.
  intros E. apply starts_with_iff in E. destruct E as [mid [post [-> H]]].
  exists mid. split; [|exact H]. now rewrite (same_length p mid H), skip_app.
Qed.

(** What [after_first] returns follows an occurrence of the pattern. *)
Lemma after_first_Some p s : forall rest,
  after_first eqc p s = Some rest ->
  exists pre mid, s = (pre ++ mid ++ rest)%string /\ same eqc p mid.
Proof.
  induction s as [|b s IH]; intros rest; rewrite after_first_unfold.
  - destruct (starts_with eqc p "") eqn:E; [|discriminate].
    intros [= <-]. destruct (starts_with_skip p _ E) as [mid [Heq H]].
    exists EmptyString, mid. split; [exact Heq|exact H].
  - destruct (starts_with eqc p (String b s)) eqn:E.
    + intros [= <-]. destruct (starts_with_skip p _ E) as [mid [Heq H]].
      exists EmptyString, mid. split; [exact Heq|exact H].
    + intros Hr. apply IH in Hr. destruct Hr as [pre [mid [-> H]]].
      exists (String b pre), mid. simpl. auto.
Qed.

(** [after_first] stops at the leftmost occurrence: whatever follows any
    occurrence is a suffix of what it returns. *)
Lemma after_first_leftmost p m1 t :
  same eqc p m1 ->
  forall a, exists d, after_first eqc p (a ++ m1 ++ t)%string = Some (d ++ t)%string.
Proof.
  intros H a. induction a as [|c a [d IH]]; rewrite after_first_unfold.
  - simpl. assert (E : starts_with eqc p (m1 ++ t)%string = true)
      by (apply starts_with_iff; exists m1, t; auto).
    rewrite E. exists EmptyString. simpl.
    now rewrite (same_length p m1 H), skip_app.
  - destruct (starts_with eqc p (String c a ++ m1 ++ t)%string) eqn:E.
    + exists (skip (String.length p) (String c a ++ m1)%string). f_equal.
      rewrite <- append_assoc. apply skip_app_le.
      rewrite length_append, (same_length p m1 H). lia.
    + simpl. exists d. exact IH.
Qed.

Lemma occurs_iff p s : occurs eqc p s = true <-> contains eqc p s.
Proof.
  unfold occurs, contains. split.
  - destruct (after_first eqc p s) as [rest|] eqn:E; [|discriminate]. intros _.
    apply after_first_Some in E. destruct E as [pre [mid [Heq H]]].
    exists pre, mid, rest. auto.
  - intros [pre [mid [post [-> H]]]].
    destruct (after_first_leftmost p mid post H pre) as [d Hd]. now rewrite Hd.
Qed.

Lemma occurs_then_iff p q s :
  occurs_then eqc p q s = true <-> contains_then eqc p q s.
Proof.
  unfold occurs_then, contains_then. split.
  - destruct (after_first eqc p s) as [rest|] eqn:E; [|discriminate]. intros Hq.
    apply after_first_Some in E. destruct E as [a [m1 [Heq H1]]].
    apply occurs_iff in Hq. destruct Hq as [b [m2 [c [Hrest H2]]]].
    exists a, m1, b, m2, c. subst. auto.
  - intros [a [m1 [b [m2 [c [-> [H1 H2]]]]]]].
    destruct (after_first_leftmost p m1 (b ++ m2 ++ c)%string H1 a) as [d Hd].
    rewrite Hd. apply occurs_iff. exists (d ++ b)%string, m2, c.
    split; [now rewrite append_assoc|exact H2].
Qed.
End Matching.

(** [name LIKE '%p%']: the name contains [p], ASCII letters in either case. *)
Lemma like_spec p name : like p name = true <-> contains eq_nocase p name.
Proof. apply occurs_iff. Qed.

(** [name LIKE '%p%q%']: the name contains [p] and, after it, [q]. *)
Lemma like2_spec p q name : like2 p q name = true <-> contains_then eq_nocase p q name.
Proof. apply occurs_then_iff. Qed.

(** Python's [p in name]: the name contains [p], character for character. *)
Lemma py_in_spec p name : py_in p name = true <-> contains Ascii.eqb p name.
Proof. apply occurs_iff. Qed.

End TextFacts.

(** ** The semester run *)

Module SemesterFacts.
Import SemesterResultService SemesterSpec StoreSpec RankSpec QFacts Constraints.


(** The grade id of a student only ends up in the [grade_id] field. *)
Lemma student_result_grade db ay sem s g g' :
  student_result db ay sem (s, g) =
  option_map (with_grade g) (student_result db ay sem (s, g')).
Proof.
  unfold student_result. simpl.
  destruct (student_exam_results db s ay sem); [reflexivity|].
  destruct (student_subjects_in_semester db s ay sem); [reflexivity|].
  destruct (num_subjects_counted (semester_totals db s ay sem)); reflexivity.
Qed.

Lemma student_result_grade_id db ay sem s g e :
  student_result db ay sem (s, g) = Some e -> e_grade_id e = g /\ e_grade_rank e = None.
Proof.
  rewrite (student_result_grade db ay sem s g g).
  destruct (student_result db ay sem (s, g)); simpl; [|discriminate].
  intros [= <-]. auto.
Qed.

Lemma skipped_true db ay sem s g :
  skipped db ay sem s = true <-> student_result db ay sem (s, g) = None.
Proof.
  unfold skipped. rewrite (student_result_grade db ay sem s g 0).
  destruct (student_result db ay sem (s, 0%Z)); simpl; split; congruence.
Qed.

Lemma skipped_false db ay sem s g :
  skipped db ay sem s = false <-> exists e, student_result db ay sem (s, g) = Some e.
Proof.
  unfold skipped. rewrite (student_result_grade db ay sem s g 0).
  destruct (student_result db ay sem (s, 0%Z)); simpl; split.
  - intros _. eauto.
  - reflexivity.
  - discriminate.
  - intros [e H]. discriminate.
Qed.

(** *** The dictionary the first loop builds *)


Lemma data_fold_NoDup db ay sem students : forall d,
  NoDup (DictSpec.keys d) ->
  NoDup (DictSpec.keys (fold_left (data_step db ay sem) students d)).
Proof.
  induction students as [|si students IH]; intros d Hnd; simpl; [exact Hnd|].
  apply IH. unfold data_step. destruct (student_result db ay sem si); [|exact Hnd].
  now apply DictFacts.keys_set_NoDup.
Qed.

Lemma data_fold_get db ay sem students : forall d k e,
  Dict.get (fold_left (data_step db ay sem) students d) k = Some e ->
  Dict.get d k = Some e \/
  exists g, In (k, g) students /\ student_result db ay sem (k, g) = Some e.
Proof.
  induction students as [|[s g] students IH]; intros d k e H; simpl in *; [now left|].
  apply IH in H. destruct H as [H|[g' [Hin Hr]]]; [|right; exists g'; auto].
  unfold data_step in H. simpl in H.
  destruct (student_result db ay sem (s, g)) as [e0|] eqn:E; [|now left].
  destruct (Z.eq_dec k s) as [->|Hne].
  - rewrite DictFacts.get_set_same in H. injection H as ->. right. exists g. auto.
  - rewrite DictFacts.get_set_other in H by exact Hne. now left.
Qed.

Lemma data_fold_keys db ay sem students : forall d k,
  In k (DictSpec.keys (fold_left (data_step db ay sem) students d)) <->
  In k (DictSpec.keys d) \/
  exists g, In (k, g) students /\ skipped db ay sem k = false.
Proof.
  induction students as [|[s g] students IH]; intros d k; simpl.
  - split; [now left|]. intros [H|[g [[] _]]]. exact H.
  - rewrite IH. unfold data_step. simpl.
    destruct (student_result db ay sem (s, g)) as [e0|] eqn:E.
    + rewrite DictFacts.keys_set_In. split.
      * intros [[->|H]|[g' [Hin Hs]]].
        -- right. exists g. split; [now left|]. apply (skipped_false db ay sem s g). eauto.
        -- now left.
        -- right. exists g'. auto.
      * intros [H|[g' [[Heq|Hin] Hs]]].
        -- left. now right.
        -- injection Heq as -> ->. left. now left.
        -- right. exists g'. auto.
    + split.
      * intros [H|[g' [Hin Hs]]]; [now left|]. right. exists g'. auto.
      * intros [H|[g' [[Heq|Hin] Hs]]]; [now left| |right; exists g'; auto].
        injection Heq as -> ->. apply (skipped_true db ay sem k g') in E. congruence.
Qed.

Lemma data_NoDup db ay sem students :
  NoDup (DictSpec.keys (student_semester_data db ay sem students)).
Proof. apply (data_fold_NoDup db ay sem students []). constructor. Qed.

Lemma data_get db ay sem students k e :
  Dict.get (student_semester_data db ay sem students) k = Some e ->
  exists g, In (k, g) students /\ student_result db ay sem (k, g) = Some e.
Proof.
  intros H. apply (data_fold_get db ay sem students [] k e) in H.
  destruct H as [H|H]; [discriminate|exact H].
Qed.

Lemma data_keys db ay sem students k :
  In k (DictSpec.keys (student_semester_data db ay sem students)) <->
  exists g, In (k, g) students /\ skipped db ay sem k = false.
Proof.
  unfold student_semester_data.
  rewrite (data_fold_keys db ay sem students [] k). simpl. tauto.
Qed.


Lemma keys_set_new (V : Type) (d : Dict.t V) k v :
  ~ In k (DictSpec.keys d) -> DictSpec.keys (Dict.set d k v) = DictSpec.keys d ++ [k].
Proof.
  unfold DictSpec.keys. induction d as [|[k0 v0] d IH]; simpl; intros H; [reflexivity|].
  destruct (Z.eqb_spec k0 k) as [->|Hne]; [tauto|]. simpl. f_equal. apply IH. tauto.
Qed.

(** With one answer per student, the dictionary lists the students that
    were not skipped, in the order of the query. *)
Lemma data_fold_keys_order db ay sem students : forall d,
  NoDup (map fst students) ->
  (forall k, In k (DictSpec.keys d) -> ~ In k (map fst students)) ->
  DictSpec.keys (fold_left (data_step db ay sem) students d) =
  DictSpec.keys d ++
  map fst (filter (fun s => negb (skipped db ay sem (fst s))) students).
Proof.
  induction students as [|[s g] students IH]; intros d Hnd Hd; simpl.
  - now rewrite app_nil_r.
  - inversion Hnd as [|? ? Hs Hnd']; subst. unfold data_step at 2. simpl.
    destruct (student_result db ay sem (s, g)) as [e|] eqn:E.
    + assert (Hsk : skipped db ay sem s = false)
        by (apply (skipped_false db ay sem s g); eauto).
      rewrite Hsk. simpl. rewrite IH; [|exact Hnd'|].
      * rewrite keys_set_new; [now rewrite <- app_assoc|].
        intros H. apply (Hd s H). now left.
      * intros k Hk. apply DictFacts.keys_set_In in Hk. destruct Hk as [->|Hk]; [exact Hs|].
        intros H. apply (Hd k Hk). now right.
    + assert (Hsk : skipped db ay sem s = true) by now apply (skipped_true db ay sem s g).
      rewrite Hsk. simpl. apply IH; [exact Hnd'|].
      intros k Hk H. apply (Hd k Hk). now right.
Qed.

Lemma data_keys_order db ay sem students :
  NoDup (map fst students) ->
  DictSpec.keys (student_semester_data db ay sem students) =
  map fst (filter (fun s => negb (skipped db ay sem (fst s))) students).
Proof.
  intros Hnd. apply (data_fold_keys_order db ay sem students [] Hnd).
  intros k [].
Qed.

Lemma data_get_unique db ay sem students k g e :
  NoDup (map fst students) -> In (k, g) students ->
  student_result db ay sem (k, g) = Some e ->
  Dict.get (student_semester_data db ay sem students) k = Some e.
Proof.
  intros Hnd Hin Hr.
  destruct (Dict.get (student_semester_data db ay sem students) k) as [e'|] eqn:E.
  - apply data_get in E. destruct E as [g' [Hin' Hr']].
    assert ((k, g') = (k, g)) as Heq
      by (apply (UniqueFacts.NoDup_map_inj _ _ fst students); auto).
    injection Heq as ->. congruence.
  - apply DictFacts.get_None in E. exfalso. apply E. apply data_keys.
    exists g. split; [exact Hin|]. apply (skipped_false db ay sem k g). eauto.
Qed.

(** *** One answer per enrolled student *)

Lemma flat_map_single (A B C : Type) (f : A -> C) (c : A -> bool) (x : B) (v : C) l :
  NoDup (map f l) -> (forall a, In a l -> c a = true -> f a = v) ->
  flat_map (fun a => if c a then [x] else []) l = [] \/
  flat_map (fun a => if c a then [x] else []) l = [x].
Proof.
  induction l as [|a l IH]; simpl; intros Hnd Hc; [now left|].
  inversion Hnd as [|? ? Ha Hl]; subst.
  destruct (c a) eqn:E; simpl.
  - right. f_equal.
    assert (Hnone : forall b, In b l -> c b = false).
    { intros b Hb. destruct (c b) eqn:Eb; [|reflexivity].
      exfalso. apply Ha. rewrite (Hc a (or_introl eq_refl) E).
      rewrite <- (Hc b (or_intror Hb) Eb). now apply in_map. }
    clear -Hnone. induction l as [|b l IH]; simpl; [reflexivity|].
    rewrite (Hnone b (or_introl eq_refl)). simpl. apply IH.
    intros b' Hb'. apply Hnone. now right.
  - apply IH; [exact Hl|]. intros b Hb. apply Hc. now right.
Qed.

Lemma students_in_year_NoDup db ay :
  Constraints.enrollment_ok db = true ->
  NoDup (map fst (students_in_year db ay)).
Proof.
  unfold Constraints.enrollment_ok. rewrite andb_true_iff.
  rewrite (UniqueFacts.uniqueb_NoDup _ Z.eqb Z.eqb_eq).
  rewrite (UniqueFacts.uniqueb_NoDup _ yearly_key_eqb UniqueFacts.yearly_key_eqb_eq).
  intros [Hst Hen]. unfold students_in_year.
  induction (Students db) as [|s l IH]; simpl; [constructor|].
  inversion Hst as [|? ? Hs Hl]; subst. rewrite map_app.
  assert (Hrest : forall k, In k (map fst (flat_map (fun s0 =>
            flat_map (fun e => if ((student_pk s0 =? enr_student_id e) &&
                                   (enr_academic_year_id e =? ay))%Z
                               then [(student_pk s0, current_grade_id s0)] else [])
                     (Enrollments db)) l)) -> In k (map student_pk l)).
  { intros k Hk. apply in_map_iff in Hk. destruct Hk as [[k' g] [<- Hk]].
    apply in_flat_map in Hk. destruct Hk as [s0 [Hs0 Hk]].
    apply in_flat_map in Hk. destruct Hk as [e [_ Hk]].
    destruct ((student_pk s0 =? enr_student_id e) && (enr_academic_year_id e =? ay))%Z;
      [|contradiction].
    destruct Hk as [[= <- <-]|[]]. simpl. now apply in_map. }
  destruct (flat_map_single Enrollment (Z * Z) (Z * Z)
              (fun e => (enr_student_id e, enr_academic_year_id e))
              (fun e => ((student_pk s =? enr_student_id e) &&
                         (enr_academic_year_id e =? ay))%Z)
              (student_pk s, current_grade_id s) (student_pk s, ay)
              (Enrollments db) Hen) as [H|H].
  - intros e _ He. apply andb_true_iff in He. destruct He as [H1 H2].
    apply Z.eqb_eq in H1, H2. now rewrite <- H1, H2.
  - rewrite H. simpl. now apply IH.
  - rewrite H. simpl. constructor; [|now apply IH].
    intros Hin. apply Hs. now apply Hrest.
Qed.


(** *** The queries of one student *)

(** The index holds the rows of the table, in its own order. *)
Lemma insert_by_index_Permutation x l : Permutation (x :: l) (insert_by_index x l).
Proof.
  induction l as [|y l IH]; simpl; [reflexivity|].
  destruct (index_leb x y); [reflexivity|].
  rewrite perm_swap. now apply perm_skip.
Qed.

Lemma index_scan_Permutation l : Permutation l (index_scan l).
Proof.
  induction l as [|x l IH]; simpl; [constructor|].
  rewrite <- insert_by_index_Permutation. now apply perm_skip.
Qed.

Lemma index_scan_In l x : In x (index_scan l) <-> In x l.
Proof.
  split; apply Permutation_in; [symmetry|]; apply index_scan_Permutation.
Qed.

Lemma scoped_results_In db s ay sem er e :
  In (er, e) (scoped_results db s ay sem) <->
  In er (ExamResults db) /\ In e (Exams db) /\
  er_exam_id er = exam_pk e /\ er_student_id er = s /\ in_scope ay sem e = true.
Proof.
  unfold scoped_results. rewrite in_flat_map. split.
  - intros [er' [Her H]]. apply (proj1 (index_scan_In _ _)) in Her.
    apply in_flat_map in H. destruct H as [e' [He H]].
    destruct (((er_exam_id er' =? exam_pk e') && (er_student_id er' =? s))%Z
              && in_scope ay sem e') eqn:E; [|contradiction].
    destruct H as [[= <- <-]|[]].
    apply andb_true_iff in E. destruct E as [E1 E3].
    apply andb_true_iff in E1. destruct E1 as [E1 E2].
    apply Z.eqb_eq in E1, E2. auto.
  - intros [Her [He [H1 [H2 H3]]]]. exists er. split; [now apply (proj2 (index_scan_In _ _))|].
    apply in_flat_map. exists e. split; [exact He|].
    rewrite H1, H2, !Z.eqb_refl, H3. now left.
Qed.

Lemma filter_nil_iff (A : Type) (f : A -> bool) l :
  filter f l = [] <-> forall x, In x l -> f x = false.
Proof.
  induction l as [|a l IH]; simpl.
  - split; [intros _ x []|reflexivity].
  - destruct (f a) eqn:E.
    + split; [discriminate|]. intros H. specialize (H a (or_introl eq_refl)). congruence.
    + rewrite IH. split.
      * intros H x [->|Hx]; auto.
      * intros H x Hx. apply H. now right.
Qed.

(** A subject without a semester-exam row and without CAT rows has
    nothing to add, and nothing possible. *)
Lemma subject_totals_none db s subj ay sem :
  sem_exam_result db s subj ay sem = None ->
  cat_results db s subj ay sem = [] ->
  subject_totals db s subj ay sem = ((0 + 0)%Q, (0 + 0)%Q).
Proof.
  intros H1 H2. unfold subject_totals. now rewrite H1, H2.
Qed.

Lemma count_subject_zero db s ay sem acc subject_entry :
  (snd (subject_totals db s (fst subject_entry) ay sem) <= 0)%Q ->
  count_subject db s ay sem acc subject_entry = acc.
Proof.
  intros H. unfold count_subject. apply Qgtb_le in H. now rewrite H.
Qed.


Lemma count_subjects_none db s ay sem l : forall acc,
  (forall subject_entry, In subject_entry l ->
     (snd (subject_totals db s (fst subject_entry) ay sem) <= 0)%Q) ->
  fold_left (count_subject db s ay sem) l acc = acc.
Proof.
  induction l as [|x l IH]; intros acc H; simpl; [reflexivity|].
  rewrite count_subject_zero by (apply H; now left).
  apply IH. intros y Hy. apply H. now right.
Qed.

(** *** The early return on the exams of the scope *)

(** When no exam of the scope passes [query_exams], no subject of any
    student has anything possible, and every student is skipped. *)
Lemma no_exams_no_totals db ay sem s subj :
  semester_exams db ay sem = [] ->
  subject_totals db s subj ay sem = ((0 + 0)%Q, (0 + 0)%Q).
Proof.
  intros Hnone. unfold semester_exams in Hnone.
  assert (Hno : forall er e, In (er, e) (scoped_results db s ay sem) ->
                Text.like "Semester" (exam_name e) = false /\
                Text.like "CAT" (exam_name e) = false).
  { intros er e Hin. apply scoped_results_In in Hin.
    destruct Hin as [_ [He [_ [_ Hsc]]]].
    pose proof (proj1 (filter_nil_iff _ _ _) Hnone e He) as H.
    cbv beta in H. rewrite Hsc in H. simpl in H. now apply orb_false_iff in H. }
  apply subject_totals_none.
  - unfold sem_exam_result.
    replace (filter _ (scoped_results db s ay sem)) with (@nil (ExamResult * Exam));
      [reflexivity|].
    symmetry. apply filter_nil_iff. intros [er e] Hin. simpl.
    destruct (Hno er e Hin) as [H1 _].
    destruct (Text.like2 "Semester" "Exam" (exam_name e)) eqn:E.
    + apply TextFacts.like2_like in E. congruence.
    + apply andb_false_r.
  - unfold cat_results.
    replace (filter _ (scoped_results db s ay sem)) with (@nil (ExamResult * Exam));
      [reflexivity|].
    symmetry. apply filter_nil_iff. intros [er e] Hin. simpl.
    destruct (Hno er e Hin) as [_ H2]. rewrite H2. apply andb_false_r.
Qed.

Lemma no_exams_skipped db ay sem s :
  semester_exams db ay sem = [] -> skipped db ay sem s = true.
Proof.
  intros Hnone. unfold skipped, student_result. simpl.
  destruct (student_exam_results db s ay sem); [reflexivity|].
  destruct (student_subjects_in_semester db s ay sem); [reflexivity|].
  unfold semester_totals. rewrite count_subjects_none; [reflexivity|].
  intros subj _. rewrite (no_exams_no_totals db ay sem s (fst subj) Hnone). simpl.
  discriminate.
Qed.

Lemma no_exams_no_data db ay sem students :
  semester_exams db ay sem = [] -> student_semester_data db ay sem students = [].
Proof.
  intros Hnone.
  destruct (student_semester_data db ay sem students) as [|[k e] d] eqn:E; [reflexivity|].
  assert (Hk : In k (DictSpec.keys (student_semester_data db ay sem students)))
    by (rewrite E; now left).
  apply data_keys in Hk. destruct Hk as [g [_ Hs]].
  rewrite (no_exams_skipped db ay sem k Hnone) in Hs. discriminate.
Qed.

(** *** The ranking loop *)

Lemma ranked_semester_data_spec db ay sem :
  ranked_semester_data db ay sem =
  ranked (student_semester_data db ay sem (students_in_year db ay)).
Proof.
  unfold ranked_semester_data. apply RankFacts.rank_grades_ranked.
  - apply data_NoDup.
  - intros [k e] Hin. simpl. unfold grades_in_year.
    apply RankFacts.sorted_set_In.
    apply (DictFacts.In_get _ _ k e (data_NoDup db ay sem _)) in Hin.
    destruct (data_get db ay sem _ k e Hin) as [g [Hg Hr]].
    apply student_result_grade_id in Hr. destruct Hr as [<- _].
    apply (in_map snd _ (k, e_grade_id e)). apply filter_In. split; [exact Hg|].
    simpl. unfold Dict.mem. now rewrite Hin.
Qed.

(** *** The storing loop *)

Lemma with_semester_results_same db : with_semester_results db (SemesterResults db) = db.
Proof. now destruct db. Qed.

Lemma semester_store_loop ay sem l : forall db,
  Forall (fun kv => e_grade_rank (snd kv) <> None) l ->
  fold_left (store_one ay sem) l (Some db) =
  Some (with_semester_results db
          (TableSpec.store_items semester_key_eqb (SemesterResults db)
             (semester_items ay sem l))).
Proof.
  induction l as [|[k e] l IH]; intros db Hall; simpl.
  - now rewrite with_semester_results_same.
  - inversion Hall as [|? ? Hr Hl]; subst. simpl in Hr.
    unfold store_one at 1. simpl.
    destruct (e_grade_rank e) as [r|] eqn:Er; [|congruence].
    rewrite (IH _ Hl). f_equal. unfold entry_values. rewrite Er. reflexivity.
Qed.

(** The run as a whole: it completes, and stores one item per entry of
    the ranked dictionary. *)
Lemma compute_semester_spec db ay sem :
  compute_and_store_semester_results db ay sem =
  Some (with_semester_results db (semester_run_table db ay sem)).
Proof.
  unfold compute_and_store_semester_results, semester_run_table.
  destruct (students_in_year db ay) as [|s0 l] eqn:Est.
  - unfold ranked_semester_data. rewrite Est. simpl.
    now rewrite with_semester_results_same.
  - destruct (semester_exams db ay sem) as [|x0 xs] eqn:Eex.
    + rewrite ranked_semester_data_spec, (no_exams_no_data db ay sem _ Eex). simpl.
      now rewrite with_semester_results_same.
    + apply semester_store_loop. rewrite ranked_semester_data_spec. apply RankFacts.ranked_all_ranked.
Qed.


(** *** [SELECT DISTINCT] *)

Section DistinctFacts.
Variable A : Type.
Variable eqb : A -> A -> bool.
Hypothesis eqb_eq : forall a b, eqb a b = true <-> a = b.

Lemma distinct_acc_In l : forall seen x,
  In x (distinct_acc eqb seen l) <-> In x l /\ ~ In x seen.
Proof.
  induction l as [|a l IH]; intros seen x; simpl; [tauto|].
  destruct (existsb (eqb a) seen) eqn:E.
  - apply (UniqueFacts.existsb_eqb_In _ eqb eqb_eq) in E. rewrite IH.
    split; [tauto|]. intros [[->|H] Hs]; tauto.
  - assert (Ha : ~ In a seen).
    { intros H. apply (UniqueFacts.existsb_eqb_In _ eqb eqb_eq) in H. congruence. }
    simpl. rewrite IH. simpl. split.
    + intros [->|[H1 H2]]; tauto.
    + intros [[->|H] Hs]; [now left|].
      destruct (eqb a x) eqn:Eax.
      * apply eqb_eq in Eax. now left.
      * right. split; [exact H|]. intros [->|H']; [|tauto].
        assert (eqb x x = true) by now apply eqb_eq. congruence.
Qed.

Lemma distinct_In l x : In x (distinct eqb l) <-> In x l.
Proof. unfold distinct. rewrite distinct_acc_In. simpl. tauto. Qed.

Lemma distinct_acc_NoDup l : forall seen, NoDup (distinct_acc eqb seen l).
Proof.
  induction l as [|a l IH]; intros seen; simpl; [constructor|].
  destruct (existsb (eqb a) seen); [apply IH|].
  constructor; [|apply IH]. rewrite distinct_acc_In. simpl. tauto.
Qed.

Lemma distinct_NoDup l : NoDup (distinct eqb l).
Proof. apply distinct_acc_NoDup. Qed.
End DistinctFacts.

Lemma subject_eqb_eq (a b : Z * string) :
  ((fst a =? fst b)%Z && String.eqb (snd a) (snd b)) = true <-> a = b.
Proof.
  destruct a as [a1 a2], b as [b1 b2]. simpl.
  rewrite andb_true_iff, Z.eqb_eq, String.eqb_eq. split.
  - intros [-> ->]. reflexivity.
  - intros [= -> ->]. auto.
Qed.

Lemma subjects_with_results_In db s ay sem subj name :
  In (subj, name) (subjects_with_results db s ay sem) <->
  exists er e sub,
    In (er, e) (scoped_results db s ay sem) /\ In sub (Subjects db) /\
    er_subject_id er = subject_pk sub /\ subj = subject_pk sub /\ name = subject_name sub.
Proof.
  unfold subjects_with_results.
  rewrite (distinct_In _ _ subject_eqb_eq). rewrite in_flat_map. split.
  - intros [[er e] [Hp H]]. apply in_flat_map in H. destruct H as [sub [Hsub H]].
    simpl in H. destruct (Z.eqb_spec (er_subject_id er) (subject_pk sub)) as [He|He];
      [|contradiction].
    destruct H as [[= <- <-]|[]]. exists er, e, sub. auto.
  - intros [er [e [sub [Hp [Hsub [He [-> ->]]]]]]]. exists (er, e). split; [exact Hp|].
    apply in_flat_map. exists sub. split; [exact Hsub|]. simpl.
    rewrite He, Z.eqb_refl. now left.
Qed.

Lemma student_subjects_In db s ay sem subj :
  In subj (student_subjects_in_semester db s ay sem) <->
  exists er e sub,
    In (er, e) (scoped_results db s ay sem) /\ In sub (Subjects db) /\
    er_subject_id er = subject_pk sub /\ subj = subject_pk sub.
Proof.
  unfold student_subjects_in_semester.
  rewrite (distinct_In _ _ Z.eqb_eq). rewrite in_flat_map. split.
  - intros [sub [Hsub H]]. apply in_flat_map in H. destruct H as [[er e] [Hp H]].
    simpl in H. destruct (Z.eqb_spec (subject_pk sub) (er_subject_id er)) as [He|He];
      [|contradiction].
    destruct H as [<-|[]]. exists er, e, sub. auto.
  - intros [er [e [sub [Hp [Hsub [He ->]]]]]]. exists sub. split; [exact Hsub|].
    apply in_flat_map. exists (er, e). split; [exact Hp|]. simpl.
    rewrite He, Z.eqb_refl. now left.
Qed.

(** *** The loop over subjects as sums *)

Lemma subject_totals_spec db s subj ay sem :
  subject_totals db s subj ay sem =
  (AggregateSpec.achieved db s ay sem subj, AggregateSpec.possible db s ay sem subj).
Proof.
  unfold subject_totals, AggregateSpec.achieved, AggregateSpec.possible,
    AggregateSpec.semester_score, AggregateSpec.semester_max,
    AggregateSpec.cat_avg_score, AggregateSpec.cat_avg_max.
  assert (Hm : forall l, mean_or_zero l = AggregateSpec.mean l) by now intros [|x l].
  now rewrite !Hm.
Qed.

Lemma count_subjects_sums db s ay sem l : forall acc,
  let counted :=
    filter (fun subject => Qgtb (AggregateSpec.possible db s ay sem subject) 0)
           (map fst l) in
  fold_left (count_subject db s ay sem) l acc =
  {| total_semester_score :=
       fold_left Qplus (map (AggregateSpec.achieved db s ay sem) counted)
                 (total_semester_score acc);
     total_possible_semester_score :=
       fold_left Qplus (map (AggregateSpec.possible db s ay sem) counted)
                 (total_possible_semester_score acc);
     num_subjects_counted := (num_subjects_counted acc + length counted)%nat |}.
Proof.
  induction l as [|[subj name] l IH]; intros acc; simpl.
  - rewrite Nat.add_0_r. now destruct acc.
  - rewrite IH. unfold count_subject. rewrite subject_totals_spec.
    cbn [fst snd].
    destruct (Qgtb (AggregateSpec.possible db s ay sem subj) 0); simpl.
    + f_equal. lia.
    + reflexivity.
Qed.

Lemma semester_totals_spec db s ay sem :
  semester_totals db s ay sem =
  {| total_semester_score := AggregateSpec.total_achieved db s ay sem;
     total_possible_semester_score := AggregateSpec.total_possible db s ay sem;
     num_subjects_counted := length (AggregateSpec.counted_subjects db s ay sem) |}.
Proof.
  unfold semester_totals. rewrite count_subjects_sums. reflexivity.
Qed.

(** A student with a counted subject is not skipped by the loop. *)
Lemma counted_not_skipped db ay sem s g :
  AggregateSpec.counted_subjects db s ay sem <> [] ->
  student_result db ay sem (s, g) =
  Some {| e_total_marks := AggregateSpec.total_achieved db s ay sem;
          e_average_score := AggregateSpec.percentage db s ay sem;
          e_grade_id := g;
          e_grade_rank := None |}.
Proof.
  intros Hc.
  destruct (AggregateSpec.counted_subjects db s ay sem) as [|c cs] eqn:Ec; [congruence|].
  assert (Hin : In c (map fst (subjects_with_results db s ay sem))).
  { assert (H : In c (AggregateSpec.counted_subjects db s ay sem)) by (rewrite Ec; now left).
    unfold AggregateSpec.counted_subjects in H. apply filter_In in H. tauto. }
  apply in_map_iff in Hin. destruct Hin as [[c' name] [Hc' Hin]]. simpl in Hc'. subst c'.
  apply subjects_with_results_In in Hin.
  destruct Hin as [er [e [sub [Hp [Hsub [He [Hc1 _]]]]]]].
  unfold student_result. simpl.
  destruct (student_exam_results db s ay sem) eqn:E1.
  { unfold student_exam_results in E1. apply map_eq_nil in E1. rewrite E1 in Hp.
    contradiction. }
  destruct (student_subjects_in_semester db s ay sem) eqn:E2.
  { assert (H : In c (student_subjects_in_semester db s ay sem))
      by (apply student_subjects_In; exists er, e, sub; auto).
    rewrite E2 in H. contradiction. }
  rewrite semester_totals_spec. simpl. rewrite Ec. simpl.
  unfold AggregateSpec.percentage. reflexivity.
Qed.


(** *** Who is skipped *)

Lemma subjects_nil db s ay sem :
  student_subjects_in_semester db s ay sem = [] -> subjects_with_results db s ay sem = [].
Proof.
  intros H. destruct (subjects_with_results db s ay sem) as [|[subj name] l] eqn:E;
    [reflexivity|].
  assert (Hin : In (subj, name) (subjects_with_results db s ay sem)) by (rewrite E; now left).
  apply subjects_with_results_In in Hin.
  destruct Hin as [er [e [sub [Hp [Hsub [He [Hs _]]]]]]].
  assert (Hin' : In subj (student_subjects_in_semester db s ay sem))
    by (apply student_subjects_In; exists er, e, sub; auto).
  rewrite H in Hin'. contradiction.
Qed.

Lemma skipped_iff db ay sem s :
  skipped db ay sem s = true <->
  student_exam_results db s ay sem = [] \/
  num_subjects_counted (semester_totals db s ay sem) = 0%nat.
Proof.
  unfold skipped, student_result. simpl.
  destruct (student_exam_results db s ay sem) as [|x l] eqn:E1.
  - split; [now left|reflexivity].
  - destruct (student_subjects_in_semester db s ay sem) as [|y l'] eqn:E2.
    + split; [|reflexivity]. intros _. right. unfold semester_totals.
      now rewrite (subjects_nil db s ay sem E2).
    + destruct (num_subjects_counted (semester_totals db s ay sem)) eqn:E3.
      * split; [now right|reflexivity].
      * split; [discriminate|]. intros [H|H]; discriminate.
Qed.

Lemma length_filter_negb (A : Type) (f : A -> bool) l :
  length (filter (fun x => negb (f x)) l) = (length l - length (filter f l))%nat.
Proof.
  induction l as [|a l IH]; [reflexivity|]. cbn [filter].
  pose proof (filter_length_le f l) as Hle.
  destruct (f a); cbn [negb length]; rewrite IH; lia.
Qed.

Lemma ranked_keys_survivors db ay sem :
  enrollment_ok db = true ->
  DictSpec.keys (ranked_semester_data db ay sem) = map fst (survivors db ay sem).
Proof.
  intros Hok. rewrite ranked_semester_data_spec, RankFacts.keys_ranked.
  apply data_keys_order. now apply students_in_year_NoDup.
Qed.

Lemma ranked_keys_not_skipped db ay sem k :
  In k (DictSpec.keys (ranked_semester_data db ay sem)) ->
  skipped db ay sem k = false.
Proof.
  rewrite ranked_semester_data_spec, RankFacts.keys_ranked. intros H.
  apply data_keys in H. now destruct H as [g [_ H]].
Qed.

End SemesterFacts.

(** ** The yearly run *)

Module YearlyFacts.
Import YearlyResultService YearlySpec StoreSpec RankSpec.



Lemma get_accumulate d r s :
  Dict.get (accumulate d r) s =
  if (s =? res_student_id r)%Z
  then Some (add_semester (res_total_marks r) (res_average_score r)
               match Dict.get d s with Some a => a | None => init r end)
  else Dict.get d s.
Proof.
  unfold accumulate. rewrite DictFacts.get_update.
  destruct (Z.eqb_spec s (res_student_id r)) as [->|Hne].
  - unfold Dict.mem. destruct (Dict.get d (res_student_id r)) eqn:E.
    + now rewrite E.
    + now rewrite DictFacts.get_set_same.
  - destruct (Dict.mem d (res_student_id r)); [reflexivity|].
    now apply DictFacts.get_set_other.
Qed.

Lemma keys_accumulate_NoDup d r :
  NoDup (DictSpec.keys d) -> NoDup (DictSpec.keys (accumulate d r)).
Proof.
  intros H. unfold accumulate. rewrite DictFacts.keys_update.
  destruct (Dict.mem d (res_student_id r)); [exact H|].
  now apply DictFacts.keys_set_NoDup.
Qed.

Lemma sums_fold_NoDup data : forall d,
  NoDup (DictSpec.keys d) -> NoDup (DictSpec.keys (fold_left accumulate data d)).
Proof.
  induction data as [|r data IH]; intros d H; simpl; [exact H|].
  apply IH. now apply keys_accumulate_NoDup.
Qed.

Lemma sums_fold_get data : forall d s,
  Dict.get (fold_left accumulate data d) s =
  match Dict.get d s with
  | Some a => Some (absorb (answers_of s data) a)
  | None =>
      match answers_of s data with
      | [] => None
      | r0 :: _ => Some (absorb (answers_of s data) (init r0))
      end
  end.
Proof.
  induction data as [|r data IH]; intros d s; simpl.
  - now destruct (Dict.get d s).
  - rewrite IH, get_accumulate. rewrite (Z.eqb_sym (res_student_id r) s).
    destruct (s =? res_student_id r)%Z; [|reflexivity].
    now destruct (Dict.get d s).
Qed.

Lemma absorb_spec l : forall a,
  absorb l a =
  {| total_marks_sum := fold_left Qplus (map res_total_marks l) (total_marks_sum a);
     average_score_sum := fold_left Qplus (map res_average_score l) (average_score_sum a);
     num_semesters := (num_semesters a + length l)%nat;
     acc_grade_id := acc_grade_id a |}.
Proof.
  unfold absorb. induction l as [|r l IH]; intros a; simpl.
  - rewrite Nat.add_0_r. now destruct a.
  - rewrite IH. simpl. f_equal. lia.
Qed.

(** What the dictionary holds for a student after both loops. *)
Lemma yearly_data_get data s :
  Dict.get (student_yearly_data data) s =
  match answers_of s data with
  | [] => None
  | r0 :: _ =>
      Some {| e_total_marks := SemesterResultService.sum
                                 (map res_total_marks (answers_of s data));
              e_average_score :=
                (SemesterResultService.sum (map res_average_score (answers_of s data)) /
                 SemesterResultService.len (answers_of s data))%Q;
              e_grade_id := res_grade_id r0;
              e_grade_rank := None |}
  end.
Proof.
  unfold student_yearly_data, student_yearly_sums.
  rewrite DictFacts.get_map_values, sums_fold_get. simpl.
  destruct (answers_of s data) as [|r0 l] eqn:E; [reflexivity|].
  rewrite absorb_spec. reflexivity.
Qed.

Lemma yearly_data_NoDup data : NoDup (DictSpec.keys (student_yearly_data data)).
Proof.
  unfold student_yearly_data, DictSpec.keys. rewrite map_map. simpl.
  apply (sums_fold_NoDup data []). constructor.
Qed.

Lemma ranked_yearly_data_spec db ay :
  ranked_yearly_data db ay = ranked (student_yearly_data (semester_results_data db ay)).
Proof.
  unfold ranked_yearly_data. apply RankFacts.rank_grades_ranked.
  - apply yearly_data_NoDup.
  - intros kv Hin. unfold grades_in_year. apply RankFacts.sorted_set_In.
    now apply (in_map (fun kv => e_grade_id (snd kv))).
Qed.

Lemma with_yearly_results_same db : with_yearly_results db (YearlyResults db) = db.
Proof. now destruct db. Qed.

Lemma yearly_store_loop ay l : forall db,
  Forall (fun kv => e_grade_rank (snd kv) <> None) l ->
  fold_left (store_one ay) l (Some db) =
  Some (with_yearly_results db
          (TableSpec.store_items yearly_key_eqb (YearlyResults db) (yearly_items ay l))).
Proof.
  induction l as [|[k e] l IH]; intros db Hall; simpl.
  - now rewrite with_yearly_results_same.
  - inversion Hall as [|? ? Hr Hl]; subst. simpl in Hr.
    unfold store_one at 1. simpl.
    destruct (e_grade_rank e) as [r|] eqn:Er; [|congruence].
    rewrite (IH _ Hl). f_equal. unfold entry_values. rewrite Er. reflexivity.
Qed.

(** The run as a whole: it completes, and stores one item per entry of
    the ranked dictionary. *)
Lemma compute_yearly_spec db ay :
  compute_and_store_yearly_results db ay =
  Some (with_yearly_results db (yearly_run_table db ay)).
Proof.
  unfold compute_and_store_yearly_results, yearly_run_table.
  destruct (semester_results_data db ay) as [|r0 l] eqn:E.
  - unfold ranked_yearly_data. rewrite E. simpl. now rewrite with_yearly_results_same.
  - apply yearly_store_loop. rewrite ranked_yearly_data_spec. apply RankFacts.ranked_all_ranked.
Qed.


(** *** The join with [Students] *)

Lemma flat_map_none (A B : Type) (c : A -> bool) (x : A -> B) l :
  (forall a, In a l -> c a = false) ->
  flat_map (fun a => if c a then [x a] else []) l = [].
Proof.
  induction l as [|a l IH]; simpl; intros H; [reflexivity|].
  rewrite (H a (or_introl eq_refl)). simpl. apply IH. intros b Hb. apply H. now right.
Qed.

Lemma flat_map_one (A B : Type) (f : A -> Z) (c : A -> bool) (x : A -> B) l a0 :
  NoDup (map f l) -> In a0 l -> (forall a, c a = true <-> f a = f a0) ->
  flat_map (fun a => if c a then [x a] else []) l = [x a0].
Proof.
  induction l as [|a l IH]; simpl; intros Hnd Hin Hc; [contradiction|].
  inversion Hnd as [|? ? Ha Hl]; subst. destruct Hin as [->|Hin].
  - rewrite (proj2 (Hc a0) eq_refl). simpl. f_equal. apply flat_map_none.
    intros b Hb. destruct (c b) eqn:E; [|reflexivity].
    apply Hc in E. exfalso. apply Ha. rewrite <- E. now apply in_map.
  - destruct (c a) eqn:E.
    + apply Hc in E. exfalso. apply Ha. rewrite E. now apply in_map.
    + simpl. now apply IH.
Qed.

(** With [Students.id] a primary key, the answers about a student mirror
    the student's [SemesterResults] rows of the year, in order. *)
Lemma answers_mirror_rows db ay s :
  NoDup (map student_pk (Students db)) -> In s (map student_pk (Students db)) ->
  map (fun r => (res_total_marks r, res_average_score r))
      (answers_of s (semester_results_data db ay)) =
  map (fun r => (total_marks r, average_score r)) (semester_rows db ay s).
Proof.
  intros Hnd Hin. apply in_map_iff in Hin. destruct Hin as [st0 [Hpk Hst0]].
  unfold semester_results_data, semester_rows, answers_of.
  induction (rows (SemesterResults db)) as [|sr l IH]; simpl; [reflexivity|].
  rewrite filter_app, map_app, IH. clear IH.
  destruct sr as [i [[st sm] y] tot avg rk]. simpl.
  destruct (Z.eqb_spec st s) as [->|Hst]; simpl.
  - destruct (Z.eqb_spec y ay) as [->|Hy]; simpl.
    + rewrite (flat_map_one Student SemesterResultData student_pk
                 (fun s0 => ((s =? student_pk s0)%Z && true)) _ (Students db) st0 Hnd Hst0).
      * simpl. now rewrite Z.eqb_refl.
      * intros a. rewrite andb_true_r, Z.eqb_eq, Hpk. split; congruence.
    + rewrite flat_map_none; [reflexivity|]. intros a _. apply andb_false_r.
  - replace (filter _ _) with (@nil SemesterResultData); [reflexivity|].
    symmetry. apply SemesterFacts.filter_nil_iff. intros r Hr.
    apply in_flat_map in Hr. destruct Hr as [a [_ Hr]].
    destruct ((st =? student_pk a) && (y =? ay))%Z; [|contradiction].
    destruct Hr as [<-|[]]. simpl. now apply Z.eqb_neq.
Qed.

Lemma answers_nil_rows_nil db ay s :
  semester_rows db ay s = [] -> answers_of s (semester_results_data db ay) = [].
Proof.
  unfold semester_rows, answers_of, semester_results_data. intros H.
  apply SemesterFacts.filter_nil_iff. intros r Hr.
  apply in_flat_map in Hr. destruct Hr as [sr [Hsr Hr]].
  apply in_flat_map in Hr. destruct Hr as [a [_ Hr]].
  pose proof (proj1 (SemesterFacts.filter_nil_iff _ _ _) H sr Hsr) as Hno.
  cbv beta in Hno. destruct (key sr) as [[st sm] y].
  destruct ((st =? student_pk a) && (y =? ay))%Z eqn:E; [|contradiction].
  destruct Hr as [<-|[]]. simpl.
  apply andb_true_iff in E. destruct E as [_ E]. rewrite E, andb_true_r in Hno. exact Hno.
Qed.

End YearlyFacts.

(* ================================================================== *)
(** * The claims *)

Import SemesterResultService YearlyResultService.
Import Constraints StoreSpec SemesterSpec AggregateSpec RankSpec YearlySpec.

(** What a semester run stores for a student of the ranked dictionary. *)
Lemma semester_run_stores db ay sem k e :
  results_ok db = true ->
  Dict.get (ranked_semester_data db ay sem) k = Some e ->
  exists row,
    DBManager.fetch_one_by_key semester_key_eqb (semester_run_table db ay sem)
      (k, sem, ay) = Some row /\
    key row = (k, sem, ay) /\ TableSpec.values row = entry_values e.
Proof.
  intros Hok Hget. apply StoreFacts.results_ok_wf in Hok. destruct Hok as [Hwf _].
  apply (StoreFacts.run_row SemesterKey semester_key_eqb UniqueFacts.semester_key_eqb_eq
           (fun k => (k, sem, ay)) (StoreFacts.semester_mkkey_inj sem ay)
           (SemesterResults db) (ranked_semester_data db ay sem) k e Hwf); [|exact Hget].
  rewrite SemesterFacts.ranked_semester_data_spec, RankFacts.keys_ranked.
  apply SemesterFacts.data_NoDup.
Qed.


Lemma yearly_run_stores db ay k e :
  results_ok db = true ->
  Dict.get (ranked_yearly_data db ay) k = Some e ->
  exists row,
    DBManager.fetch_one_by_key yearly_key_eqb (yearly_run_table db ay) (k, ay) = Some row /\
    key row = (k, ay) /\ TableSpec.values row = entry_values e.
Proof.
  intros Hok Hget. apply StoreFacts.results_ok_wf in Hok. destruct Hok as [_ Hwf].
  apply (StoreFacts.run_row YearlyKey yearly_key_eqb UniqueFacts.yearly_key_eqb_eq
           (fun k => (k, ay)) (StoreFacts.yearly_mkkey_inj ay)
           (YearlyResults db) (ranked_yearly_data db ay) k e Hwf); [|exact Hget].
  rewrite YearlyFacts.ranked_yearly_data_spec, RankFacts.keys_ranked.
  apply YearlyFacts.yearly_data_NoDup.
Qed.

Lemma ranked_entry_values d k e :
  Dict.get (ranked d) k = Some e -> e_grade_rank e = Some (snd (entry_values e)).
Proof.
  rewrite RankFacts.get_ranked. destruct (Dict.get d k); [|discriminate].
  simpl. now intros [= <-].
Qed.

(** The row a semester run stores carries the fields of the ranked entry. *)
Lemma semester_row_of_entry db ay sem k e :
  results_ok db = true ->
  Dict.get (ranked_semester_data db ay sem) k = Some e ->
  exists row,
    get_semester_result_by_composite_keys
      (with_semester_results db (semester_run_table db ay sem)) k sem ay = Some row /\
    total_marks row = e_total_marks e /\
    average_score row = e_average_score e /\
    e_grade_rank e = Some (grade_rank row).
Proof.
  intros Hok Hget.
  destruct (semester_run_stores db ay sem k e Hok Hget) as [row [Hf [_ Hv]]].
  exists row. split; [exact Hf|].
  rewrite SemesterFacts.ranked_semester_data_spec in Hget.
  apply ranked_entry_values in Hget.
  assert (H3 : snd (entry_values e) = grade_rank row) by (rewrite <- Hv; reflexivity).
  rewrite Hget, H3. unfold TableSpec.values, entry_values in Hv.
  injection Hv as H1 H2 _. auto.
Qed.

Lemma yearly_row_of_entry db ay k e :
  results_ok db = true ->
  Dict.get (ranked_yearly_data db ay) k = Some e ->
  exists row,
    get_yearly_result_by_composite_keys
      (with_yearly_results db (yearly_run_table db ay)) k ay = Some row /\
    total_marks row = e_total_marks e /\
    average_score row = e_average_score e /\
    e_grade_rank e = Some (grade_rank row).
Proof.
  intros Hok Hget.
  destruct (yearly_run_stores db ay k e Hok Hget) as [row [Hf [_ Hv]]].
  exists row. split; [exact Hf|].
  rewrite YearlyFacts.ranked_yearly_data_spec in Hget.
  apply ranked_entry_values in Hget.
  assert (H3 : snd (entry_values e) = grade_rank row) by (rewrite <- Hv; reflexivity).
  rewrite Hget, H3. unfold TableSpec.values, entry_values in Hv.
  injection Hv as H1 H2 _. auto.
Qed.

(** C2. In both runs the dictionary is ranked by competition ranking within
    each grade: down the cohort sorted by descending average the first
    student has rank 1, a later student has the rank of the one before if
    and only if their averages are equal, and otherwise the 1-based
    position; the run completes and stores these ranks.  Averages 90, 90
    and 80 in one grade are stored with ranks 1, 1 and 3. *)
Theorem cohorts_get_competition_ranks db ay sem :
  results_ok db = true ->
  (competition_ranked (ranked_semester_data db ay sem) /\
   exists db',
     compute_and_store_semester_results db ay sem = Some db' /\
     forall s e,
       Dict.get (ranked_semester_data db ay sem) s = Some e ->
       exists row,
         get_semester_result_by_composite_keys db' s sem ay = Some row /\
         average_score row = e_average_score e /\
         rank_of (ranked_semester_data db ay sem) s = Some (grade_rank row)) /\
  (competition_ranked (ranked_yearly_data db ay) /\
   exists db',
     compute_and_store_yearly_results db ay = Some db' /\
     forall s e,
       Dict.get (ranked_yearly_data db ay) s = Some e ->
       exists row,
         get_yearly_result_by_composite_keys db' s ay = Some row /\
         average_score row = e_average_score e /\
         rank_of (ranked_yearly_data db ay) s = Some (grade_rank row)) /\
  (exists db',
     compute_and_store_semester_results Sample.three_students
       Sample.ay_2023_2024 Sample.sem1 = Some db' /\
     Forall2 Qeq (map (@average_score _) (rows (SemesterResults db'))) [90#1; 90#1; 80#1] /\
     map (@grade_rank _) (rows (SemesterResults db')) = [1; 1; 3]%nat).
Proof.
  intros Hok. split; [|split].
  - split.
    + rewrite SemesterFacts.ranked_semester_data_spec.
      apply RankFacts.ranked_competition, SemesterFacts.data_NoDup.
    + exists (with_semester_results db (semester_run_table db ay sem)).
      split; [apply SemesterFacts.compute_semester_spec|].
      intros s e Hget.
      destruct (semester_row_of_entry db ay sem s e Hok Hget) as [row [Hf [_ [Ha Hr]]]].
      exists row. split; [exact Hf|]. split; [exact Ha|].
      unfold rank_of. now rewrite Hget.
  - split.
    + rewrite YearlyFacts.ranked_yearly_data_spec.
      apply RankFacts.ranked_competition, YearlyFacts.yearly_data_NoDup.
    + exists (with_yearly_results db (yearly_run_table db ay)).
      split; [apply YearlyFacts.compute_yearly_spec|].
      intros s e Hget.
      destruct (yearly_row_of_entry db ay s e Hok Hget) as [row [Hf [_ [Ha Hr]]]].
      exists row. split; [exact Hf|]. split; [exact Ha|].
      unfold rank_of. now rewrite Hget.
  - eexists. split; [vm_compute; reflexivity|]. split; [|reflexivity].
    simpl. repeat constructor.
Qed.

Lemma cohorts_get_competition_ranks_witness :
  competition_ranked (ranked_semester_data Sample.school 1 1) /\
  competition_ranked (ranked_yearly_data Sample.school_after_semesters 1).
Proof.
  destruct (cohorts_get_competition_ranks Sample.school 1 1 eq_refl) as [[H1 _] _].
  destruct (cohorts_get_competition_ranks Sample.school_after_semesters 1 1)
    as [_ [[H2 _] _]].
  - vm_compute. reflexivity.
  - split; [exact H1|exact H2].
Defined.

(** C8. In both runs, for two students A and B ranked in the same grade,
    the stored rows satisfy: if A's average is strictly greater than B's
    then A's grade_rank is at most B's, and if the averages are equal then
    the grade_ranks are equal. *)
Theorem better_average_never_worse_rank db ay sem :
  results_ok db = true ->
  (exists db',
     compute_and_store_semester_results db ay sem = Some db' /\
     forall A B eA eB,
       Dict.get (ranked_semester_data db ay sem) A = Some eA ->
       Dict.get (ranked_semester_data db ay sem) B = Some eB ->
       e_grade_id eA = e_grade_id eB ->
       exists rowA rowB,
         get_semester_result_by_composite_keys db' A sem ay = Some rowA /\
         get_semester_result_by_composite_keys db' B sem ay = Some rowB /\
         ((average_score rowB < average_score rowA)%Q ->
          (grade_rank rowA <= grade_rank rowB)%nat) /\
         ((average_score rowA == average_score rowB)%Q ->
          grade_rank rowA = grade_rank rowB)) /\
  (exists db',
     compute_and_store_yearly_results db ay = Some db' /\
     forall A B eA eB,
       Dict.get (ranked_yearly_data db ay) A = Some eA ->
       Dict.get (ranked_yearly_data db ay) B = Some eB ->
       e_grade_id eA = e_grade_id eB ->
       exists rowA rowB,
         get_yearly_result_by_composite_keys db' A ay = Some rowA /\
         get_yearly_result_by_composite_keys db' B ay = Some rowB /\
         ((average_score rowB < average_score rowA)%Q ->
          (grade_rank rowA <= grade_rank rowB)%nat) /\
         ((average_score rowA == average_score rowB)%Q ->
          grade_rank rowA = grade_rank rowB)).
Proof.
  intros Hok. split.
  - exists (with_semester_results db (semester_run_table db ay sem)).
    split; [apply SemesterFacts.compute_semester_spec|].
    intros A B eA eB HA HB Hg.
    destruct (semester_row_of_entry db ay sem A eA Hok HA) as [rowA [HfA [_ [HaA HrA]]]].
    destruct (semester_row_of_entry db ay sem B eB Hok HB) as [rowB [HfB [_ [HaB HrB]]]].
    exists rowA, rowB. split; [exact HfA|]. split; [exact HfB|].
    rewrite SemesterFacts.ranked_semester_data_spec in HA, HB.
    destruct (RankFacts.ranked_monotone _ A B eA eB HA HB Hg) as [rA [rB [H1 [H2 [Hlt Heq]]]]].
    rewrite HaA, HaB.
    assert (rA = grade_rank rowA) by congruence.
    assert (rB = grade_rank rowB) by congruence. subst rA rB. auto.
  - exists (with_yearly_results db (yearly_run_table db ay)).
    split; [apply YearlyFacts.compute_yearly_spec|].
    intros A B eA eB HA HB Hg.
    destruct (yearly_row_of_entry db ay A eA Hok HA) as [rowA [HfA [_ [HaA HrA]]]].
    destruct (yearly_row_of_entry db ay B eB Hok HB) as [rowB [HfB [_ [HaB HrB]]]].
    exists rowA, rowB. split; [exact HfA|]. split; [exact HfB|].
    rewrite YearlyFacts.ranked_yearly_data_spec in HA, HB.
    destruct (RankFacts.ranked_monotone _ A B eA eB HA HB Hg) as [rA [rB [H1 [H2 [Hlt Heq]]]]].
    rewrite HaA, HaB.
    assert (rA = grade_rank rowA) by congruence.
    assert (rB = grade_rank rowB) by congruence. subst rA rB. auto.
Qed.

Lemma better_average_never_worse_rank_witness :
  exists db' rowA rowB,
    compute_and_store_semester_results Sample.school 1 1 = Some db' /\
    get_semester_result_by_composite_keys db' Sample.jane 1 1 = Some rowA /\
    get_semester_result_by_composite_keys db' Sample.john 1 1 = Some rowB /\
    (average_score rowB < average_score rowA)%Q /\
    (grade_rank rowA <= grade_rank rowB)%nat.
Proof.
  destruct (better_average_never_worse_rank Sample.school 1 1 eq_refl)
    as [[db' [Hc H]] _].
  destruct (Dict.get (ranked_semester_data Sample.school 1 1) Sample.jane)
    as [eA|] eqn:HA; [|vm_compute in HA; discriminate].
  destruct (Dict.get (ranked_semester_data Sample.school 1 1) Sample.john)
    as [eB|] eqn:HB; [|vm_compute in HB; discriminate].
  assert (Hg : e_grade_id eA = e_grade_id eB).
  { vm_compute in HA, HB. injection HA as <-. injection HB as <-. reflexivity. }
  destruct (H Sample.jane Sample.john eA eB HA HB Hg) as [rowA [rowB [HfA [HfB [Hlt _]]]]].
  exists db', rowA, rowB. split; [exact Hc|]. split; [exact HfA|]. split; [exact HfB|].
  assert (Havg : (average_score rowB < average_score rowA)%Q).
  { vm_compute in Hc. injection Hc as <-.
    vm_compute in HfA, HfB. injection HfA as <-. injection HfB as <-. reflexivity. }
  split; [exact Havg|now apply Hlt].
Defined.

(** The semester run reads [Students], [Enrollments], [Subjects], [Exams]
    and [ExamResults] only. *)
Lemma ranked_semester_data_reads db t ay sem :
  ranked_semester_data (with_semester_results db t) ay sem =
  ranked_semester_data db ay sem.
Proof. reflexivity. Qed.

(** C5. Running the semester computation a second time, with nothing else
    changed in between, leaves the database exactly as the first run left
    it: the same rows with the same ids, keys, total_marks, average_score
    and grade_rank, and no additional rows. *)
Theorem semester_run_is_idempotent db ay sem :
  results_ok db = true ->
  exists db1,
    compute_and_store_semester_results db ay sem = Some db1 /\
    compute_and_store_semester_results db1 ay sem = Some db1.
Proof.
  intros Hok. exists (with_semester_results db (semester_run_table db ay sem)).
  split; [apply SemesterFacts.compute_semester_spec|].
  rewrite SemesterFacts.compute_semester_spec. apply f_equal.
  apply StoreFacts.results_ok_wf in Hok. destruct Hok as [Hwf _].
  assert (Hnd : NoDup (DictSpec.keys (ranked_semester_data db ay sem))).
  { rewrite SemesterFacts.ranked_semester_data_spec, RankFacts.keys_ranked.
    apply SemesterFacts.data_NoDup. }
  assert (Ht : semester_run_table
                 (with_semester_results db (semester_run_table db ay sem)) ay sem =
               semester_run_table db ay sem).
  { exact (StoreFacts.run_idempotent SemesterKey semester_key_eqb
             UniqueFacts.semester_key_eqb_eq (fun k => (k, sem, ay))
             (StoreFacts.semester_mkkey_inj sem ay)
             (SemesterResults db) (ranked_semester_data db ay sem) Hwf Hnd). }
  rewrite Ht. reflexivity.
Qed.

Lemma semester_run_is_idempotent_witness :
  exists db1,
    compute_and_store_semester_results Sample.school 1 1 = Some db1 /\
    compute_and_store_semester_results db1 1 1 = Some db1.
Proof. apply (semester_run_is_idempotent Sample.school 1 1). reflexivity. Defined.

(** C6. A student is skipped exactly when they have no exam result in the
    scope or no subject was counted for them.  The run completes; for an
    enrolled student who is skipped, the student's rows in SemesterResults
    are the same list before and after (none created, none updated); and
    the rows written, one per call of add_semester_result, are as many as
    the enrolled students minus the skipped ones: that many rows sit under
    the keys of the students that were not skipped, and that many rows in
    all when the table was empty before. *)
Theorem skipped_students_get_no_row db ay sem :
  schema_ok db = true ->
  (forall s,
     skipped db ay sem s = true <->
     student_exam_results db s ay sem = [] \/
     num_subjects_counted (semester_totals db s ay sem) = 0%nat) /\
  exists db',
    compute_and_store_semester_results db ay sem = Some db' /\
    (forall s g,
       In (s, g) (students_in_year db ay) -> skipped db ay sem s = true ->
       filter (fun r => (fst (fst (key r)) =? s)%Z) (rows (SemesterResults db')) =
       filter (fun r => (fst (fst (key r)) =? s)%Z) (rows (SemesterResults db))) /\
    let written :=
      (length (students_in_year db ay) -
       length (filter (fun st => skipped db ay sem (fst st)) (students_in_year db ay)))%nat in
    length (semester_items ay sem (ranked_semester_data db ay sem)) = written /\
    length (rows_keyed semester_key_eqb
              (map (fun st => (fst st, sem, ay)) (survivors db ay sem))
              (SemesterResults db')) = written /\
    (rows (SemesterResults db) = [] -> length (rows (SemesterResults db')) = written).
Proof.
  intros Hok. unfold schema_ok in Hok. apply andb_true_iff in Hok.
  destruct Hok as [Hen Hres].
  destruct (StoreFacts.results_ok_wf db Hres) as [Hwf _].
  split; [intros s; apply SemesterFacts.skipped_iff|].
  exists (with_semester_results db (semester_run_table db ay sem)).
  split; [apply SemesterFacts.compute_semester_spec|].
  assert (Hnd : NoDup (DictSpec.keys (ranked_semester_data db ay sem))).
  { rewrite SemesterFacts.ranked_semester_data_spec, RankFacts.keys_ranked.
    apply SemesterFacts.data_NoDup. }
  assert (Hlen : length (ranked_semester_data db ay sem) =
                 (length (students_in_year db ay) -
                  length (filter (fun st => skipped db ay sem (fst st))
                                 (students_in_year db ay)))%nat).
  { rewrite <- (length_map fst (ranked_semester_data db ay sem)).
    change (map fst (ranked_semester_data db ay sem))
      with (DictSpec.keys (ranked_semester_data db ay sem)).
    rewrite (SemesterFacts.ranked_keys_survivors db ay sem Hen), length_map.
    unfold survivors. apply SemesterFacts.length_filter_negb. }
  assert (Hcount : length (rows_keyed semester_key_eqb
                     (map (fun st => (fst st, sem, ay)) (survivors db ay sem))
                     (semester_run_table db ay sem)) =
                   length (ranked_semester_data db ay sem)).
  { rewrite <- (map_map fst (fun k => (k, sem, ay))).
    rewrite <- (SemesterFacts.ranked_keys_survivors db ay sem Hen).
    exact (StoreFacts.run_count SemesterKey semester_key_eqb
             UniqueFacts.semester_key_eqb_eq (fun k => (k, sem, ay))
             (StoreFacts.semester_mkkey_inj sem ay)
             (SemesterResults db) (ranked_semester_data db ay sem) Hwf Hnd). }
  split; [|split; [|split]].
  - intros s g _ Hsk.
    apply (StoreFacts.run_filter SemesterKey semester_key_eqb
             UniqueFacts.semester_key_eqb_eq (fun k => (k, sem, ay))
             (fun k => (fst (fst k) =? s)%Z)
             (SemesterResults db) (ranked_semester_data db ay sem) Hwf).
    intros k Hk. simpl. apply Z.eqb_neq. intros ->.
    apply SemesterFacts.ranked_keys_not_skipped in Hk. congruence.
  - unfold semester_items. now rewrite length_map.
  - cbn [SemesterResults with_semester_results]. now rewrite Hcount.
  - cbn [SemesterResults with_semester_results]. intros Hempty.
    rewrite <- Hlen, <- Hcount. unfold rows_keyed. symmetry.
    f_equal. apply RankFacts.filter_all_true. intros r Hr.
    apply (StoreFacts.run_rows_inv SemesterKey semester_key_eqb
             UniqueFacts.semester_key_eqb_eq (fun k => (k, sem, ay))
             (SemesterResults db) (ranked_semester_data db ay sem) r Hwf Hnd) in Hr.
    destruct Hr as [[Hr _]|[k [e [Hget [Hkey _]]]]].
    + rewrite Hempty in Hr. contradiction.
    + apply (UniqueFacts.existsb_eqb_In _ semester_key_eqb UniqueFacts.semester_key_eqb_eq).
      rewrite Hkey. rewrite <- (map_map fst (fun k => (k, sem, ay))).
      apply (in_map (fun k : Z => (k, sem, ay))). rewrite <- (SemesterFacts.ranked_keys_survivors db ay sem Hen).
      apply DictFacts.get_In in Hget. apply (in_map fst _ (k, e) Hget).
Qed.

Lemma skipped_students_get_no_row_witness :
  skipped Sample.school_with_idle_student 1 1 4 = true /\
  length (students_in_year Sample.school_with_idle_student 1) = 4%nat /\
  exists db',
    compute_and_store_semester_results Sample.school_with_idle_student 1 1 = Some db' /\
    length (rows (SemesterResults db')) = 3%nat.
Proof.
  split; [reflexivity|]. split; [reflexivity|].
  destruct (skipped_students_get_no_row Sample.school_with_idle_student 1 1 eq_refl)
    as [_ [db' [Hc [_ [_ [_ He]]]]]].
  exists db'. split; [exact Hc|]. rewrite (He eq_refl). reflexivity.
Defined.

(** C10. A semester run completes and touches nothing but SemesterResults
    rows keyed by its own (academic year, semester) and by a student it
    did not skip: every row for another semester or academic year, and
    every row of a skipped student, is afterwards at the same place with
    the same id, total_marks, average_score and grade_rank; no row is
    deleted; every row of the table afterwards is an old row or a row of
    this run for an enrolled student that was not skipped; all other
    tables are unchanged. *)
Theorem semester_run_touches_only_its_rows db ay sem :
  results_ok db = true ->
  exists db',
    compute_and_store_semester_results db ay sem = Some db' /\
    (Students db' = Students db /\ Enrollments db' = Enrollments db /\
     Subjects db' = Subjects db /\ Exams db' = Exams db /\
     ExamResults db' = ExamResults db /\ YearlyResults db' = YearlyResults db) /\
    (forall i r,
       nth_error (rows (SemesterResults db)) i = Some r ->
       snd (fst (key r)) <> sem \/ snd (key r) <> ay \/
       skipped db ay sem (fst (fst (key r))) = true ->
       nth_error (rows (SemesterResults db')) i = Some r) /\
    (length (rows (SemesterResults db)) <= length (rows (SemesterResults db')))%nat /\
    (forall r',
       In r' (rows (SemesterResults db')) ->
       In r' (rows (SemesterResults db)) \/
       exists s g, In (s, g) (students_in_year db ay) /\
                   skipped db ay sem s = false /\ key r' = (s, sem, ay)).
Proof.
  intros Hok. destruct (StoreFacts.results_ok_wf db Hok) as [Hwf _].
  assert (Hnd : NoDup (DictSpec.keys (ranked_semester_data db ay sem))).
  { rewrite SemesterFacts.ranked_semester_data_spec, RankFacts.keys_ranked.
    apply SemesterFacts.data_NoDup. }
  exists (with_semester_results db (semester_run_table db ay sem)).
  split; [apply SemesterFacts.compute_semester_spec|].
  split; [repeat split|]. cbn [SemesterResults with_semester_results].
  split; [|split].
  - intros i r Hn Hother.
    apply (StoreFacts.run_frame SemesterKey semester_key_eqb
             UniqueFacts.semester_key_eqb_eq (fun k => (k, sem, ay))
             (SemesterResults db) (ranked_semester_data db ay sem) i r Hwf Hn).
    intros k Hk Hkey. apply SemesterFacts.ranked_keys_not_skipped in Hk.
    rewrite Hkey in Hother. simpl in Hother.
    destruct Hother as [H|[H|H]]; congruence.
  - apply (TableFacts.fold_add_length_le SemesterKey semester_key_eqb
             UniqueFacts.semester_key_eqb_eq _ _ Hwf).
  - intros r' Hr'.
    apply (StoreFacts.run_rows_inv SemesterKey semester_key_eqb
             UniqueFacts.semester_key_eqb_eq (fun k => (k, sem, ay))
             (SemesterResults db) (ranked_semester_data db ay sem) r' Hwf Hnd) in Hr'.
    destruct Hr' as [[Hr' _]|[k [e [Hget [Hkey _]]]]]; [now left|right].
    rewrite SemesterFacts.ranked_semester_data_spec, RankFacts.get_ranked in Hget.
    destruct (Dict.get _ k) as [e0|] eqn:E; [|discriminate].
    destruct (SemesterFacts.data_get db ay sem _ k e0 E) as [g [Hin Hr]].
    exists k, g. split; [exact Hin|]. split; [|exact Hkey].
    apply (SemesterFacts.skipped_false db ay sem k g). eauto.
Qed.

Lemma semester_run_touches_only_its_rows_witness :
  skipped Sample.school_with_stale_row 1 1 4 = true /\
  exists db',
    compute_and_store_semester_results Sample.school_with_stale_row 1 1 = Some db' /\
    nth_error (rows (SemesterResults db')) 0 = Some Sample.stale_row.
Proof.
  split; [reflexivity|].
  destruct (semester_run_touches_only_its_rows Sample.school_with_stale_row 1 1 eq_refl)
    as [db' [Hc [_ [Hframe _]]]].
  exists db'. split; [exact Hc|]. apply Hframe; [reflexivity|].
  right. right. reflexivity.
Defined.

(** C7. A subject whose possible total is 0 leaves the accumulators of
    the loop over subjects as they were (it adds nothing to the achieved
    total, nothing to the possible total, and is not counted), and it is
    not among the counted subjects, over which the student's totals are
    the sums; a subject with no semester-exam row and no CAT row has
    possible total 0. *)
Theorem subject_without_possible_marks_is_excluded db s ay sem subject name acc :
  (possible db s ay sem subject == 0)%Q ->
  count_subject db s ay sem acc (subject, name) = acc /\
  ~ In subject (counted_subjects db s ay sem) /\
  semester_totals db s ay sem =
    {| total_semester_score := sum (map (achieved db s ay sem) (counted_subjects db s ay sem));
       total_possible_semester_score :=
         sum (map (possible db s ay sem) (counted_subjects db s ay sem));
       num_subjects_counted := length (counted_subjects db s ay sem) |} /\
  (forall subject',
     sem_exam_result db s subject' ay sem = None ->
     cat_results db s subject' ay sem = [] ->
     (possible db s ay sem subject' == 0)%Q).
Proof.
  intros Hz.
  assert (Hle : Qgtb (possible db s ay sem subject) 0 = false).
  { apply QFacts.Qgtb_false. rewrite Hz. apply Qle_refl. }
  split; [|split; [|split]].
  - apply SemesterFacts.count_subject_zero.
    rewrite SemesterFacts.subject_totals_spec. cbn [fst snd]. rewrite Hz. apply Qle_refl.
  - unfold counted_subjects. intros Hin. apply filter_In in Hin. destruct Hin as [_ Hin].
    congruence.
  - apply SemesterFacts.semester_totals_spec.
  - intros subject' H1 H2.
    pose proof (SemesterFacts.subject_totals_none db s subject' ay sem H1 H2) as Ht.
    rewrite SemesterFacts.subject_totals_spec in Ht.
    pose proof (f_equal snd Ht) as Hp. cbn [snd] in Hp. rewrite Hp. reflexivity.
Qed.

Lemma subject_without_possible_marks_is_excluded_witness :
  In (Sample.english, "English") (subjects_with_results Sample.school_with_midterm Sample.john 1 1) /\
  ~ In Sample.english (counted_subjects Sample.school_with_midterm Sample.john 1 1).
Proof.
  split; [vm_compute; tauto|].
  apply (subject_without_possible_marks_is_excluded Sample.school_with_midterm
           Sample.john 1 1 Sample.english "English"
           {| total_semester_score := 0; total_possible_semester_score := 0;
              num_subjects_counted := 0 |}).
  reflexivity.
Defined.

(** The entry of a student with semester rows in the ranked dictionary of
    the yearly run. *)
Lemma yearly_student_entry db ay s :
  enrollment_ok db = true ->
  In s (map student_pk (Students db)) ->
  semester_rows db ay s <> [] ->
  exists e, Dict.get (ranked_yearly_data db ay) s = Some e /\
            e_total_marks e = sum (map (@total_marks _) (semester_rows db ay s)) /\
            e_average_score e =
              (sum (map (@average_score _) (semester_rows db ay s)) /
               len (semester_rows db ay s))%Q.
Proof.
  intros Hen Hin Hne. unfold enrollment_ok in Hen. apply andb_true_iff in Hen.
  destruct Hen as [Hpk _]. apply (UniqueFacts.uniqueb_NoDup _ Z.eqb Z.eqb_eq) in Hpk.
  pose proof (YearlyFacts.answers_mirror_rows db ay s Hpk Hin) as Hm.
  set (answers := answers_of s (semester_results_data db ay)) in *.
  set (srs := semester_rows db ay s) in *.
  assert (Ht : map res_total_marks answers = map (@total_marks _) srs).
  { pose proof (f_equal (map fst) Hm) as H. now rewrite !map_map in H. }
  assert (Ha : map res_average_score answers = map (@average_score _) srs).
  { pose proof (f_equal (map snd) Hm) as H. now rewrite !map_map in H. }
  assert (Hl : length answers = length srs).
  { pose proof (f_equal (@length _) Hm) as H. now rewrite !length_map in H. }
  rewrite YearlyFacts.ranked_yearly_data_spec, RankFacts.get_ranked,
    YearlyFacts.yearly_data_get.
  fold answers. destruct answers as [|r0 l] eqn:E.
  - destruct srs; [congruence|discriminate].
  - cbn [option_map]. eexists. split; [reflexivity|].
    cbn [e_total_marks e_average_score set_grade_rank]. rewrite Ht, Ha.
    split; [reflexivity|]. unfold len. now rewrite Hl.
Qed.

(** C3. The yearly run completes.  For a student of the Students table
    with at least one SemesterResults row in the academic year it stores a
    YearlyResults row whose total_marks is the sum of the total_marks of
    those rows and whose average_score is the arithmetic mean of their
    average_score values; for a student without such a row it creates and
    updates no YearlyResults row, so a student who had none has none. *)
Theorem yearly_result_sums_semester_results db ay s :
  schema_ok db = true ->
  In s (map student_pk (Students db)) ->
  exists db',
    compute_and_store_yearly_results db ay = Some db' /\
    (semester_rows db ay s <> [] ->
     exists row,
       get_yearly_result_by_composite_keys db' s ay = Some row /\
       total_marks row = sum (map (@total_marks _) (semester_rows db ay s)) /\
       average_score row =
         (sum (map (@average_score _) (semester_rows db ay s)) /
          len (semester_rows db ay s))%Q) /\
    (semester_rows db ay s = [] ->
     filter (fun r => (fst (key r) =? s)%Z) (rows (YearlyResults db')) =
     filter (fun r => (fst (key r) =? s)%Z) (rows (YearlyResults db)) /\
     (get_yearly_result_by_composite_keys db s ay = None ->
      get_yearly_result_by_composite_keys db' s ay = None)).
Proof.
  intros Hok Hin. unfold schema_ok in Hok. apply andb_true_iff in Hok.
  destruct Hok as [Hen Hres]. destruct (StoreFacts.results_ok_wf db Hres) as [_ Hwf].
  assert (Hnd : NoDup (DictSpec.keys (ranked_yearly_data db ay))).
  { rewrite YearlyFacts.ranked_yearly_data_spec, RankFacts.keys_ranked.
    apply YearlyFacts.yearly_data_NoDup. }
  exists (with_yearly_results db (yearly_run_table db ay)).
  split; [apply YearlyFacts.compute_yearly_spec|]. split.
  - intros Hne.
    destruct (yearly_student_entry db ay s Hen Hin Hne) as [e [Hget [Ht Ha]]].
    destruct (yearly_row_of_entry db ay s e Hres Hget) as [row [Hf [Ht' [Ha' _]]]].
    exists row. split; [exact Hf|]. split; congruence.
  - intros Hnil.
    assert (Hnot : ~ In s (DictSpec.keys (ranked_yearly_data db ay))).
    { apply DictFacts.get_None.
      rewrite YearlyFacts.ranked_yearly_data_spec, RankFacts.get_ranked,
        YearlyFacts.yearly_data_get.
      now rewrite (YearlyFacts.answers_nil_rows_nil db ay s Hnil). }
    cbn [YearlyResults with_yearly_results]. split.
    + apply (StoreFacts.run_filter YearlyKey yearly_key_eqb
               UniqueFacts.yearly_key_eqb_eq (fun k => (k, ay))
               (fun k => (fst k =? s)%Z)
               (YearlyResults db) (ranked_yearly_data db ay) Hwf).
      intros k Hk. simpl. apply Z.eqb_neq. intros ->. contradiction.
    + intros Hnone. unfold get_yearly_result_by_composite_keys in *.
      cbn [YearlyResults with_yearly_results].
      destruct (DBManager.fetch_one_by_key yearly_key_eqb (yearly_run_table db ay) (s, ay))
        as [r'|] eqn:E; [exfalso|reflexivity].
      apply (TableFacts.fetch_Some YearlyKey yearly_key_eqb UniqueFacts.yearly_key_eqb_eq)
        in E. destruct E as [Hr' Hkey].
      apply (StoreFacts.run_rows_inv YearlyKey yearly_key_eqb
               UniqueFacts.yearly_key_eqb_eq (fun k => (k, ay))
               (YearlyResults db) (ranked_yearly_data db ay) r' Hwf Hnd) in Hr'.
      destruct Hr' as [[Hr' _]|[k [e [Hget [Hkey' _]]]]].
      * apply (TableFacts.fetch_None YearlyKey yearly_key_eqb
                 UniqueFacts.yearly_key_eqb_eq) in Hnone.
        apply Hnone. rewrite <- Hkey. now apply in_map.
      * rewrite Hkey in Hkey'. injection Hkey' as <-. apply Hnot.
        apply DictFacts.get_In in Hget. apply (in_map fst _ (s, e) Hget).
Qed.

Lemma yearly_result_sums_semester_results_witness :
  exists db' row,
    compute_and_store_yearly_results Sample.school_after_semesters 1 = Some db' /\
    get_yearly_result_by_composite_keys db' Sample.john 1 = Some row /\
    (total_marks row == 379 # 1)%Q /\
    (average_score row == ((18250 # 260) + (19650 # 260)) / 2)%Q.
Proof.
  destruct (yearly_result_sums_semester_results Sample.school_after_semesters 1
              Sample.john eq_refl) as [db' [Hc [Hsome _]]].
  - vm_compute. tauto.
  - destruct Hsome as [row [Hf [Ht Ha]]]; [vm_compute; discriminate|].
    exists db', row. split; [exact Hc|]. split; [exact Hf|].
    rewrite Ht, Ha. split; vm_compute; reflexivity.
Defined.

Import CallSpec.

(** Every call keeps the constraints of the result tables. *)
Lemma perform_keeps_constraints c db :
  results_ok db = true ->
  exists db', perform c db = Some db' /\ results_ok db' = true.
Proof.
  intros Hok. apply StoreFacts.results_ok_iff in Hok. destruct Hok as [Hs Hy].
  destruct c as [s m y t a r|s y t a r|y m|y]; simpl.
  - eexists. split; [reflexivity|]. apply StoreFacts.results_ok_iff. split; [|exact Hy].
    exact (TableFacts.wf_add_item SemesterKey semester_key_eqb
             UniqueFacts.semester_key_eqb_eq (SemesterResults db)
             ((s, m, y), (t, a, r)) Hs).
  - eexists. split; [reflexivity|]. apply StoreFacts.results_ok_iff. split; [exact Hs|].
    exact (TableFacts.wf_add_item YearlyKey yearly_key_eqb
             UniqueFacts.yearly_key_eqb_eq (YearlyResults db)
             ((s, y), (t, a, r)) Hy).
  - eexists. split; [apply SemesterFacts.compute_semester_spec|].
    apply StoreFacts.results_ok_iff. split; [|exact Hy].
    apply (TableFacts.wf_fold_add SemesterKey semester_key_eqb
             UniqueFacts.semester_key_eqb_eq). exact Hs.
  - eexists. split; [apply YearlyFacts.compute_yearly_spec|].
    apply StoreFacts.results_ok_iff. split; [exact Hs|].
    apply (TableFacts.wf_fold_add YearlyKey yearly_key_eqb
             UniqueFacts.yearly_key_eqb_eq). exact Hy.
Qed.

(** C9. From a store that satisfies the keys of its result tables, any
    sequence of add_semester_result, add_yearly_result and the two
    compute-and-store runs completes and leaves at most one
    SemesterResults row per (student, semester, academic year) and at most
    one YearlyResults row per (student, academic year), with distinct row
    ids.  A single call appends one row when no row has the key, and
    otherwise overwrites the computed fields of the row that has it, in
    place and under its id, leaving the number of rows unchanged. *)
Theorem one_result_row_per_key calls db :
  results_ok db = true ->
  (exists db',
     run calls db = Some db' /\ results_ok db' = true /\
     NoDup (map (@key _) (rows (SemesterResults db'))) /\
     NoDup (map (@key _) (rows (YearlyResults db')))) /\
  (forall s m y t a r,
     let db1 := add_semester_result db s m y t a r in
     (get_semester_result_by_composite_keys db s m y = None ->
      rows (SemesterResults db1) =
      rows (SemesterResults db) ++
      [TableSpec.mk_row (DBManager.lastrowid (SemesterResults db)) (s, m, y) (t, a, r)]) /\
     (forall old,
        get_semester_result_by_composite_keys db s m y = Some old ->
        rows (SemesterResults db1) =
          map (TableSpec.put semester_key_eqb (s, m, y) (t, a, r))
              (rows (SemesterResults db)) /\
        length (rows (SemesterResults db1)) = length (rows (SemesterResults db)) /\
        In (TableSpec.mk_row (row_id old) (s, m, y) (t, a, r))
           (rows (SemesterResults db1)))) /\
  (forall s y t a r,
     let db1 := add_yearly_result db s y t a r in
     (get_yearly_result_by_composite_keys db s y = None ->
      rows (YearlyResults db1) =
      rows (YearlyResults db) ++
      [TableSpec.mk_row (DBManager.lastrowid (YearlyResults db)) (s, y) (t, a, r)]) /\
     (forall old,
        get_yearly_result_by_composite_keys db s y = Some old ->
        rows (YearlyResults db1) =
          map (TableSpec.put yearly_key_eqb (s, y) (t, a, r))
              (rows (YearlyResults db)) /\
        length (rows (YearlyResults db1)) = length (rows (YearlyResults db)) /\
        In (TableSpec.mk_row (row_id old) (s, y) (t, a, r))
           (rows (YearlyResults db1)))).
Proof.
  intros Hok. split; [|split].
  - revert db Hok. induction calls as [|c calls IH]; intros db Hok; simpl.
    + exists db. split; [reflexivity|]. split; [exact Hok|].
      apply StoreFacts.results_ok_iff in Hok. destruct Hok as [[_ Hs] [_ Hy]]. auto.
    + destruct (perform_keeps_constraints c db Hok) as [db1 [Hp Hok1]].
      rewrite Hp. now apply IH.
  - apply StoreFacts.results_ok_iff in Hok. destruct Hok as [Hs _].
    intros s m y t a r db1. split.
    + intros Hnone.
      exact (TableFacts.add_item_insert SemesterKey semester_key_eqb
               UniqueFacts.semester_key_eqb_eq (SemesterResults db)
               ((s, m, y), (t, a, r)) Hs Hnone).
    + intros old Hsome.
      destruct (TableFacts.add_item_overwrite SemesterKey semester_key_eqb
                  UniqueFacts.semester_key_eqb_eq (SemesterResults db)
                  ((s, m, y), (t, a, r)) old Hs Hsome) as [Hrows Hin].
      split; [exact Hrows|]. split; [|exact Hin].
      change (rows (SemesterResults db1))
        with (rows (TableSpec.add_item semester_key_eqb (SemesterResults db)
                      ((s, m, y), (t, a, r)))).
      rewrite Hrows. apply length_map.
  - apply StoreFacts.results_ok_iff in Hok. destruct Hok as [_ Hy].
    intros s y t a r db1. split.
    + intros Hnone.
      exact (TableFacts.add_item_insert YearlyKey yearly_key_eqb
               UniqueFacts.yearly_key_eqb_eq (YearlyResults db)
               ((s, y), (t, a, r)) Hy Hnone).
    + intros old Hsome.
      destruct (TableFacts.add_item_overwrite YearlyKey yearly_key_eqb
                  UniqueFacts.yearly_key_eqb_eq (YearlyResults db)
                  ((s, y), (t, a, r)) old Hy Hsome) as [Hrows Hin].
      split; [exact Hrows|]. split; [|exact Hin].
      change (rows (YearlyResults db1))
        with (rows (TableSpec.add_item yearly_key_eqb (YearlyResults db)
                      ((s, y), (t, a, r)))).
      rewrite Hrows. apply length_map.
Qed.

Lemma one_result_row_per_key_witness :
  exists db',
    run [ComputeSemesterResults 1 1; AddSemesterResult 1 1 1 (50#1) (50#1) 9;
         ComputeSemesterResults 1 2; ComputeYearlyResults 1;
         AddYearlyResult 1 1 (1#1) (1#1) 1; ComputeSemesterResults 1 1]
        Sample.school = Some db' /\
    NoDup (map (@key _) (rows (SemesterResults db'))) /\
    NoDup (map (@key _) (rows (YearlyResults db'))) /\
    length (rows (SemesterResults db')) = 6%nat /\
    length (rows (YearlyResults db')) = 3%nat.
Proof.
  destruct (one_result_row_per_key
              [ComputeSemesterResults 1 1; AddSemesterResult 1 1 1 (50#1) (50#1) 9;
               ComputeSemesterResults 1 2; ComputeYearlyResults 1;
               AddYearlyResult 1 1 (1#1) (1#1) 1; ComputeSemesterResults 1 1]
              Sample.school eq_refl) as [[db' [Hrun [_ [Hs Hy]]]] _].
  exists db'. split; [exact Hrun|]. split; [exact Hs|]. split; [exact Hy|].
  vm_compute in Hrun. injection Hrun as <-. split; reflexivity.
Defined.

Import ClassifySpec.


(** ** Exams that are neither a semester exam nor a CAT *)

Module ClassifyFacts.
Import QFacts.

Lemma Qplus_comm_eq (a b : Q) : (a + b)%Q = (b + a)%Q.
Proof.
  destruct a as [an ad], b as [bn bd]. unfold Qplus. simpl.
  f_equal; [ring|apply Pos.mul_comm].
Qed.

Lemma Qplus_assoc_eq (a b c : Q) : (a + b + c)%Q = (a + (b + c))%Q.
Proof.
  destruct a as [an ad], b as [bn bd], c as [cn cd]. unfold Qplus. simpl.
  f_equal; [rewrite !Pos2Z.inj_mul; ring|symmetry; apply Pos.mul_assoc].
Qed.

(** Sums do not depend on the order of their terms. *)
Lemma sum_Permutation l l' :
  Permutation l l' -> forall a, fold_left Qplus l a = fold_left Qplus l' a.
Proof.
  induction 1 as [|x l l' _ IH|x y l|l l' l'' _ IH1 _ IH2]; intros a; simpl.
  - reflexivity.
  - apply IH.
  - f_equal. rewrite !Qplus_assoc_eq. f_equal. apply Qplus_comm_eq.
  - now rewrite IH1.
Qed.

Lemma flat_map_filter_inner (A B : Type) (P : A -> bool) (c : A -> bool) (x : A -> B) l :
  flat_map (fun a => if c a then [x a] else []) (filter P l) =
  flat_map (fun a => if c a && P a then [x a] else []) l.
Proof.
  induction l as [|a l IH]; simpl; [reflexivity|].
  destruct (P a); simpl; rewrite IH.
  - now rewrite andb_true_r.
  - now rewrite andb_false_r.
Qed.









Lemma NoDup_map_inj_on (A B : Type) (f : A -> B) l :
  NoDup l -> (forall x y, In x l -> In y l -> f x = f y -> x = y) -> NoDup (map f l).
Proof.
  induction 1 as [|a l Ha _ IH]; simpl; intros Hinj; constructor.
  - intros Hin. apply in_map_iff in Hin. destruct Hin as [b [Hb Hin]].
    assert (b = a) by (apply Hinj; auto). now subst.
  - apply IH. intros x y Hx Hy. apply Hinj; now right.
Qed.

(** With [Subjects.id] a primary key, a subject is listed once. *)
Lemma subject_ids_NoDup db s ay sem :
  subjects_ok db = true ->
  NoDup (map fst (subjects_with_results db s ay sem)).
Proof.
  intros Hok. apply (UniqueFacts.uniqueb_NoDup _ Z.eqb Z.eqb_eq) in Hok.
  apply NoDup_map_inj_on.
  - apply SemesterFacts.distinct_NoDup. apply SemesterFacts.subject_eqb_eq.
  - intros [s1 n1] [s2 n2] H1 H2 Heq. simpl in Heq. subst s2.
    apply SemesterFacts.subjects_with_results_In in H1, H2.
    destruct H1 as [_ [_ [sub1 [_ [Hsub1 [_ [Hpk1 Hn1]]]]]]].
    destruct H2 as [_ [_ [sub2 [_ [Hsub2 [_ [Hpk2 Hn2]]]]]]].
    assert (sub1 = sub2)
      by (apply (UniqueFacts.NoDup_map_inj _ _ subject_pk (Subjects db)); auto; congruence).
    subst. reflexivity.
Qed.

Lemma NoDup_filter_list (A : Type) (f : A -> bool) l : NoDup l -> NoDup (filter f l).
Proof.
  induction 1 as [|a l Ha _ IH]; simpl; [constructor|].
  destruct (f a); [|exact IH]. constructor; [|exact IH].
  intros Hin. apply filter_In in Hin. tauto.
Qed.






End ClassifyFacts.


(** ** The queries against the tables *)

Module RefineFacts.
Import MarksSpec.

Lemma in_scope_of_semester ay sem e : in_scope ay sem e = of_semester ay sem e.
Proof.
  unfold in_scope, of_semester. destruct (exam_semester_id e); [apply andb_comm|].
  apply andb_false_r.
Qed.

Lemma NoDup_flat_map_proj (A B : Type) (pr : B -> A) (g : A -> list B) l :
  NoDup l -> (forall a, NoDup (g a)) -> (forall a x, In x (g a) -> pr x = a) ->
  NoDup (flat_map g l).
Proof.
  intros Hl Hg Hpr. induction Hl as [|a l Ha Hl IH]; simpl; [constructor|].
  apply NoDup_app; [apply Hg|exact IH|].
  intros x Hx Hx'. apply in_flat_map in Hx'. destruct Hx' as [a' [Ha' Hx']].
  apply Hpr in Hx, Hx'. congruence.
Qed.

(** *** The order of the index *)

Lemma index_leb_iff a b :
  index_leb a b = true <->
  (er_student_id a < er_student_id b \/
   er_student_id a = er_student_id b /\
   (er_exam_id a < er_exam_id b \/
    er_exam_id a = er_exam_id b /\ er_subject_id a <= er_subject_id b))%Z.
Proof.
  unfold index_leb.
  rewrite orb_true_iff, andb_true_iff, orb_true_iff, andb_true_iff.
  rewrite !Z.ltb_lt, !Z.eqb_eq, Z.leb_le. reflexivity.
Qed.

Lemma index_leb_total a b : index_leb a b = false -> index_leb b a = true.
Proof.
  intros H. apply index_leb_iff.
  destruct (index_leb b a) eqn:E; [now apply index_leb_iff|].
  exfalso.
  assert (Hab : ~ index_leb a b = true) by congruence.
  assert (Hba : ~ index_leb b a = true) by congruence.
  rewrite index_leb_iff in Hab, Hba. lia.
Qed.

Lemma index_leb_trans a b c :
  index_leb a b = true -> index_leb b c = true -> index_leb a c = true.
Proof. rewrite !index_leb_iff. lia. Qed.

Local Abbreviation by_index := (fun a b : ExamResult => index_leb a b = true).

Lemma insert_by_index_sorted x l :
  StronglySorted by_index l -> StronglySorted by_index (insert_by_index x l).
Proof.
  induction 1 as [|y l Hl IH Hy]; simpl; [repeat constructor|].
  destruct (index_leb x y) eqn:E.
  - constructor; [now constructor|]. constructor; [exact E|].
    rewrite Forall_forall in *. intros z Hz.
    apply (index_leb_trans x y z E). now apply Hy.
  - constructor; [exact IH|]. rewrite Forall_forall in *. intros z Hz.
    apply (Permutation_in _ (Permutation_sym (SemesterFacts.insert_by_index_Permutation x l))) in Hz.
    destruct Hz as [<-|Hz]; [now apply index_leb_total|now apply Hy].
Qed.

Lemma index_scan_sorted l : StronglySorted by_index (index_scan l).
Proof.
  induction l as [|x l IH]; simpl; [constructor|]. now apply insert_by_index_sorted.
Qed.

(** The first answer of a query over a sorted scan comes from the least
    row that has an answer. *)
Lemma first_answer_least (A B : Type) (R : A -> A -> Prop) (pr : B -> A)
      (g : A -> list B) (f : B -> bool) l :
  StronglySorted R l -> (forall a x, In x (g a) -> pr x = a) ->
  forall p rest, filter f (flat_map g l) = p :: rest ->
  forall q, In q (p :: rest) -> pr q = pr p \/ R (pr p) (pr q).
Proof.
  intros Hs Hpr. induction Hs as [|a l Hl IH Ha]; simpl; intros p rest H q Hq;
    [discriminate|].
  rewrite filter_app in H.
  destruct (filter f (g a)) as [|x xs] eqn:E; simpl in H; [now apply (IH p rest)|].
  injection H as -> Hrest.
  assert (Hp : pr p = a).
  { apply Hpr. assert (Hin : In p (filter f (g a))) by (rewrite E; now left).
    now apply filter_In in Hin. }
  destruct Hq as [<-|Hq]; [now left|]. rewrite <- Hrest in Hq.
  apply in_app_or in Hq. destruct Hq as [Hq|Hq].
  - left. rewrite Hp. apply Hpr.
    assert (Hin : In q (filter f (g a))) by (rewrite E; now right).
    now apply filter_In in Hin.
  - right. apply filter_In in Hq. destruct Hq as [Hq _].
    apply in_flat_map in Hq. destruct Hq as [a' [Ha' Hq]].
    apply Hpr in Hq. rewrite Hp, Hq. rewrite Forall_forall in Ha. now apply Ha.
Qed.

(** *** The least exam *)

Lemma fold_earlier_least l : forall p,
  In (fold_left earlier l p) (p :: l) /\
  forall q, In q (p :: l) ->
            (exam_pk (snd (fold_left earlier l p)) <= exam_pk (snd q))%Z.
Proof.
  induction l as [|x l IH]; intros p; simpl.
  - split; [now left|]. intros q [<-|[]]. lia.
  - destruct (IH (earlier p x)) as [Hin Hle]. split.
    + destruct Hin as [Hin|Hin]; [|now right; right].
      rewrite <- Hin. unfold earlier.
      destruct (exam_pk (snd x) <? exam_pk (snd p))%Z; [right; now left|now left].
    + assert (Hm : (exam_pk (snd (earlier p x)) <= exam_pk (snd p) /\
                    exam_pk (snd (earlier p x)) <= exam_pk (snd x))%Z).
      { unfold earlier.
        destruct (Z.ltb_spec (exam_pk (snd x)) (exam_pk (snd p))); lia. }
      pose proof (Hle (earlier p x) (or_introl eq_refl)) as H0.
      intros q [<-|[<-|Hq]]; [lia|lia|]. apply Hle. now right.
Qed.

Lemma least_exam_Some l p :
  least_exam l = Some p ->
  In p l /\ forall q, In q l -> (exam_pk (snd p) <= exam_pk (snd q))%Z.
Proof.
  destruct l as [|x l]; simpl; [discriminate|]. intros [= <-].
  apply fold_earlier_least.
Qed.

Lemma least_exam_None l : least_exam l = None -> l = [].
Proof. destruct l; [reflexivity|discriminate]. Qed.

Lemma mean_Permutation l l' : Permutation l l' -> mean_or_zero l = mean l'.
Proof.
  intros H. destruct l as [|x l], l' as [|y l']; simpl.
  - reflexivity.
  - apply Permutation_nil in H. discriminate.
  - apply Permutation_sym, Permutation_nil in H. discriminate.
  - unfold sum. rewrite (ClassifyFacts.sum_Permutation _ _ H 0%Q).
    unfold len. now rewrite (Permutation_length H).
Qed.

(** *** The queries of a semester run *)

Section Refine.
Variable semester_exam_name cat_name : string -> bool.
Variable db : DB.
Variables ay sem : Z.
Hypothesis exams_key : NoDup (map exam_pk (Exams db)).
Hypothesis results_key :
  NoDup (map (fun er => (er_student_id er, er_exam_id er, er_subject_id er))
             (ExamResults db)).
Hypothesis subjects_key : NoDup (map subject_pk (Subjects db)).
Hypothesis semester_names :
  forall e, In e (Exams db) -> of_semester ay sem e = true ->
            Text.like2 "Semester" "Exam" (exam_name e) = semester_exam_name (exam_name e).
Hypothesis cat_names :
  forall e, In e (Exams db) -> of_semester ay sem e = true ->
            Text.like "CAT" (exam_name e) = cat_name (exam_name e).

Local Abbreviation marks_of :=
  (fun p : ExamResult * Exam => (marks (fst p), max_marks (snd p))).

Lemma exam_of_Some er e :
  exam_of db er = Some e <-> In e (Exams db) /\ exam_pk e = er_exam_id er.
Proof.
  unfold exam_of. split.
  - intros H. apply find_some in H. destruct H as [Hin He]. apply Z.eqb_eq in He. auto.
  - intros [Hin He].
    destruct (find (fun e0 => (exam_pk e0 =? er_exam_id er)%Z) (Exams db)) as [e'|] eqn:E.
    + apply find_some in E. destruct E as [Hin' He']. apply Z.eqb_eq in He'.
      f_equal. apply (UniqueFacts.NoDup_map_inj _ _ exam_pk (Exams db)); auto. congruence.
    + apply (find_none _ _ E) in Hin. simpl in Hin. rewrite He, Z.eqb_refl in Hin.
      discriminate.
Qed.

Lemma results_of_In s subject er e :
  In (er, e) (results_of db s subject ay sem) <->
  In er (ExamResults db) /\ In e (Exams db) /\ exam_pk e = er_exam_id er /\
  er_student_id er = s /\ er_subject_id er = subject /\ of_semester ay sem e = true.
Proof.
  unfold results_of. rewrite in_flat_map. split.
  - intros [er' [Her H]]. destruct (exam_of db er') as [e'|] eqn:E; [|contradiction].
    apply exam_of_Some in E. destruct E as [He Hpk].
    destruct ((er_student_id er' =? s)%Z && (er_subject_id er' =? subject)%Z
              && of_semester ay sem e') eqn:Ec; [|contradiction].
    destruct H as [[= <- <-]|[]].
    apply andb_true_iff in Ec. destruct Ec as [Ec E3].
    apply andb_true_iff in Ec. destruct Ec as [E1 E2]. apply Z.eqb_eq in E1, E2.
    repeat split; assumption.
  - intros [Her [He [Hpk [H1 [H2 H3]]]]]. exists er. split; [exact Her|].
    rewrite (proj2 (exam_of_Some er e) (conj He Hpk)).
    rewrite H1, H2, !Z.eqb_refl, H3. now left.
Qed.



(** The rows a per-subject query of the run selects are the results of
    the student in the subject whose exam has such a name. *)
Lemma subject_rows_In s subject (like name : string -> bool) p :
  (forall e, In e (Exams db) -> of_semester ay sem e = true ->
             like (exam_name e) = name (exam_name e)) ->
  In p (filter (fun p => (er_subject_id (fst p) =? subject)%Z && like (exam_name (snd p)))
               (scoped_results db s ay sem)) <->
  In p (filter (fun p => name (exam_name (snd p))) (results_of db s subject ay sem)).
Proof.
  intros Hname. destruct p as [er e]. rewrite !filter_In.
  rewrite SemesterFacts.scoped_results_In, results_of_In, in_scope_of_semester.
  cbn [fst snd]. rewrite andb_true_iff, Z.eqb_eq. split.
  - intros [[Her [He [Hpk [Hs Hsc]]]] [Hsub Hl]].
    rewrite (Hname e He Hsc) in Hl. repeat split; auto; congruence.
  - intros [[Her [He [Hpk [Hs [Hsub Hsc]]]]] Hn].
    rewrite <- (Hname e He Hsc) in Hn. repeat split; auto; congruence.
Qed.

Lemma exam_results_NoDup : NoDup (ExamResults db).
Proof. now apply NoDup_map_inv in results_key. Qed.

Lemma exams_NoDup : NoDup (Exams db).
Proof. now apply NoDup_map_inv in exams_key. Qed.

Lemma scoped_results_NoDup s : NoDup (scoped_results db s ay sem).
Proof.
  unfold scoped_results. apply (NoDup_flat_map_proj _ _ fst).
  - apply (Permutation_NoDup (SemesterFacts.index_scan_Permutation _)).
    apply exam_results_NoDup.
  - intros er. apply (NoDup_flat_map_proj _ _ snd).
    + apply exams_NoDup.
    + intros e. destruct (_ && _); repeat constructor. intros [].
    + intros e x. destruct (_ && _); [|intros []]. now intros [<-|[]].
  - intros er x Hx. apply in_flat_map in Hx. destruct Hx as [e [_ Hx]].
    destruct (_ && _); [|contradiction]. now destruct Hx as [<-|[]].
Qed.

Lemma results_of_NoDup s subject : NoDup (results_of db s subject ay sem).
Proof.
  unfold results_of. apply (NoDup_flat_map_proj _ _ fst).
  - apply exam_results_NoDup.
  - intros er. destruct (exam_of db er); [|constructor].
    destruct (_ && _); repeat constructor. intros [].
  - intros er x. destruct (exam_of db er); [|intros []].
    destruct (_ && _); [|intros []]. now intros [<-|[]].
Qed.

(** Two results of one student in one subject in the same exam are the
    same row. *)
Lemma result_unique s subject p q :
  In p (results_of db s subject ay sem) -> In q (results_of db s subject ay sem) ->
  exam_pk (snd p) = exam_pk (snd q) -> p = q.
Proof.
  destruct p as [er e], q as [er' e']. rewrite !results_of_In. cbn [snd].
  intros [Her [He [Hpk [Hs [Hsub _]]]]] [Her' [He' [Hpk' [Hs' [Hsub' _]]]]] Heq.
  assert (e = e') by (apply (UniqueFacts.NoDup_map_inj _ _ exam_pk (Exams db)); auto).
  subst e'. f_equal.
  apply (UniqueFacts.NoDup_map_inj _ _
           (fun er => (er_student_id er, er_exam_id er, er_subject_id er))
           (ExamResults db)); auto.
  cbv beta. congruence.
Qed.

(** The first row a per-student query answers is in the exam with the
    least id among the rows it answers. *)
Lemma first_row_least s (f : ExamResult * Exam -> bool) p rest :
  filter f (scoped_results db s ay sem) = p :: rest ->
  forall q, In q (p :: rest) -> (exam_pk (snd p) <= exam_pk (snd q))%Z.
Proof.
  intros H q Hq.
  assert (Hall : forall x, In x (p :: rest) -> In x (scoped_results db s ay sem)).
  { intros x Hx. rewrite <- H in Hx. now apply filter_In in Hx. }
  assert (Hpr : forall (a : ExamResult) (x : ExamResult * Exam),
             In x (flat_map (fun e =>
                     if ((er_exam_id a =? exam_pk e) && (er_student_id a =? s))%Z
                        && in_scope ay sem e
                     then [(a, e)] else []) (Exams db)) -> fst x = a).
  { intros a x Hx. apply in_flat_map in Hx. destruct Hx as [e [_ Hx]].
    destruct (_ && _); [|contradiction]. now destruct Hx as [<-|[]]. }
  pose proof (first_answer_least ExamResult (ExamResult * Exam)
                (fun a b => index_leb a b = true) fst _ f
                (index_scan (ExamResults db)) (index_scan_sorted (ExamResults db))
                Hpr p rest H q Hq) as Hc.
  pose proof (Hall p (or_introl eq_refl)) as Hp. pose proof (Hall q Hq) as Hq'.
  destruct p as [er e], q as [er' e'].
  apply SemesterFacts.scoped_results_In in Hp, Hq'.
  destruct Hp as [_ [_ [Hpk [Hs _]]]], Hq' as [_ [_ [Hpk' [Hs' _]]]].
  cbn [fst snd] in *. rewrite <- Hpk, <- Hpk'.
  destruct Hc as [->|Hc]; [lia|]. apply index_leb_iff in Hc. lia.
Qed.

(** [fetch_one] on [sem_exam_query] answers the semester exam with the
    least exam id. *)
Lemma sem_exam_result_refines s subject :
  sem_exam_result db s subject ay sem =
  option_map marks_of (semester_exam_result semester_exam_name db s subject ay sem).
Proof.
  unfold sem_exam_result, semester_exam_result.
  pose proof (fun p => subject_rows_In s subject (Text.like2 "Semester" "Exam")
                         semester_exam_name p semester_names) as Hmem.
  destruct (filter (fun p => (er_subject_id (fst p) =? subject)%Z &&
                             Text.like2 "Semester" "Exam" (exam_name (snd p)))
                   (scoped_results db s ay sem)) as [|p rest] eqn:EC.
  - destruct (least_exam _) as [m|] eqn:E; [|reflexivity].
    apply least_exam_Some in E. destruct E as [Hin _]. apply Hmem in Hin. contradiction.
  - assert (Hp : In p (filter (fun p => semester_exam_name (exam_name (snd p)))
                              (results_of db s subject ay sem)))
      by (apply Hmem; now left).
    destruct (least_exam _) as [m|] eqn:E;
      [|apply least_exam_None in E; rewrite E in Hp; contradiction].
    apply least_exam_Some in E. destruct E as [Hm Hle].
    assert (Heq : m = p); [|now rewrite Heq].
    assert (HmC : In m (p :: rest)) by now apply Hmem.
    apply (result_unique s subject m p).
    + now apply filter_In in Hm.
    + now apply filter_In in Hp.
    + apply Z.le_antisymm; [now apply Hle|].
      now apply (first_row_least s _ p rest EC).
Qed.

(** [fetch_all] on [cat_query] answers the CATs, in some order. *)
Lemma cat_results_refine s subject :
  Permutation (cat_results db s subject ay sem)
              (map marks_of (cat_results_of cat_name db s subject ay sem)).
Proof.
  unfold cat_results, cat_results_of. apply Permutation_map.
  apply NoDup_Permutation.
  - apply NoDup_filter, scoped_results_NoDup.
  - apply NoDup_filter, results_of_NoDup.
  - intros p. now apply subject_rows_In.
Qed.

(** What a subject contributes, as the run computes it and as the tables
    give it. *)
Lemma subject_totals_refine s subject :
  subject_totals db s subject ay sem =
  (achieved semester_exam_name cat_name db s ay sem subject,
   possible semester_exam_name cat_name db s ay sem subject).
Proof.
  unfold subject_totals, achieved, possible. cbv zeta.
  rewrite sem_exam_result_refines.
  pose proof (cat_results_refine s subject) as Hcat.
  assert (H1 : mean_or_zero (map fst (cat_results db s subject ay sem)) =
               mean (map (fun p => marks (fst p))
                         (cat_results_of cat_name db s subject ay sem))).
  { apply mean_Permutation.
    apply (Permutation_map fst) in Hcat. now rewrite map_map in Hcat. }
  assert (H2 : mean_or_zero (map snd (cat_results db s subject ay sem)) =
               mean (map (fun p => max_marks (snd p))
                         (cat_results_of cat_name db s subject ay sem))).
  { apply mean_Permutation.
    apply (Permutation_map snd) in Hcat. now rewrite map_map in Hcat. }
  rewrite H1, H2.
  now destruct (semester_exam_result semester_exam_name db s subject ay sem).
Qed.

(** *** The subjects and the totals *)

Lemma subjects_refine s :
  Permutation (map fst (subjects_with_results db s ay sem)) (subjects_of db s ay sem).
Proof.
  apply NoDup_Permutation.
  - apply ClassifyFacts.subject_ids_NoDup.
    now apply (UniqueFacts.uniqueb_NoDup _ Z.eqb Z.eqb_eq).
  - unfold subjects_of. now apply NoDup_filter.
  - intros subject. unfold subjects_of. rewrite filter_In, !in_map_iff. split.
    + intros [[sj name] [<- Hin]]. cbn [fst].
      apply SemesterFacts.subjects_with_results_In in Hin.
      destruct Hin as [er [e [sub [Hp [Hsub [He [-> _]]]]]]]. split; [eauto|].
      assert (Hr : In (er, e) (results_of db s (subject_pk sub) ay sem)).
      { apply SemesterFacts.scoped_results_In in Hp.
        destruct Hp as [Her [Hex [Hpk [Hs Hsc]]]]. apply results_of_In.
        rewrite in_scope_of_semester in Hsc. repeat split; auto. }
      destruct (results_of db s (subject_pk sub) ay sem); [contradiction|reflexivity].
    + intros [[sub [<- Hsub]] Hne].
      destruct (results_of db s (subject_pk sub) ay sem) as [|[er e] l] eqn:E;
        [discriminate|].
      assert (Hr : In (er, e) (results_of db s (subject_pk sub) ay sem))
        by (rewrite E; now left).
      apply results_of_In in Hr. destruct Hr as [Her [Hex [Hpk [Hs [Hsj Hsc]]]]].
      exists (subject_pk sub, subject_name sub). split; [reflexivity|].
      apply SemesterFacts.subjects_with_results_In. exists er, e, sub.
      split; [|auto]. apply SemesterFacts.scoped_results_In.
      rewrite in_scope_of_semester. repeat split; auto.
Qed.

Lemma achieved_refines s subject :
  AggregateSpec.achieved db s ay sem subject =
  achieved semester_exam_name cat_name db s ay sem subject.
Proof.
  pose proof (subject_totals_refine s subject) as H.
  rewrite SemesterFacts.subject_totals_spec in H. exact (f_equal fst H).
Qed.

Lemma possible_refines s subject :
  AggregateSpec.possible db s ay sem subject =
  possible semester_exam_name cat_name db s ay sem subject.
Proof.
  pose proof (subject_totals_refine s subject) as H.
  rewrite SemesterFacts.subject_totals_spec in H. exact (f_equal snd H).
Qed.

Lemma counted_refine s :
  Permutation (AggregateSpec.counted_subjects db s ay sem)
              (counted semester_exam_name cat_name db s ay sem).
Proof.
  unfold AggregateSpec.counted_subjects, counted.
  pose proof (subjects_refine s) as Hperm.
  apply NoDup_Permutation.
  - apply NoDup_filter. apply ClassifyFacts.subject_ids_NoDup.
    now apply (UniqueFacts.uniqueb_NoDup _ Z.eqb Z.eqb_eq).
  - apply NoDup_filter. unfold subjects_of. now apply NoDup_filter.
  - intros subject. rewrite !filter_In, possible_refines. split.
    + intros [Hin Hp]. split; [|exact Hp]. now apply (Permutation_in _ Hperm).
    + intros [Hin Hp]. split; [|exact Hp].
      now apply (Permutation_in _ (Permutation_sym Hperm)).
Qed.

Lemma totals_refine s :
  AggregateSpec.total_achieved db s ay sem =
    total_achieved semester_exam_name cat_name db s ay sem /\
  AggregateSpec.total_possible db s ay sem =
    total_possible semester_exam_name cat_name db s ay sem /\
  AggregateSpec.percentage db s ay sem =
    percentage semester_exam_name cat_name db s ay sem.
Proof.
  pose proof (counted_refine s) as Hperm.
  assert (Ha : AggregateSpec.total_achieved db s ay sem =
               total_achieved semester_exam_name cat_name db s ay sem).
  { unfold AggregateSpec.total_achieved, total_achieved, sum.
    rewrite (map_ext _ _ (achieved_refines s)).
    apply ClassifyFacts.sum_Permutation. now apply Permutation_map. }
  assert (Hp : AggregateSpec.total_possible db s ay sem =
               total_possible semester_exam_name cat_name db s ay sem).
  { unfold AggregateSpec.total_possible, total_possible, sum.
    rewrite (map_ext _ _ (possible_refines s)).
    apply ClassifyFacts.sum_Permutation. now apply Permutation_map. }
  split; [exact Ha|]. split; [exact Hp|].
  unfold AggregateSpec.percentage, percentage. now rewrite Ha, Hp.
Qed.
End Refine.

End RefineFacts.

(** ** The exams a semester run reads *)

Module ExamScopeFacts.
Import MarksSpec NameSpec.

Lemma fold_left_ext2 (A B : Type) (f g : A -> B -> A) l :
  (forall a b, f a b = g a b) -> forall i, fold_left f l i = fold_left g l i.
Proof.
  intros H. induction l as [|x l IH]; simpl; intros i; [reflexivity|].
  now rewrite H, IH.
Qed.


(** The join reads an [Exams] table through its exams of the semester. *)
Lemma scoped_results_scope db exams s ay sem :
  scoped_results (with_exams exams db) s ay sem =
  scoped_results (with_exams (filter (of_semester ay sem) exams) db) s ay sem.
Proof.
  unfold scoped_results. cbn [Exams ExamResults with_exams].
  apply flat_map_ext. intros er.
  rewrite (ClassifyFacts.flat_map_filter_inner Exam (ExamResult * Exam)
             (of_semester ay sem)
             (fun e => ((er_exam_id er =? exam_pk e) && (er_student_id er =? s))%Z
                       && in_scope ay sem e)
             (fun e => (er, e))).
  apply flat_map_ext. intros e. rewrite RefineFacts.in_scope_of_semester.
  destruct (of_semester ay sem e); destruct (er_exam_id er =? exam_pk e)%Z;
    destruct (er_student_id er =? s)%Z; reflexivity.
Qed.

Section Exams.
Variable db : DB.
Variables exams exams' : list Exam.
Variables ay sem : Z.
Hypothesis same_scope :
  filter (of_semester ay sem) exams = filter (of_semester ay sem) exams'.

Lemma scoped_results_exams s :
  scoped_results (with_exams exams db) s ay sem =
  scoped_results (with_exams exams' db) s ay sem.
Proof.
  rewrite (scoped_results_scope db exams), (scoped_results_scope db exams').
  now rewrite same_scope.
Qed.

Lemma subject_totals_exams s subject :
  subject_totals (with_exams exams db) s subject ay sem =
  subject_totals (with_exams exams' db) s subject ay sem.
Proof.
  unfold subject_totals, sem_exam_result, cat_results.
  now rewrite scoped_results_exams.
Qed.

Lemma semester_totals_exams s :
  semester_totals (with_exams exams db) s ay sem =
  semester_totals (with_exams exams' db) s ay sem.
Proof.
  unfold semester_totals, subjects_with_results. rewrite scoped_results_exams.
  cbn [Subjects with_exams]. apply fold_left_ext2. intros acc subject_entry.
  unfold count_subject. now rewrite subject_totals_exams.
Qed.

Lemma student_result_exams si :
  student_result (with_exams exams db) ay sem si =
  student_result (with_exams exams' db) ay sem si.
Proof.
  unfold student_result, student_exam_results, student_subjects_in_semester.
  rewrite scoped_results_exams, semester_totals_exams. reflexivity.
Qed.

Lemma ranked_semester_data_exams :
  ranked_semester_data (with_exams exams db) ay sem =
  ranked_semester_data (with_exams exams' db) ay sem.
Proof.
  unfold ranked_semester_data, student_semester_data.
  change (students_in_year (with_exams exams db) ay) with (students_in_year db ay).
  change (students_in_year (with_exams exams' db) ay) with (students_in_year db ay).
  rewrite (fold_left_ext2 _ _
             (fun d student_info =>
                match student_result (with_exams exams db) ay sem student_info with
                | Some e => Dict.set d (fst student_info) e
                | None => d
                end)
             (fun d student_info =>
                match student_result (with_exams exams' db) ay sem student_info with
                | Some e => Dict.set d (fst student_info) e
                | None => d
                end)); [reflexivity|].
  intros d si. now rewrite student_result_exams.
Qed.
End Exams.

(** *** The conditions on the data *)

Lemma marks_ok_keys db :
  marks_ok db = true ->
  NoDup (map exam_pk (Exams db)) /\
  NoDup (map (fun er => (er_student_id er, er_exam_id er, er_subject_id er))
             (ExamResults db)) /\
  NoDup (map subject_pk (Subjects db)) /\
  subjects_ok db = true.
Proof.
  unfold marks_ok. rewrite !andb_true_iff. intros [[H1 H2] H3].
  apply (UniqueFacts.uniqueb_NoDup _ Z.eqb Z.eqb_eq) in H1.
  apply (UniqueFacts.uniqueb_NoDup _ semester_key_eqb UniqueFacts.semester_key_eqb_eq) in H2.
  pose proof H3 as H3'. apply (UniqueFacts.uniqueb_NoDup _ Z.eqb Z.eqb_eq) in H3'. auto.
Qed.

Lemma names_regular_spec db ay sem :
  names_regular db ay sem = true ->
  forall e, In e (Exams db) -> of_semester ay sem e = true ->
            Text.like2 "Semester" "Exam" (exam_name e) = named_semester_exam (exam_name e) /\
            Text.like "CAT" (exam_name e) = named_cat (exam_name e).
Proof.
  unfold names_regular. rewrite forallb_forall. intros H e He Hsc.
  specialize (H e He). rewrite Hsc in H. simpl in H. apply andb_true_iff in H.
  destruct H as [H1 H2]. apply eqb_prop in H1, H2. auto.
Qed.


End ExamScopeFacts.

Import NameSpec.





(* ================================================================== *)
(** * Further properties of the services *)

(** ** The model classes *)

Module ModelFacts.
Import Models.

Lemma get_notin data k : ~ In k (map fst data) -> get data k = PyNone.
Proof.
  induction data as [|[k0 v] data IH]; simpl; intros H; [reflexivity|].
  destruct (String.eqb_spec k0 k) as [->|Hne]; [exfalso; auto|]. apply IH. tauto.
Qed.

(** Dropping the entries that hold [None] does not change what [get]
    answers, as [get] answers [None] for a missing key. *)
Lemma get_drop_none data k :
  NoDup (map fst data) -> get (drop_none data) k = get data k.
Proof.
  induction data as [|[k0 v] data IH]; simpl; intros Hnd; [reflexivity|].
  inversion Hnd as [|? ? Hk0 Hnd']; subst.
  destruct v; simpl; rewrite ?IH by exact Hnd'; try reflexivity.
  destruct (String.eqb_spec k0 k) as [->|Hne]; [|reflexivity].
  now apply get_notin.
Qed.

Lemma semester_columns_NoDup :
  NoDup ["student_id"; "semester_id"; "academic_year_id"; "total_marks";
         "average_score"; "grade_rank"].
Proof. repeat constructor; simpl; intuition discriminate. Qed.

Lemma yearly_columns_NoDup :
  NoDup ["student_id"; "academic_year_id"; "total_marks"; "average_score"; "grade_rank"].
Proof. repeat constructor; simpl; intuition discriminate. Qed.

End ModelFacts.

(** X1. An object of either model class survives the trip through its
    dictionary in every field but the id: [from_dict (to_dict r)] has the
    fields of [r], also those that hold None and are left out of the
    dictionary, and None as its id. *)
Theorem model_objects_survive_their_dictionary :
  (forall r : Models.SemesterResult,
     Models.semester_from_dict (Models.semester_to_dict r) =
     {| Models.o_id := Models.PyNone;
        Models.o_student_id := Models.o_student_id r;
        Models.o_semester_id := Models.o_semester_id r;
        Models.o_academic_year_id := Models.o_academic_year_id r;
        Models.o_total_marks := Models.o_total_marks r;
        Models.o_average_score := Models.o_average_score r;
        Models.o_grade_rank := Models.o_grade_rank r |}) /\
  (forall r : Models.YearlyResult,
     Models.yearly_from_dict (Models.yearly_to_dict r) =
     {| Models.y_id := Models.PyNone;
        Models.y_student_id := Models.y_student_id r;
        Models.y_academic_year_id := Models.y_academic_year_id r;
        Models.y_total_marks := Models.y_total_marks r;
        Models.y_average_score := Models.y_average_score r;
        Models.y_grade_rank := Models.y_grade_rank r |}).
Proof.
  split; intros r.
  - unfold Models.semester_from_dict, Models.semester_to_dict.
    rewrite !ModelFacts.get_drop_none by exact ModelFacts.semester_columns_NoDup.
    reflexivity.
  - unfold Models.yearly_from_dict, Models.yearly_to_dict.
    rewrite !ModelFacts.get_drop_none by exact ModelFacts.yearly_columns_NoDup.
    reflexivity.
Qed.

(** ** Reading, updating and deleting by id *)

Module ByIdFacts.
Import DBManager DBManagerById TableSpec.

Lemma NoDup_map_filter (A B : Type) (f : A -> B) (p : A -> bool) l :
  NoDup (map f l) -> NoDup (map f (filter p l)).
Proof.
  induction l as [|x l IH]; simpl; intros H; [constructor|].
  inversion H as [|? ? Hx Hl]; subst.
  destruct (p x); simpl; [|now apply IH].
  constructor; [|now apply IH]. intros Hin. apply Hx.
  apply in_map_iff in Hin. destruct Hin as [y [Hy Hin]]. apply filter_In in Hin.
  rewrite <- Hy. apply in_map. tauto.
Qed.

Lemma filter_none_nil (A : Type) (f : A -> bool) l :
  (forall x, In x l -> f x = false) -> filter f l = [].
Proof.
  induction l as [|x l IH]; simpl; intros H; [reflexivity|].
  rewrite (H x (or_introl eq_refl)). apply IH. intros y Hy. apply H. now right.
Qed.

Section Facts.
Variable K : Type.
Implicit Types (t : ResultTable K) (r : ResultRow K) (c : Columns).

Lemma get_by_id_Some t i r : get_by_id t i = Some r -> In r (rows t) /\ row_id r = i.
Proof.
  unfold get_by_id. intros H. apply find_some in H. destruct H as [Hin He].
  apply Z.eqb_eq in He. auto.
Qed.

Lemma get_by_id_None t i : get_by_id t i = None <-> ~ In i (map (@row_id K) (rows t)).
Proof.
  unfold get_by_id. split.
  - intros H Hin. apply in_map_iff in Hin. destruct Hin as [r [Hi Hr]].
    apply (find_none _ _ H) in Hr. simpl in Hr. rewrite Hi, Z.eqb_refl in Hr. discriminate.
  - intros H. destruct (find _ _) eqn:E; [|reflexivity].
    apply find_some in E. destruct E as [Hin He]. apply Z.eqb_eq in He.
    exfalso. apply H. rewrite <- He. now apply in_map.
Qed.

Lemma In_get_by_id t r :
  NoDup (map (@row_id K) (rows t)) -> In r (rows t) -> get_by_id t (row_id r) = Some r.
Proof.
  intros Hnd Hin. destruct (get_by_id t (row_id r)) as [r'|] eqn:E.
  - apply get_by_id_Some in E. destruct E as [Hin' He].
    f_equal. apply (UniqueFacts.NoDup_map_inj _ _ (@row_id K) (rows t)); auto.
  - apply get_by_id_None in E. exfalso. apply E. now apply in_map.
Qed.

Lemma rowcount_pos t i :
  (0 <? rowcount t i)%nat = true <-> In i (map (@row_id K) (rows t)).
Proof.
  unfold rowcount. rewrite Nat.ltb_lt. split.
  - intros H. destruct (filter _ _) as [|r l] eqn:E; [simpl in H; lia|].
    assert (Hin : In r (filter (fun r => (row_id r =? i)%Z) (rows t)))
      by (rewrite E; now left).
    apply filter_In in Hin. destruct Hin as [Hin He]. apply Z.eqb_eq in He.
    rewrite <- He. now apply in_map.
  - intros H. apply in_map_iff in H. destruct H as [r [He Hin]].
    assert (Hf : In r (filter (fun r => (row_id r =? i)%Z) (rows t))).
    { apply filter_In. split; [exact Hin|]. now apply Z.eqb_eq. }
    destruct (filter _ _); [contradiction|simpl; lia].
Qed.

Lemma rowcount_zero t i :
  rowcount t i = 0%nat <-> ~ In i (map (@row_id K) (rows t)).
Proof.
  rewrite <- rowcount_pos, Nat.ltb_lt. lia.
Qed.

(** With ids that are a primary key, a statement [WHERE id = ?] affects
    at most one row. *)
Lemma filter_id_single (l : list (ResultRow K)) i r :
  NoDup (map (@row_id K) l) -> In r l -> row_id r = i ->
  filter (fun r => (row_id r =? i)%Z) l = [r].
Proof.
  induction l as [|x l IH]; simpl; intros Hnd Hin Hi; [contradiction|].
  inversion Hnd as [|? ? Hx Hl]; subst.
  destruct Hin as [->|Hin].
  - rewrite Z.eqb_refl. f_equal.
    apply filter_none_nil.
    intros y Hy. apply Z.eqb_neq. intros He. apply Hx. rewrite <- He. now apply in_map.
  - destruct (Z.eqb_spec (row_id x) (row_id r)) as [He|Hne].
    + exfalso. apply Hx. rewrite He. now apply in_map.
    + now apply IH.
Qed.

Lemma rowcount_one t r :
  NoDup (map (@row_id K) (rows t)) -> In r (rows t) -> rowcount t (row_id r) = 1%nat.
Proof.
  intros Hnd Hin. unfold rowcount. now rewrite (filter_id_single (rows t) (row_id r) r).
Qed.

(** *** [update_one] *)

Lemma ids_update_columns t i c :
  map (@row_id K) (rows (fst (update_columns t i c))) = map (@row_id K) (rows t).
Proof.
  simpl. rewrite map_map. apply map_ext. intros r. now destruct (row_id r =? i)%Z.
Qed.

Lemma keys_update_columns t i c :
  map (@key K) (rows (fst (update_columns t i c))) = map (@key K) (rows t).
Proof.
  simpl. rewrite map_map. apply map_ext. intros r. now destruct (row_id r =? i)%Z.
Qed.

Lemma wf_update_columns t i c : wf t -> wf (fst (update_columns t i c)).
Proof.
  unfold wf. now rewrite ids_update_columns, keys_update_columns.
Qed.

Lemma nth_update_columns t i c n :
  nth_error (rows (fst (update_columns t i c))) n =
  option_map (fun r => if (row_id r =? i)%Z then set_columns c r else r)
             (nth_error (rows t) n).
Proof. simpl. apply nth_error_map. Qed.

Lemma update_columns_absent t i c :
  ~ In i (map (@row_id K) (rows t)) -> fst (update_columns t i c) = t.
Proof.
  intros H. destruct t as [rs a]. simpl in *. f_equal.
  rewrite <- map_id. apply map_ext_in. intros r Hr.
  destruct (Z.eqb_spec (row_id r) i) as [He|Hne]; [|reflexivity].
  exfalso. apply H. rewrite <- He. now apply in_map.
Qed.

(** *** [delete_one] *)

Lemma wf_delete_one t i : wf t -> wf (fst (delete_one t i)).
Proof.
  intros [Hi Hk]. split; simpl; now apply NoDup_map_filter.
Qed.

Lemma delete_one_absent t i :
  ~ In i (map (@row_id K) (rows t)) -> fst (delete_one t i) = t.
Proof.
  intros H. destruct t as [rs a]. simpl in *. f_equal.
  apply RankFacts.filter_all_true. intros r Hr. apply negb_true_iff, Z.eqb_neq.
  intros He. apply H. rewrite <- He. now apply in_map.
Qed.

Lemma In_delete_one t i r :
  In r (rows (fst (delete_one t i))) <-> In r (rows t) /\ row_id r <> i.
Proof.
  simpl. rewrite filter_In, negb_true_iff, Z.eqb_neq. reflexivity.
Qed.

Lemma length_delete_one t i :
  (length (rows (fst (delete_one t i))) + rowcount t i = length (rows t))%nat.
Proof.
  unfold rowcount. simpl. induction (rows t) as [|r l IH]; simpl; [reflexivity|].
  destruct (row_id r =? i)%Z; simpl; lia.
Qed.

Lemma get_by_id_delete_one t i j :
  get_by_id (fst (delete_one t i)) j =
  if (j =? i)%Z then None else get_by_id t j.
Proof.
  unfold get_by_id. simpl. induction (rows t) as [|r l IH]; simpl.
  - now destruct (j =? i)%Z.
  - destruct (Z.eqb_spec (row_id r) i) as [He|Hne]; simpl.
    + rewrite IH. destruct (Z.eqb_spec j i) as [->|Hji]; [reflexivity|].
      destruct (Z.eqb_spec (row_id r) j); [congruence|reflexivity].
    + destruct (Z.eqb_spec (row_id r) j) as [Hj|Hj].
      * destruct (Z.eqb_spec j i); [congruence|reflexivity].
      * exact IH.
Qed.

End Facts.
End ByIdFacts.

Module AddFacts.
Import DBManager DBManagerById TableSpec.

Section Facts.
Variable K : Type.
Variable key_eqb : K -> K -> bool.
Hypothesis key_eqb_eq : forall a b, key_eqb a b = true <-> a = b.
Implicit Types (t : ResultTable K).

Local Abbreviation result_id := (ByIdSpec.result_id key_eqb).

Lemma lastrowid_pos t : (0 < lastrowid t)%Z.
Proof.
  unfold lastrowid. assert (0 <= max_rowid (rows t))%Z; [|lia].
  induction (rows t) as [|r l IH]; simpl; lia.
Qed.

Lemma add_item_row t (it : Item K) :
  wf t ->
  In (mk_row (result_id t (fst it)) (fst it) (snd it)) (rows (add_item key_eqb t it)).
Proof.
  intros Hwf. unfold ByIdSpec.result_id.
  destruct (fetch_one_by_key key_eqb t (fst it)) as [old|] eqn:E.
  - now apply (TableFacts.add_item_overwrite K key_eqb key_eqb_eq t it old Hwf E).
  - rewrite (TableFacts.add_item_insert K key_eqb key_eqb_eq t it Hwf E).
    apply in_or_app. right. now left.
Qed.

(** Both lookups find the row that [add_result] has just written. *)
Lemma add_item_read_back t (it : Item K) :
  wf t ->
  let row := mk_row (result_id t (fst it)) (fst it) (snd it) in
  get_by_id (add_item key_eqb t it) (result_id t (fst it)) = Some row /\
  fetch_one_by_key key_eqb (add_item key_eqb t it) (fst it) = Some row.
Proof.
  intros Hwf row. pose proof (add_item_row t it Hwf) as Hin. fold row in Hin.
  pose proof (TableFacts.wf_add_item K key_eqb key_eqb_eq t it Hwf) as Hwf'.
  split.
  - apply (ByIdFacts.In_get_by_id K (add_item key_eqb t it) row); [apply Hwf'|exact Hin].
  - now apply (TableFacts.In_fetch K key_eqb key_eqb_eq _ (fst it) row Hwf' Hin).
Qed.
End Facts.
End AddFacts.

Module CrudFacts.
Import DBManager DBManagerById TableSpec ByIdSpec.

Section Facts.
Variable K : Type.
Implicit Types (t : ResultTable K).

Lemma update_columns_in_place t i total avg rank :
  updated_in_place t
    (fst (update_columns t i
            {| set_total_marks := total; set_average_score := avg;
               set_grade_rank := rank |}))
    i total avg rank.
Proof.
  split; [simpl; apply length_map|].
  intros n r Hn. rewrite ByIdFacts.nth_update_columns, Hn. cbn [option_map].
  destruct (Z.eqb_spec (row_id r) i) as [He|Hne].
  - eexists. split; [reflexivity|]. cbn. repeat split; try reflexivity. congruence.
  - exists r. repeat split; try reflexivity; congruence.
Qed.

Lemma updated_in_place_refl t i : updated_in_place t t i None None None.
Proof.
  split; [reflexivity|]. intros n r Hn. exists r. repeat split; auto.
Qed.

Lemma delete_one_deleted t i : deleted_from t (fst (delete_one t i)) i.
Proof.
  split; [|split].
  - intros r. apply ByIdFacts.In_delete_one.
  - intros j. apply ByIdFacts.get_by_id_delete_one.
  - apply ByIdFacts.length_delete_one.
Qed.
End Facts.
End CrudFacts.

Import ByIdSpec.

(** X3. [add_semester_result] and [add_yearly_result] never answer None
    on a store that satisfies its keys: they leave the database as
    modelled for the claims and return an object that carries the id of
    the row it was written to (the id of the row that held the key, or the
    new rowid) and that is exactly what [get_*_result_by_id] under that id
    and [get_*_result_by_composite_keys] under the key read back. *)
Theorem added_result_is_returned_and_read_back db :
  results_ok db = true ->
  (forall s m y t a r,
     let out := SemesterResultCrud.add_semester_result_returning db s m y t a r in
     let i := result_id semester_key_eqb (SemesterResults db) (s, m, y) in
     fst out = add_semester_result db s m y t a r /\
     exists obj,
       snd out = Some obj /\ Models.o_id obj = Models.PyInt i /\
       SemesterResultCrud.get_semester_result_by_id (fst out) i = Some obj /\
       SemesterResultCrud.get_semester_result_object (fst out) s m y = Some obj) /\
  (forall s y t a r,
     let out := YearlyResultCrud.add_yearly_result_returning db s y t a r in
     let i := result_id yearly_key_eqb (YearlyResults db) (s, y) in
     fst out = add_yearly_result db s y t a r /\
     exists obj,
       snd out = Some obj /\ Models.y_id obj = Models.PyInt i /\
       YearlyResultCrud.get_yearly_result_by_id (fst out) i = Some obj /\
       YearlyResultCrud.get_yearly_result_object (fst out) s y = Some obj).
Proof.
  intros Hok. destruct (StoreFacts.results_ok_wf db Hok) as [Hs Hy]. split.
  - intros s m y t a r out i.
    assert (Hfst : fst out = add_semester_result db s m y t a r).
    { unfold out, SemesterResultCrud.add_semester_result_returning, add_semester_result,
        DBManager.add_result, get_semester_result_by_composite_keys.
      now destruct (DBManager.fetch_one_by_key semester_key_eqb (SemesterResults db) (s, m, y)). }
    split; [exact Hfst|].
    destruct (AddFacts.add_item_read_back SemesterKey semester_key_eqb
                UniqueFacts.semester_key_eqb_eq (SemesterResults db)
                ((s, m, y), (t, a, r)) Hs) as [Hid Hkey].
    cbn [fst snd] in Hid, Hkey. fold i in Hid, Hkey.
    exists (Models.semester_from_dict
              (Models.semester_row_dict (TableSpec.mk_row i (s, m, y) (t, a, r)))).
    split; [|split; [|split]].
    + unfold out, SemesterResultCrud.add_semester_result_returning,
        get_semester_result_by_composite_keys.
      unfold i, result_id.
      destruct (DBManager.fetch_one_by_key semester_key_eqb (SemesterResults db) (s, m, y))
        as [old|] eqn:E; cbn [snd]; [reflexivity|].
      pose proof (AddFacts.lastrowid_pos SemesterKey (SemesterResults db)) as Hpos.
      destruct (Z.eqb_spec (DBManager.lastrowid (SemesterResults db)) 0) as [H0|_]; [lia|].
      reflexivity.
    + reflexivity.
    + rewrite Hfst. unfold SemesterResultCrud.get_semester_result_by_id.
      change (SemesterResults (add_semester_result db s m y t a r))
        with (TableSpec.add_item semester_key_eqb (SemesterResults db) ((s, m, y), (t, a, r))).
      rewrite Hid. reflexivity.
    + rewrite Hfst. unfold SemesterResultCrud.get_semester_result_object,
        get_semester_result_by_composite_keys.
      change (SemesterResults (add_semester_result db s m y t a r))
        with (TableSpec.add_item semester_key_eqb (SemesterResults db) ((s, m, y), (t, a, r))).
      rewrite Hkey. reflexivity.
  - intros s y t a r out i.
    assert (Hfst : fst out = add_yearly_result db s y t a r).
    { unfold out, YearlyResultCrud.add_yearly_result_returning, add_yearly_result,
        DBManager.add_result, get_yearly_result_by_composite_keys.
      now destruct (DBManager.fetch_one_by_key yearly_key_eqb (YearlyResults db) (s, y)). }
    split; [exact Hfst|].
    destruct (AddFacts.add_item_read_back YearlyKey yearly_key_eqb
                UniqueFacts.yearly_key_eqb_eq (YearlyResults db)
                ((s, y), (t, a, r)) Hy) as [Hid Hkey].
    cbn [fst snd] in Hid, Hkey. fold i in Hid, Hkey.
    exists (Models.yearly_from_dict
              (Models.yearly_row_dict (TableSpec.mk_row i (s, y) (t, a, r)))).
    split; [|split; [|split]].
    + unfold out, YearlyResultCrud.add_yearly_result_returning,
        get_yearly_result_by_composite_keys.
      unfold i, result_id.
      destruct (DBManager.fetch_one_by_key yearly_key_eqb (YearlyResults db) (s, y))
        as [old|] eqn:E; cbn [snd]; [reflexivity|].
      pose proof (AddFacts.lastrowid_pos YearlyKey (YearlyResults db)) as Hpos.
      destruct (Z.eqb_spec (DBManager.lastrowid (YearlyResults db)) 0) as [H0|_]; [lia|].
      reflexivity.
    + reflexivity.
    + rewrite Hfst. unfold YearlyResultCrud.get_yearly_result_by_id.
      change (YearlyResults (add_yearly_result db s y t a r))
        with (TableSpec.add_item yearly_key_eqb (YearlyResults db) ((s, y), (t, a, r))).
      rewrite Hid. reflexivity.
    + rewrite Hfst. unfold YearlyResultCrud.get_yearly_result_object,
        get_yearly_result_by_composite_keys.
      change (YearlyResults (add_yearly_result db s y t a r))
        with (TableSpec.add_item yearly_key_eqb (YearlyResults db) ((s, y), (t, a, r))).
      rewrite Hkey. reflexivity.
Qed.

Lemma added_result_is_returned_and_read_back_witness :
  exists obj,
    snd (SemesterResultCrud.add_semester_result_returning
           Sample.school_with_stale_row 4 1 1 (60#1) (60#1) 2) = Some obj /\
    Models.o_id obj = Models.PyInt 7 /\
    SemesterResultCrud.get_semester_result_by_id
      (fst (SemesterResultCrud.add_semester_result_returning
              Sample.school_with_stale_row 4 1 1 (60#1) (60#1) 2)) 7 = Some obj.
Proof.
  destruct (added_result_is_returned_and_read_back Sample.school_with_stale_row eq_refl)
    as [H _].
  destruct (H 4%Z 1%Z 1%Z (60#1) (60#1) 2%nat) as [_ [obj [H1 [H2 [H3 _]]]]].
  exists obj. split; [exact H1|]. split; [exact H2|exact H3].
Defined.

Lemma no_columns_true_iff total avg rank :
  DBManagerById.no_columns
    {| DBManagerById.set_total_marks := total; DBManagerById.set_average_score := avg;
       DBManagerById.set_grade_rank := rank |} = true <->
  total = None /\ avg = None /\ rank = None.
Proof.
  unfold DBManagerById.no_columns. simpl.
  destruct total, avg, rank; split; try discriminate; try tauto;
    intros [H1 [H2 H3]]; discriminate.
Qed.

(** X4. [update_semester_result] and [update_yearly_result] answer True
    exactly when some column was given and a row has the id; when they
    answer False the database is as it was.  In every case the other tables
    are untouched and the result table keeps every row at its place with
    its id and key: rows with another id are unchanged, and in the row with
    the id a column that was given holds the new value while a column that
    was not given keeps the old one.  The keys of the result tables are
    kept. *)
Theorem update_sets_only_the_given_columns db result_id total avg rank :
  (let out := SemesterResultCrud.update_semester_result db result_id total avg rank in
   (snd out = true <->
    ~ (total = None /\ avg = None /\ rank = None) /\
    In result_id (map (@row_id _) (rows (SemesterResults db)))) /\
   (snd out = false -> fst out = db) /\
   same_but_semester_results db (fst out) /\
   updated_in_place (SemesterResults db) (SemesterResults (fst out))
                    result_id total avg rank /\
   (results_ok db = true -> results_ok (fst out) = true)) /\
  (let out := YearlyResultCrud.update_yearly_result db result_id total avg rank in
   (snd out = true <->
    ~ (total = None /\ avg = None /\ rank = None) /\
    In result_id (map (@row_id _) (rows (YearlyResults db)))) /\
   (snd out = false -> fst out = db) /\
   same_but_yearly_results db (fst out) /\
   updated_in_place (YearlyResults db) (YearlyResults (fst out))
                    result_id total avg rank /\
   (results_ok db = true -> results_ok (fst out) = true)).
Proof.
  split.
  - intros out. unfold SemesterResultCrud.update_semester_result in out.
    destruct (DBManagerById.no_columns _) eqn:En.
    + apply no_columns_true_iff in En. destruct En as [-> [-> ->]]. subst out. cbn [fst snd].
      split; [split; [discriminate|tauto]|]. split; [reflexivity|].
      split; [repeat split|]. split; [|tauto].
      apply CrudFacts.updated_in_place_refl.
    + assert (Hsome : ~ (total = None /\ avg = None /\ rank = None)).
      { intros H. apply no_columns_true_iff in H. congruence. }
      subst out. cbn [DBManagerById.update_columns fst snd].
      split; [|split; [|split; [|split]]].
      * rewrite ByIdFacts.rowcount_pos. tauto.
      * intros H.
        assert (Hno : ~ In result_id (map (@row_id _) (rows (SemesterResults db)))).
        { intros Hin. apply ByIdFacts.rowcount_pos in Hin. congruence. }
        pose proof (ByIdFacts.update_columns_absent SemesterKey (SemesterResults db)
                      result_id
                      {| DBManagerById.set_total_marks := total;
                         DBManagerById.set_average_score := avg;
                         DBManagerById.set_grade_rank := rank |} Hno) as Hsame.
        cbn [DBManagerById.update_columns fst] in Hsame. rewrite Hsame.
        apply SemesterFacts.with_semester_results_same.
      * repeat split.
      * apply (CrudFacts.update_columns_in_place SemesterKey).
      * intros Hok. apply StoreFacts.results_ok_iff in Hok. destruct Hok as [Hs Hy].
        apply StoreFacts.results_ok_iff. split; [|exact Hy].
        exact (ByIdFacts.wf_update_columns SemesterKey (SemesterResults db) result_id _ Hs).
  - intros out. unfold YearlyResultCrud.update_yearly_result in out.
    destruct (DBManagerById.no_columns _) eqn:En.
    + apply no_columns_true_iff in En. destruct En as [-> [-> ->]]. subst out. cbn [fst snd].
      split; [split; [discriminate|tauto]|]. split; [reflexivity|].
      split; [repeat split|]. split; [|tauto].
      apply CrudFacts.updated_in_place_refl.
    + assert (Hsome : ~ (total = None /\ avg = None /\ rank = None)).
      { intros H. apply no_columns_true_iff in H. congruence. }
      subst out. cbn [DBManagerById.update_columns fst snd].
      split; [|split; [|split; [|split]]].
      * rewrite ByIdFacts.rowcount_pos. tauto.
      * intros H.
        assert (Hno : ~ In result_id (map (@row_id _) (rows (YearlyResults db)))).
        { intros Hin. apply ByIdFacts.rowcount_pos in Hin. congruence. }
        pose proof (ByIdFacts.update_columns_absent YearlyKey (YearlyResults db)
                      result_id
                      {| DBManagerById.set_total_marks := total;
                         DBManagerById.set_average_score := avg;
                         DBManagerById.set_grade_rank := rank |} Hno) as Hsame.
        cbn [DBManagerById.update_columns fst] in Hsame. rewrite Hsame.
        apply YearlyFacts.with_yearly_results_same.
      * repeat split.
      * apply (CrudFacts.update_columns_in_place YearlyKey).
      * intros Hok. apply StoreFacts.results_ok_iff in Hok. destruct Hok as [Hs Hy].
        apply StoreFacts.results_ok_iff. split; [exact Hs|].
        exact (ByIdFacts.wf_update_columns YearlyKey (YearlyResults db) result_id _ Hy).
Qed.

Lemma update_sets_only_the_given_columns_witness :
  snd (SemesterResultCrud.update_semester_result Sample.school_with_stale_row 7
         (Some (60#1)) None None) = true /\
  exists r',
    nth_error (rows (SemesterResults
                       (fst (SemesterResultCrud.update_semester_result
                               Sample.school_with_stale_row 7 (Some (60#1)) None None)))) 0
      = Some r' /\
    total_marks r' = 60#1 /\ average_score r' = 50#1 /\ grade_rank r' = 1%nat.
Proof.
  destruct (update_sets_only_the_given_columns Sample.school_with_stale_row 7
              (Some (60#1)) None None) as [[Hret [_ [_ [[_ Hrows] _]]]] _].
  split.
  - apply Hret. split; [intros [H _]; discriminate|simpl; now left].
  - destruct (Hrows 0%nat Sample.stale_row eq_refl) as [r' [Hn [_ [_ [_ Hset]]]]].
    exists r'. split; [exact Hn|]. exact (Hset eq_refl).
Defined.

(** X5. [delete_semester_result] and [delete_yearly_result] answer True
    exactly when a row has the id, and leave the database as it was when
    they answer False.  The other tables are untouched; the result table
    loses the rows with the id and nothing else: every other row is still
    there and still found under its id, and nothing is found under the
    deleted id.  On a store that satisfies its keys exactly one row goes,
    and the keys are kept. *)
Theorem delete_removes_exactly_that_row db result_id :
  (let out := SemesterResultCrud.delete_semester_result db result_id in
   (snd out = true <-> In result_id (map (@row_id _) (rows (SemesterResults db)))) /\
   (snd out = false -> fst out = db) /\
   same_but_semester_results db (fst out) /\
   deleted_from (SemesterResults db) (SemesterResults (fst out)) result_id /\
   SemesterResultCrud.get_semester_result_by_id (fst out) result_id = None /\
   (results_ok db = true ->
    results_ok (fst out) = true /\
    (snd out = true ->
     S (length (rows (SemesterResults (fst out)))) = length (rows (SemesterResults db))))) /\
  (let out := YearlyResultCrud.delete_yearly_result db result_id in
   (snd out = true <-> In result_id (map (@row_id _) (rows (YearlyResults db)))) /\
   (snd out = false -> fst out = db) /\
   same_but_yearly_results db (fst out) /\
   deleted_from (YearlyResults db) (YearlyResults (fst out)) result_id /\
   YearlyResultCrud.get_yearly_result_by_id (fst out) result_id = None /\
   (results_ok db = true ->
    results_ok (fst out) = true /\
    (snd out = true ->
     S (length (rows (YearlyResults (fst out)))) = length (rows (YearlyResults db))))).
Proof.
  split.
  - intros out. subst out. unfold SemesterResultCrud.delete_semester_result.
    cbn [DBManagerById.delete_one fst snd].
    split; [apply ByIdFacts.rowcount_pos|]. split; [|split; [|split; [|split]]].
    + intros H.
      assert (Hno : ~ In result_id (map (@row_id _) (rows (SemesterResults db)))).
      { intros Hin. apply ByIdFacts.rowcount_pos in Hin. congruence. }
      pose proof (ByIdFacts.delete_one_absent SemesterKey (SemesterResults db)
                    result_id Hno) as Hsame.
      cbn [DBManagerById.delete_one fst] in Hsame. rewrite Hsame.
      apply SemesterFacts.with_semester_results_same.
    + repeat split.
    + apply (CrudFacts.delete_one_deleted SemesterKey).
    + unfold SemesterResultCrud.get_semester_result_by_id.
      cbn [SemesterResults with_semester_results].
      pose proof (ByIdFacts.get_by_id_delete_one SemesterKey (SemesterResults db)
                    result_id result_id) as Hg.
      cbn [DBManagerById.delete_one fst] in Hg. rewrite Hg, Z.eqb_refl. reflexivity.
    + intros Hok. apply StoreFacts.results_ok_iff in Hok. destruct Hok as [Hs Hy]. split.
      * apply StoreFacts.results_ok_iff. split; [|exact Hy].
        exact (ByIdFacts.wf_delete_one SemesterKey (SemesterResults db) result_id Hs).
      * intros Hret. apply ByIdFacts.rowcount_pos in Hret.
        apply in_map_iff in Hret. destruct Hret as [r [Hid Hin]].
        pose proof (ByIdFacts.length_delete_one SemesterKey (SemesterResults db)
                      result_id) as Hlen.
        rewrite <- Hid in Hlen at 2.
        rewrite (ByIdFacts.rowcount_one SemesterKey (SemesterResults db) r
                   (proj1 Hs) Hin) in Hlen.
        cbn [DBManagerById.delete_one fst] in Hlen.
        cbn [SemesterResults with_semester_results]. lia.
  - intros out. subst out. unfold YearlyResultCrud.delete_yearly_result.
    cbn [DBManagerById.delete_one fst snd].
    split; [apply ByIdFacts.rowcount_pos|]. split; [|split; [|split; [|split]]].
    + intros H.
      assert (Hno : ~ In result_id (map (@row_id _) (rows (YearlyResults db)))).
      { intros Hin. apply ByIdFacts.rowcount_pos in Hin. congruence. }
      pose proof (ByIdFacts.delete_one_absent YearlyKey (YearlyResults db)
                    result_id Hno) as Hsame.
      cbn [DBManagerById.delete_one fst] in Hsame. rewrite Hsame.
      apply YearlyFacts.with_yearly_results_same.
    + repeat split.
    + apply (CrudFacts.delete_one_deleted YearlyKey).
    + unfold YearlyResultCrud.get_yearly_result_by_id.
      cbn [YearlyResults with_yearly_results].
      pose proof (ByIdFacts.get_by_id_delete_one YearlyKey (YearlyResults db)
                    result_id result_id) as Hg.
      cbn [DBManagerById.delete_one fst] in Hg. rewrite Hg, Z.eqb_refl. reflexivity.
    + intros Hok. apply StoreFacts.results_ok_iff in Hok. destruct Hok as [Hs Hy]. split.
      * apply StoreFacts.results_ok_iff. split; [exact Hs|].
        exact (ByIdFacts.wf_delete_one YearlyKey (YearlyResults db) result_id Hy).
      * intros Hret. apply ByIdFacts.rowcount_pos in Hret.
        apply in_map_iff in Hret. destruct Hret as [r [Hid Hin]].
        pose proof (ByIdFacts.length_delete_one YearlyKey (YearlyResults db)
                      result_id) as Hlen.
        rewrite <- Hid in Hlen at 2.
        rewrite (ByIdFacts.rowcount_one YearlyKey (YearlyResults db) r
                   (proj1 Hy) Hin) in Hlen.
        cbn [DBManagerById.delete_one fst] in Hlen.
        cbn [YearlyResults with_yearly_results]. lia.
Qed.

Lemma delete_removes_exactly_that_row_witness :
  snd (SemesterResultCrud.delete_semester_result Sample.school_with_stale_row 7) = true /\
  length (rows (SemesterResults
                  (fst (SemesterResultCrud.delete_semester_result
                          Sample.school_with_stale_row 7)))) = 0%nat.
Proof.
  destruct (delete_removes_exactly_that_row Sample.school_with_stale_row 7)
    as [[Hret [_ [_ [_ [_ Hok]]]]] _].
  assert (Ht : snd (SemesterResultCrud.delete_semester_result
                      Sample.school_with_stale_row 7) = true)
    by (apply Hret; simpl; now left).
  split; [exact Ht|].
  destruct (Hok eq_refl) as [_ Hlen]. exact (eq_add_S _ 0%nat (Hlen Ht)).
Defined.

(** ** Row ids under AUTOINCREMENT *)

Module SequenceFacts.
Import DBManager DBManagerById TableSpec ByIdSpec DataChecks.

Section Facts.
Variable K : Type.
Variable key_eqb : K -> K -> bool.
Implicit Types (t : ResultTable K).
Local Abbreviation add_item := (TableSpec.add_item key_eqb).

Lemma autoinc_ok_iff t :
  autoinc_ok t = true <-> forall r, In r (rows t) -> (row_id r <= autoinc t)%Z.
Proof.
  unfold autoinc_ok. rewrite forallb_forall. split; intros H r Hr.
  - apply Z.leb_le. now apply H.
  - apply Z.leb_le. now apply H.
Qed.

Lemma autoinc_add_item_le t (it : Item K) : (autoinc t <= autoinc (add_item t it))%Z.
Proof.
  unfold TableSpec.add_item, add_result.
  destruct (fetch_one_by_key key_eqb t (fst it)); simpl; [lia|unfold lastrowid; lia].
Qed.

Lemma add_item_new_ids t (it : Item K) r :
  In r (rows (add_item t it)) ->
  In (row_id r) (map (@row_id K) (rows t)) \/ (autoinc t < row_id r)%Z.
Proof.
  unfold TableSpec.add_item, add_result.
  destruct (fetch_one_by_key key_eqb t (fst it)) as [old|]; simpl; intros Hin.
  - left. apply in_map_iff in Hin. destruct Hin as [r0 [<- Hr0]].
    destruct (row_id r0 =? row_id old)%Z; simpl; now apply in_map.
  - apply in_app_or in Hin. destruct Hin as [Hin|[<-|[]]].
    + left. now apply in_map.
    + right. simpl. unfold lastrowid. lia.
Qed.

Lemma autoinc_ok_add_item t (it : Item K) :
  autoinc_ok t = true -> autoinc_ok (add_item t it) = true.
Proof.
  rewrite !autoinc_ok_iff. intros H r.
  unfold TableSpec.add_item, add_result.
  destruct (fetch_one_by_key key_eqb t (fst it)) as [old|]; simpl; intros Hin.
  - apply in_map_iff in Hin. destruct Hin as [r0 [<- Hr0]].
    specialize (H r0 Hr0). now destruct (row_id r0 =? row_id old)%Z.
  - apply in_app_or in Hin. destruct Hin as [Hin|[<-|[]]].
    + specialize (H r Hin). unfold lastrowid. lia.
    + simpl. lia.
Qed.

Lemma retired_add_item t (it : Item K) i : retired t i -> retired (add_item t it) i.
Proof.
  intros [Hle Hno]. split.
  - pose proof (autoinc_add_item_le t it). lia.
  - intros Hin. apply in_map_iff in Hin. destruct Hin as [r [Hi Hr]].
    apply add_item_new_ids in Hr. rewrite Hi in Hr. destruct Hr as [Hr|Hr]; [auto|lia].
Qed.

Lemma autoinc_ok_store t (items : list (Item K)) :
  autoinc_ok t = true -> autoinc_ok (store_items key_eqb t items) = true.
Proof.
  unfold store_items. revert t. induction items as [|it items IH]; simpl; intros t H;
    [exact H|]. apply IH. now apply autoinc_ok_add_item.
Qed.

Lemma retired_store t (items : list (Item K)) i :
  retired t i -> retired (store_items key_eqb t items) i.
Proof.
  unfold store_items. revert t. induction items as [|it items IH]; simpl; intros t H;
    [exact H|]. apply IH. now apply retired_add_item.
Qed.

Lemma autoinc_ok_update t i c : autoinc_ok t = true -> autoinc_ok (fst (update_columns t i c)) = true.
Proof.
  rewrite !autoinc_ok_iff. intros H r Hin. simpl in *.
  apply in_map_iff in Hin. destruct Hin as [r0 [<- Hr0]]. specialize (H r0 Hr0).
  now destruct (row_id r0 =? i)%Z.
Qed.

Lemma retired_update t i c j : retired t j -> retired (fst (update_columns t i c)) j.
Proof.
  intros [Hle Hno]. split; [exact Hle|]. now rewrite ByIdFacts.ids_update_columns.
Qed.

Lemma autoinc_ok_delete t i : autoinc_ok t = true -> autoinc_ok (fst (delete_one t i)) = true.
Proof.
  rewrite !autoinc_ok_iff. intros H r Hin. apply ByIdFacts.In_delete_one in Hin.
  now apply H.
Qed.

Lemma retired_delete t i j : retired t j -> retired (fst (delete_one t i)) j.
Proof.
  intros [Hle Hno]. split; [exact Hle|]. intros Hin. apply Hno.
  apply in_map_iff in Hin. destruct Hin as [r [<- Hr]].
  apply ByIdFacts.In_delete_one in Hr. apply in_map. tauto.
Qed.

(** Deleting a row retires its id. *)
Lemma delete_retires t i :
  autoinc_ok t = true -> In i (map (@row_id K) (rows t)) ->
  retired (fst (delete_one t i)) i.
Proof.
  intros Hok Hin. split.
  - apply in_map_iff in Hin. destruct Hin as [r [<- Hr]].
    apply (proj1 (autoinc_ok_iff t) Hok r Hr).
  - intros H. apply in_map_iff in H. destruct H as [r [He Hr]].
    apply ByIdFacts.In_delete_one in Hr. tauto.
Qed.
End Facts.
End SequenceFacts.

Module CallFacts.
Import DBManager DBManagerById TableSpec ByIdSpec DataChecks ServiceCalls.

Section Steps.
Variable K : Type.
Variable key_eqb : K -> K -> bool.
Hypothesis key_eqb_eq : forall a b, key_eqb a b = true <-> a = b.

Lemma table_step_keeps (t t' : ResultTable K) :
  table_step key_eqb t t' ->
  (wf t -> wf t') /\
  (autoinc_ok t = true -> autoinc_ok t' = true) /\
  (forall i, retired t i -> retired t' i).
Proof.
  intros [|items|i c|i].
  - auto.
  - split; [|split].
    + apply (TableFacts.wf_fold_add K key_eqb key_eqb_eq).
    + apply SequenceFacts.autoinc_ok_store.
    + intros i. apply SequenceFacts.retired_store.
  - split; [|split].
    + apply ByIdFacts.wf_update_columns.
    + apply SequenceFacts.autoinc_ok_update.
    + intros j. apply SequenceFacts.retired_update.
  - split; [|split].
    + apply ByIdFacts.wf_delete_one.
    + apply SequenceFacts.autoinc_ok_delete.
    + intros j. apply SequenceFacts.retired_delete.
Qed.
End Steps.

(** Every call completes, and is a step on each result table. *)
Lemma perform_op_steps o db :
  exists db',
    perform_op o db = Some db' /\
    table_step semester_key_eqb (SemesterResults db) (SemesterResults db') /\
    table_step yearly_key_eqb (YearlyResults db) (YearlyResults db').
Proof.
  destruct o as [c|i total avg rank|i total avg rank|i|i]; simpl.
  - destruct c as [s m y t a r|s y t a r|y m|y]; simpl.
    + eexists. split; [reflexivity|]. split; [|apply step_none].
      exact (step_store semester_key_eqb (SemesterResults db) [((s, m, y), (t, a, r))]).
    + eexists. split; [reflexivity|]. split; [apply step_none|].
      exact (step_store yearly_key_eqb (YearlyResults db) [((s, y), (t, a, r))]).
    + eexists. split; [apply SemesterFacts.compute_semester_spec|].
      split; [apply step_store|apply step_none].
    + eexists. split; [apply YearlyFacts.compute_yearly_spec|].
      split; [apply step_none|apply step_store].
  - eexists. split; [reflexivity|].
    unfold SemesterResultCrud.update_semester_result.
    destruct (no_columns _); cbn [fst update_columns];
      split; try apply step_none.
    apply (step_update semester_key_eqb).
  - eexists. split; [reflexivity|].
    unfold YearlyResultCrud.update_yearly_result.
    destruct (no_columns _); cbn [fst update_columns];
      split; try apply step_none.
    apply (step_update yearly_key_eqb).
  - eexists. split; [reflexivity|]. split; [|apply step_none].
    apply (step_delete semester_key_eqb).
  - eexists. split; [reflexivity|]. split; [apply step_none|].
    apply (step_delete yearly_key_eqb).
Qed.

Lemma sequences_ok_iff db :
  sequences_ok db = true <->
  autoinc_ok (SemesterResults db) = true /\ autoinc_ok (YearlyResults db) = true.
Proof. unfold sequences_ok. apply andb_true_iff. Qed.

Lemma perform_op_keeps o db :
  exists db',
    perform_op o db = Some db' /\
    (Constraints.results_ok db = true -> Constraints.results_ok db' = true) /\
    (sequences_ok db = true -> sequences_ok db' = true) /\
    (forall i, retired (SemesterResults db) i -> retired (SemesterResults db') i) /\
    (forall i, retired (YearlyResults db) i -> retired (YearlyResults db') i).
Proof.
  destruct (perform_op_steps o db) as [db' [Hp [Hs Hy]]].
  apply (table_step_keeps SemesterKey semester_key_eqb UniqueFacts.semester_key_eqb_eq)
    in Hs.
  apply (table_step_keeps YearlyKey yearly_key_eqb UniqueFacts.yearly_key_eqb_eq) in Hy.
  destruct Hs as [Hs1 [Hs2 Hs3]], Hy as [Hy1 [Hy2 Hy3]].
  exists db'. split; [exact Hp|]. split; [|split; [|split]]; auto.
  - rewrite !StoreFacts.results_ok_iff. tauto.
  - rewrite !sequences_ok_iff. tauto.
Qed.

Lemma run_ops_keeps ops : forall db,
  exists db',
    run_ops ops db = Some db' /\
    (Constraints.results_ok db = true -> Constraints.results_ok db' = true) /\
    (sequences_ok db = true -> sequences_ok db' = true) /\
    (forall i, retired (SemesterResults db) i -> retired (SemesterResults db') i) /\
    (forall i, retired (YearlyResults db) i -> retired (YearlyResults db') i).
Proof.
  induction ops as [|o ops IH]; intros db; simpl.
  - exists db. auto.
  - destruct (perform_op_keeps o db) as [db1 [Hp [H1 [H2 [H3 H4]]]]]. rewrite Hp.
    destruct (IH db1) as [db' [Hr [H1' [H2' [H3' H4']]]]].
    exists db'. split; [exact Hr|]. split; [|split; [|split]]; auto.
Qed.

End CallFacts.

Import DataChecks ServiceCalls.

(** X6. From a store that satisfies the keys of its result tables and
    whose sequences are not behind its row ids, every sequence of calls of
    the methods that write (the two [add_*_result], the two runs, the two
    [update_*_result] and the two [delete_*_result]) completes and leaves a
    store of which the same holds. *)
Theorem every_call_keeps_keys_and_sequences ops db :
  results_ok db = true -> sequences_ok db = true ->
  exists db',
    run_ops ops db = Some db' /\ results_ok db' = true /\ sequences_ok db' = true.
Proof.
  intros Hok Hseq. destruct (CallFacts.run_ops_keeps ops db) as [db' [Hr [H1 [H2 _]]]].
  exists db'. auto.
Qed.

Lemma every_call_keeps_keys_and_sequences_witness :
  exists db',
    run_ops [ Write (CallSpec.ComputeSemesterResults 1 1);
              UpdateSemesterResult 8 None (Some (1#1)) None;
              DeleteSemesterResult 7;
              Write (CallSpec.ComputeYearlyResults 1);
              DeleteYearlyResult 1;
              Write (CallSpec.ComputeYearlyResults 1) ]
            Sample.school_with_stale_row = Some db' /\
    results_ok db' = true /\ sequences_ok db' = true.
Proof.
  apply (every_call_keeps_keys_and_sequences
           [ Write (CallSpec.ComputeSemesterResults 1 1);
             UpdateSemesterResult 8 None (Some (1#1)) None;
             DeleteSemesterResult 7;
             Write (CallSpec.ComputeYearlyResults 1);
             DeleteYearlyResult 1;
             Write (CallSpec.ComputeYearlyResults 1) ]
           Sample.school_with_stale_row); reflexivity.
Defined.

(** X7. A row id is never handed out twice.  On a store whose sequences
    are not behind its row ids, once a row has been deleted no sequence of
    later calls puts a row under its id again: nothing is found under that
    id, whatever is added, computed, updated or deleted afterwards. *)
Theorem deleted_ids_are_not_reused ops db i :
  sequences_ok db = true ->
  (In i (map (@row_id _) (rows (SemesterResults db))) ->
   exists db',
     run_ops (DeleteSemesterResult i :: ops) db = Some db' /\
     ~ In i (map (@row_id _) (rows (SemesterResults db'))) /\
     SemesterResultCrud.get_semester_result_by_id db' i = None) /\
  (In i (map (@row_id _) (rows (YearlyResults db))) ->
   exists db',
     run_ops (DeleteYearlyResult i :: ops) db = Some db' /\
     ~ In i (map (@row_id _) (rows (YearlyResults db'))) /\
     YearlyResultCrud.get_yearly_result_by_id db' i = None).
Proof.
  intros Hseq. apply CallFacts.sequences_ok_iff in Hseq. destruct Hseq as [Hs Hy]. split.
  - intros Hin. cbn [run_ops perform_op].
    destruct (CallFacts.run_ops_keeps ops
                (fst (SemesterResultCrud.delete_semester_result db i)))
      as [db' [Hr [_ [_ [Hret _]]]]].
    exists db'. split; [exact Hr|].
    assert (Hno : ~ In i (map (@row_id _) (rows (SemesterResults db')))).
    { apply (Hret i).
      exact (SequenceFacts.delete_retires SemesterKey (SemesterResults db) i Hs Hin). }
    split; [exact Hno|].
    unfold SemesterResultCrud.get_semester_result_by_id.
    apply ByIdFacts.get_by_id_None in Hno. now rewrite Hno.
  - intros Hin. cbn [run_ops perform_op].
    destruct (CallFacts.run_ops_keeps ops
                (fst (YearlyResultCrud.delete_yearly_result db i)))
      as [db' [Hr [_ [_ [_ Hret]]]]].
    exists db'. split; [exact Hr|].
    assert (Hno : ~ In i (map (@row_id _) (rows (YearlyResults db')))).
    { apply (Hret i).
      exact (SequenceFacts.delete_retires YearlyKey (YearlyResults db) i Hy Hin). }
    split; [exact Hno|].
    unfold YearlyResultCrud.get_yearly_result_by_id.
    apply ByIdFacts.get_by_id_None in Hno. now rewrite Hno.
Qed.

Lemma deleted_ids_are_not_reused_witness :
  exists db',
    run_ops [ DeleteSemesterResult 7;
              Write (CallSpec.AddSemesterResult 4 1 1 (50#1) (50#1) 1) ]
            Sample.school_with_stale_row = Some db' /\
    SemesterResultCrud.get_semester_result_by_id db' 7 = None /\
    map (@row_id _) (rows (SemesterResults db')) = [8%Z].
Proof.
  destruct (deleted_ids_are_not_reused
              [ Write (CallSpec.AddSemesterResult 4 1 1 (50#1) (50#1) 1) ]
              Sample.school_with_stale_row 7 eq_refl) as [H _].
  destruct H as [db' [Hr [_ Hg]]]; [simpl; now left|].
  exists db'. split; [exact Hr|]. split; [exact Hg|].
  vm_compute in Hr. injection Hr as <-. reflexivity.
Defined.

(** ** Running again after a manual change *)

Module RerunFacts.
Import DBManager DBManagerById TableSpec ByIdSpec.

Section Facts.
Variable K : Type.
Variable key_eqb : K -> K -> bool.
Hypothesis key_eqb_eq : forall a b, key_eqb a b = true <-> a = b.
Implicit Types (t : ResultTable K) (r : ResultRow K).
Local Abbreviation add_item := (TableSpec.add_item key_eqb).
Local Abbreviation store := (TableSpec.store_items key_eqb).

Lemma row_eta r : mk_row (row_id r) (key r) (values r) = r.
Proof. now destruct r. Qed.

(** The row a run has stored for an item. *)
Lemma stored_row t (items : list (Item K)) r (it : Item K) :
  wf t -> NoDup (item_keys items) -> In it items ->
  In r (rows (store t items)) -> key r = fst it -> values r = snd it.
Proof.
  intros Hwf Hnd Hit Hr Hk.
  destruct (TableFacts.fold_add_stored K key_eqb key_eqb_eq items t it Hwf Hnd Hit)
    as [r' [Hr' [Hk' Hv']]].
  assert (r = r'); [|now subst].
  apply (UniqueFacts.NoDup_map_inj _ _ (@key K) (rows (store t items))); auto; [|congruence].
  apply (TableFacts.wf_fold_add K key_eqb key_eqb_eq t items Hwf).
Qed.

(** After an update of the row [i], the rows stored for the other items
    are still there. *)
Lemma other_rows_after_update t (items : list (Item K)) i c r (it : Item K) :
  wf t -> NoDup (item_keys items) ->
  In r (rows (store t items)) -> row_id r = i ->
  In it items -> fst it <> key r ->
  exists r', In r' (rows (fst (update_columns (store t items) i c))) /\
             key r' = fst it /\ values r' = snd it.
Proof.
  intros Hwf Hnd Hr Hi Hit Hne.
  destruct (TableFacts.fold_add_stored K key_eqb key_eqb_eq items t it Hwf Hnd Hit)
    as [r' [Hr' [Hk' Hv']]].
  exists r'. split; [|auto]. simpl. apply in_map_iff. exists r'. split; [|exact Hr'].
  destruct (Z.eqb_spec (row_id r') i) as [He|_]; [|reflexivity].
  exfalso. apply Hne. rewrite <- Hk'. f_equal.
  apply (UniqueFacts.NoDup_map_inj _ _ (@row_id K) (rows (store t items))); auto;
    [|congruence].
  apply (TableFacts.wf_fold_add K key_eqb key_eqb_eq t items Hwf).
Qed.

(** Storing the item of the updated row puts the old values back. *)
Lemma add_item_restores T i c r (it : Item K) :
  wf T -> In r (rows T) -> row_id r = i -> key r = fst it -> values r = snd it ->
  add_item (fst (update_columns T i c)) it = T.
Proof.
  intros Hwf Hr Hi Hk Hv.
  set (T2 := fst (update_columns T i c)).
  assert (Hwf2 : wf T2) by now apply ByIdFacts.wf_update_columns.
  assert (Hin2 : In (set_columns c r) (rows T2)).
  { simpl. apply in_map_iff. exists r. split; [|exact Hr].
    now rewrite Hi, Z.eqb_refl. }
  assert (Hf : fetch_one_by_key key_eqb T2 (fst it) = Some (set_columns c r)).
  { apply (TableFacts.In_fetch K key_eqb key_eqb_eq T2 (fst it) _ Hwf2 Hin2). exact Hk. }
  assert (Hrows : rows (add_item T2 it) = rows T).
  { rewrite (TableFacts.rows_add_item K key_eqb key_eqb_eq T2 it Hwf2), Hf, app_nil_r.
    unfold T2. simpl. rewrite map_map. rewrite <- map_id. apply map_ext_in.
    intros r1 Hr1. destruct (Z.eqb_spec (row_id r1) i) as [He|Hne].
    - assert (r1 = r).
      { apply (UniqueFacts.NoDup_map_inj _ _ (@row_id K) (rows T)); auto; [apply Hwf|congruence]. }
      subst r1. unfold put. cbn [key set_columns]. rewrite Hk, (TableFacts.key_eqb_refl K key_eqb key_eqb_eq).
      cbn [row_id set_columns]. rewrite <- Hk, <- Hv. apply row_eta.
    - apply (TableFacts.put_other K key_eqb key_eqb_eq). intros He. apply Hne.
      assert (r1 = r); [|now subst].
      apply (UniqueFacts.NoDup_map_inj _ _ (@key K) (rows T)); auto; [apply Hwf|congruence]. }
  assert (Ha : autoinc (add_item T2 it) = autoinc T).
  { unfold TableSpec.add_item, add_result. now rewrite Hf. }
  destruct (add_item T2 it) as [rs a], T as [rs0 a0]. simpl in *. congruence.
Qed.

(** A second run after an update of a row the run writes restores the
    table of the first run. *)
Lemma rerun_restores t (items : list (Item K)) i c r :
  wf t -> NoDup (item_keys items) ->
  In r (rows (store t items)) -> row_id r = i -> In (key r) (item_keys items) ->
  store (fst (update_columns (store t items) i c)) items = store t items.
Proof.
  intros Hwf Hnd Hr Hi Hk.
  set (T := store t items) in *.
  assert (HwfT : wf T) by apply (TableFacts.wf_fold_add K key_eqb key_eqb_eq t items Hwf).
  apply in_map_iff in Hk. destruct Hk as [it0 [Hk0 Hit0]].
  pose proof (stored_row t items r it0 Hwf Hnd Hit0 Hr (eq_sym Hk0)) as Hv.
  destruct (in_split it0 items Hit0) as [pre [post Hsplit]].
  assert (Hpre : forall it, In it pre -> fst it <> key r).
  { intros it Hit He. rewrite Hsplit in Hnd. unfold item_keys in Hnd.
    rewrite map_app in Hnd. simpl in Hnd. apply NoDup_remove_2 in Hnd. apply Hnd.
    apply in_or_app. left. rewrite Hk0, <- He. now apply in_map. }
  unfold TableSpec.store_items at 1. rewrite Hsplit at 1. rewrite fold_left_app. cbn [fold_left].
  rewrite (TableFacts.fold_add_noop K key_eqb key_eqb_eq pre).
  - rewrite (add_item_restores T i c r it0 HwfT Hr Hi (eq_sym Hk0) Hv).
    apply (TableFacts.fold_add_noop K key_eqb key_eqb_eq post T HwfT).
    intros it Hit.
    apply (TableFacts.fold_add_stored K key_eqb key_eqb_eq items t it Hwf Hnd).
    rewrite Hsplit. apply in_or_app. right. now right.
  - now apply ByIdFacts.wf_update_columns.
  - intros it Hit.
    apply (other_rows_after_update t items i c r it Hwf Hnd Hr Hi); [|now apply Hpre].
    rewrite Hsplit. apply in_or_app. now left.
Qed.

(** A second run after an update of a row the run does not write leaves
    the update in place. *)
Lemma rerun_keeps t (items : list (Item K)) i c r :
  wf t -> NoDup (item_keys items) ->
  In r (rows (store t items)) -> row_id r = i -> ~ In (key r) (item_keys items) ->
  store (fst (update_columns (store t items) i c)) items =
  fst (update_columns (store t items) i c).
Proof.
  intros Hwf Hnd Hr Hi Hk.
  apply (TableFacts.fold_add_noop K key_eqb key_eqb_eq).
  - apply ByIdFacts.wf_update_columns.
    apply (TableFacts.wf_fold_add K key_eqb key_eqb_eq t items Hwf).
  - intros it Hit.
    apply (other_rows_after_update t items i c r it Hwf Hnd Hr Hi Hit).
    intros He. apply Hk. rewrite <- He. now apply in_map.
Qed.
End Facts.
End RerunFacts.

Lemma semester_keys_NoDup db ay sem :
  NoDup (DictSpec.keys (ranked_semester_data db ay sem)).
Proof.
  rewrite SemesterFacts.ranked_semester_data_spec, RankFacts.keys_ranked.
  apply SemesterFacts.data_NoDup.
Qed.

Lemma yearly_keys_NoDup db ay : NoDup (DictSpec.keys (ranked_yearly_data db ay)).
Proof.
  rewrite YearlyFacts.ranked_yearly_data_spec, RankFacts.keys_ranked.
  apply YearlyFacts.yearly_data_NoDup.
Qed.

(** The students a semester run writes a row for. *)
Lemma semester_keys_written db ay sem s :
  In s (DictSpec.keys (ranked_semester_data db ay sem)) <->
  exists g, In (s, g) (students_in_year db ay) /\ skipped db ay sem s = false.
Proof.
  rewrite SemesterFacts.ranked_semester_data_spec, RankFacts.keys_ranked.
  apply SemesterFacts.data_keys.
Qed.

Lemma semester_item_keys db ay sem k :
  In k (TableSpec.item_keys (semester_items ay sem (ranked_semester_data db ay sem))) <->
  exists s, k = (s, sem, ay) /\ In s (DictSpec.keys (ranked_semester_data db ay sem)).
Proof.
  unfold TableSpec.item_keys, semester_items, DictSpec.keys. rewrite map_map. simpl.
  rewrite in_map_iff. split.
  - intros [[s e] [<- Hin]]. exists s. split; [reflexivity|].
    apply (in_map fst _ (s, e) Hin).
  - intros [s [-> Hin]]. apply in_map_iff in Hin. destruct Hin as [[s' e] [<- Hin]].
    exists (s', e). auto.
Qed.

Lemma semester_item_keys_NoDup db ay sem :
  NoDup (TableSpec.item_keys (semester_items ay sem (ranked_semester_data db ay sem))).
Proof.
  exact (StoreFacts.item_keys_NoDup SemesterKey (fun k => (k, sem, ay))
           (StoreFacts.semester_mkkey_inj sem ay) (ranked_semester_data db ay sem)
           (semester_keys_NoDup db ay sem)).
Qed.

(** X8. A semester run overwrites what [update_semester_result] has put
    into a row of that run, and leaves alone what it has put into any other
    row.  After a run, update a row by its id and run again with nothing
    else changed: if the row belongs to the run (its key is this semester
    and academic year and a student who is enrolled and not skipped) the
    database is exactly as the first run left it; if it does not, the
    database is as the update left it. *)
Theorem rerun_overwrites_manual_updates db ay sem result_id total avg rank :
  results_ok db = true ->
  exists db1,
    compute_and_store_semester_results db ay sem = Some db1 /\
    forall r,
      In r (rows (SemesterResults db1)) -> row_id r = result_id ->
      let db2 :=
        fst (SemesterResultCrud.update_semester_result db1 result_id total avg rank) in
      ((exists s g, key r = (s, sem, ay) /\ In (s, g) (students_in_year db ay) /\
                    skipped db ay sem s = false) ->
       compute_and_store_semester_results db2 ay sem = Some db1) /\
      (snd (fst (key r)) <> sem \/ snd (key r) <> ay \/
       skipped db ay sem (fst (fst (key r))) = true \/
       ~ In (fst (fst (key r))) (map fst (students_in_year db ay)) ->
       compute_and_store_semester_results db2 ay sem = Some db2).
Proof.
  intros Hok. destruct (StoreFacts.results_ok_wf db Hok) as [Hwf _].
  set (items := semester_items ay sem (ranked_semester_data db ay sem)).
  set (T := semester_run_table db ay sem).
  pose proof (semester_item_keys_NoDup db ay sem) as Hnd. fold items in Hnd.
  exists (with_semester_results db T).
  split; [apply SemesterFacts.compute_semester_spec|].
  intros r Hr Hid db2. cbn [SemesterResults with_semester_results] in Hr.
  assert (Hidem : TableSpec.store_items semester_key_eqb T items = T).
  { apply (TableFacts.fold_add_idempotent SemesterKey semester_key_eqb
             UniqueFacts.semester_key_eqb_eq items (SemesterResults db) Hwf Hnd). }
  assert (Hwritten :
            (exists s g, key r = (s, sem, ay) /\ In (s, g) (students_in_year db ay) /\
                         skipped db ay sem s = false) <->
            In (key r) (TableSpec.item_keys items)).
  { unfold items. rewrite semester_item_keys. split.
    - intros [s [g [Hk [Hin Hsk]]]]. exists s. split; [exact Hk|].
      apply semester_keys_written. eauto.
    - intros [s [Hk Hin]]. apply semester_keys_written in Hin.
      destruct Hin as [g [Hin Hsk]]. eauto. }
  unfold SemesterResultCrud.update_semester_result in db2.
  cbn [SemesterResults with_semester_results] in db2.
  destruct (DBManagerById.no_columns _) eqn:En.
  - subst db2. cbn [fst].
    assert (Hsame : compute_and_store_semester_results (with_semester_results db T) ay sem =
                    Some (with_semester_results db T)).
    { rewrite SemesterFacts.compute_semester_spec. apply f_equal.
      change (semester_run_table (with_semester_results db T) ay sem)
        with (TableSpec.store_items semester_key_eqb T items).
      now rewrite Hidem. }
    split; intros _; exact Hsame.
  - subst db2. cbn [DBManagerById.update_columns fst].
    set (c := {| DBManagerById.set_total_marks := total;
                 DBManagerById.set_average_score := avg;
                 DBManagerById.set_grade_rank := rank |}).
    set (T2 := fst (DBManagerById.update_columns T result_id c)).
    change {| rows := map (fun r0 => if (row_id r0 =? result_id)%Z
                                     then DBManagerById.set_columns c r0 else r0) (rows T);
              autoinc := autoinc T |} with T2.
    assert (Hrun : compute_and_store_semester_results
                     (with_semester_results (with_semester_results db T) T2) ay sem =
                   Some (with_semester_results db
                           (TableSpec.store_items semester_key_eqb T2 items))).
    { rewrite SemesterFacts.compute_semester_spec. reflexivity. }
    rewrite Hrun. split.
    + intros Hw. apply Hwritten in Hw. apply f_equal. apply f_equal.
      exact (RerunFacts.rerun_restores SemesterKey semester_key_eqb
               UniqueFacts.semester_key_eqb_eq (SemesterResults db) items result_id c r
               Hwf Hnd Hr Hid Hw).
    + intros Hnot. apply f_equal.
      assert (Hw : ~ In (key r) (TableSpec.item_keys items)).
      { intros Hw. apply Hwritten in Hw. destruct Hw as [s [g [Hk [Hin Hsk]]]].
        rewrite Hk in Hnot. simpl in Hnot.
        destruct Hnot as [H|[H|[H|H]]]; try congruence.
        apply H. apply (in_map fst _ (s, g) Hin). }
      pose proof (RerunFacts.rerun_keeps SemesterKey semester_key_eqb
                    UniqueFacts.semester_key_eqb_eq (SemesterResults db) items result_id c r
                    Hwf Hnd Hr Hid Hw) as Hkeep.
      change (TableSpec.store_items semester_key_eqb T2 items = T2) in Hkeep.
      rewrite Hkeep. reflexivity.
Qed.

Lemma rerun_overwrites_manual_updates_witness :
  exists db1,
    compute_and_store_semester_results Sample.school 1 1 = Some db1 /\
    compute_and_store_semester_results
      (fst (SemesterResultCrud.update_semester_result db1 1 (Some 0%Q) None None)) 1 1
    = Some db1.
Proof.
  destruct (rerun_overwrites_manual_updates Sample.school 1 1 1 (Some 0%Q) None None eq_refl)
    as [db1 [Hc H]].
  exists db1. split; [exact Hc|].
  assert (Hr : exists r, In r (rows (SemesterResults db1)) /\ row_id r = 1%Z /\
                         key r = (1%Z, 1%Z, 1%Z)).
  { pose proof Hc as Hc'. vm_compute in Hc'. injection Hc' as <-.
    eexists. split; [left; reflexivity|]. split; reflexivity. }
  destruct Hr as [r [Hin [Hid Hkey]]].
  apply (proj1 (H r Hin Hid)).
  exists 1%Z, 1%Z. split; [exact Hkey|]. split; [simpl; now left|reflexivity].
Defined.

(** The entry of a student the semester run writes a row for. *)
Lemma semester_written_entry db ay sem s g :
  In (s, g) (students_in_year db ay) -> skipped db ay sem s = false ->
  exists e, Dict.get (ranked_semester_data db ay sem) s = Some e.
Proof.
  intros Hin Hsk.
  destruct (Dict.get (ranked_semester_data db ay sem) s) as [e|] eqn:E; [eauto|].
  apply DictFacts.get_None in E. exfalso. apply E.
  apply semester_keys_written. eauto.
Qed.

(** X9. A row of a semester run that [delete_semester_result] has removed
    comes back with the next run, with the same total_marks, average_score
    and grade_rank, under a new id: the run puts no row under the id of the
    deleted one. *)
Theorem rerun_recreates_a_deleted_row db ay sem s g :
  results_ok db = true -> sequences_ok db = true ->
  In (s, g) (students_in_year db ay) -> skipped db ay sem s = false ->
  exists db1 row,
    compute_and_store_semester_results db ay sem = Some db1 /\
    get_semester_result_by_composite_keys db1 s sem ay = Some row /\
    let db2 := fst (SemesterResultCrud.delete_semester_result db1 (row_id row)) in
    get_semester_result_by_composite_keys db2 s sem ay = None /\
    exists db3 row',
      compute_and_store_semester_results db2 ay sem = Some db3 /\
      get_semester_result_by_composite_keys db3 s sem ay = Some row' /\
      total_marks row' = total_marks row /\
      average_score row' = average_score row /\
      grade_rank row' = grade_rank row /\
      row_id row' <> row_id row /\
      SemesterResultCrud.get_semester_result_by_id db3 (row_id row) = None.
Proof.
  intros Hok Hseq Hin Hsk.
  destruct (StoreFacts.results_ok_wf db Hok) as [Hwf Hwfy].
  apply CallFacts.sequences_ok_iff in Hseq. destruct Hseq as [Hseq _].
  destruct (semester_written_entry db ay sem s g Hin Hsk) as [e He].
  destruct (semester_row_of_entry db ay sem s e Hok He) as [row [Hf [Ht [Ha Hr]]]].
  set (T := semester_run_table db ay sem) in *.
  assert (HwfT : TableSpec.wf T).
  { apply (TableFacts.wf_fold_add SemesterKey semester_key_eqb
             UniqueFacts.semester_key_eqb_eq _ _ Hwf). }
  exists (with_semester_results db T), row.
  split; [apply SemesterFacts.compute_semester_spec|]. split; [exact Hf|].
  intros db2. unfold SemesterResultCrud.delete_semester_result in db2.
  cbn [SemesterResults with_semester_results] in db2.
  set (T2 := fst (DBManagerById.delete_one T (row_id row))).
  assert (Hdb2 : db2 = with_semester_results db T2) by reflexivity.
  rewrite Hdb2. clear Hdb2 db2.
  unfold get_semester_result_by_composite_keys in Hf.
  cbn [SemesterResults with_semester_results] in Hf.
  apply (TableFacts.fetch_Some SemesterKey semester_key_eqb
           UniqueFacts.semester_key_eqb_eq) in Hf. destruct Hf as [Hrow Hkey].
  assert (HwfT2 : TableSpec.wf T2) by now apply ByIdFacts.wf_delete_one.
  assert (Hok2 : results_ok (with_semester_results db T2) = true).
  { apply StoreFacts.results_ok_iff. split; [exact HwfT2|exact Hwfy]. }
  split.
  - unfold get_semester_result_by_composite_keys.
    cbn [SemesterResults with_semester_results].
    apply (TableFacts.fetch_None SemesterKey semester_key_eqb
             UniqueFacts.semester_key_eqb_eq).
    intros Hk. apply in_map_iff in Hk. destruct Hk as [r' [Hk' Hr']].
    apply ByIdFacts.In_delete_one in Hr'. destruct Hr' as [Hr' Hne]. apply Hne.
    f_equal. apply (UniqueFacts.NoDup_map_inj _ _ (@key _) (rows T)); auto;
      [apply HwfT|congruence].
  - destruct (semester_row_of_entry (with_semester_results db T2) ay sem s e Hok2 He)
      as [row' [Hf' [Ht' [Ha' Hr']]]].
    exists (with_semester_results (with_semester_results db T2)
              (semester_run_table (with_semester_results db T2) ay sem)), row'.
    split; [apply SemesterFacts.compute_semester_spec|]. split; [exact Hf'|].
    split; [congruence|]. split; [congruence|]. split; [congruence|].
    assert (Hret : retired (semester_run_table (with_semester_results db T2) ay sem)
                           (row_id row)).
    { apply SequenceFacts.retired_store.
      cbn [SemesterResults with_semester_results].
      apply SequenceFacts.delete_retires.
      - now apply SequenceFacts.autoinc_ok_store.
      - now apply in_map. }
    destruct Hret as [_ Hno]. split.
    + intros Heq. apply Hno. rewrite <- Heq.
      unfold get_semester_result_by_composite_keys in Hf'.
      cbn [SemesterResults with_semester_results] in Hf'.
      apply (TableFacts.fetch_Some SemesterKey semester_key_eqb
               UniqueFacts.semester_key_eqb_eq) in Hf'. destruct Hf' as [Hrow' _].
      now apply in_map.
    + unfold SemesterResultCrud.get_semester_result_by_id.
      cbn [SemesterResults with_semester_results].
      apply ByIdFacts.get_by_id_None in Hno. now rewrite Hno.
Qed.

Lemma rerun_recreates_a_deleted_row_witness :
  exists db1 row,
    compute_and_store_semester_results Sample.school 1 1 = Some db1 /\
    get_semester_result_by_composite_keys db1 Sample.john 1 1 = Some row /\
    exists db3 row',
      compute_and_store_semester_results
        (fst (SemesterResultCrud.delete_semester_result db1 (row_id row))) 1 1 = Some db3 /\
      get_semester_result_by_composite_keys db3 Sample.john 1 1 = Some row' /\
      total_marks row' = total_marks row /\
      row_id row' <> row_id row.
Proof.
  destruct (rerun_recreates_a_deleted_row Sample.school 1 1 Sample.john Sample.grade1
              eq_refl eq_refl) as [db1 [row [Hc [Hf Hrest]]]].
  - simpl. now left.
  - reflexivity.
  - destruct Hrest as [_ [db3 [row' [Hc' [Hf' [Ht [_ [_ [Hid _]]]]]]]]].
    exists db1, row. split; [exact Hc|]. split; [exact Hf|].
    exists db3, row'. auto.
Defined.

(** ** The yearly run *)

(** The students a yearly run writes a row for are students of the
    [Students] table with a semester row in the academic year. *)
Lemma yearly_keys_written db ay s :
  In s (DictSpec.keys (ranked_yearly_data db ay)) ->
  In s (map student_pk (Students db)) /\ semester_rows db ay s <> [].
Proof.
  rewrite YearlyFacts.ranked_yearly_data_spec, RankFacts.keys_ranked. intros Hin.
  assert (Hans : answers_of s (semester_results_data db ay) <> []).
  { intros Hnil.
    assert (Hnone : Dict.get (student_yearly_data (semester_results_data db ay)) s = None)
      by (rewrite YearlyFacts.yearly_data_get; now rewrite Hnil).
    apply DictFacts.get_None in Hnone. contradiction. }
  split.
  - destruct (answers_of s (semester_results_data db ay)) as [|r l] eqn:E; [congruence|].
    assert (Hr : In r (answers_of s (semester_results_data db ay))) by (rewrite E; now left).
    unfold answers_of in Hr. apply filter_In in Hr. destruct Hr as [Hr Hs].
    apply Z.eqb_eq in Hs. unfold semester_results_data in Hr.
    apply in_flat_map in Hr. destruct Hr as [sr [_ Hr]].
    apply in_flat_map in Hr. destruct Hr as [st [Hst Hr]].
    destruct (key sr) as [[k m] y].
    destruct ((k =? student_pk st) && (y =? ay))%Z eqn:Ec; [|contradiction].
    destruct Hr as [<-|[]]. simpl in Hs. apply andb_true_iff in Ec. destruct Ec as [Ec _].
    apply Z.eqb_eq in Ec. rewrite <- Hs, Ec. now apply in_map.
  - intros Hnil. apply Hans. now apply YearlyFacts.answers_nil_rows_nil.
Qed.

(** X10. The yearly run is idempotent and touches nothing but the
    YearlyResults rows of its academic year: run a second time with
    nothing changed in between it leaves the database as the first run
    left it; all other tables are unchanged; a row of another academic
    year, or of a student without a semester row in the year, is afterwards
    at the same place as it was; no row is deleted; and every row of the
    table afterwards is an old row or the row of this year for a student
    of the Students table who has a semester row in the year. *)
Theorem yearly_run_is_idempotent_and_local db ay :
  results_ok db = true ->
  exists db1,
    compute_and_store_yearly_results db ay = Some db1 /\
    compute_and_store_yearly_results db1 ay = Some db1 /\
    same_but_yearly_results db db1 /\
    (forall i r,
       nth_error (rows (YearlyResults db)) i = Some r ->
       snd (key r) <> ay \/ semester_rows db ay (fst (key r)) = [] ->
       nth_error (rows (YearlyResults db1)) i = Some r) /\
    (length (rows (YearlyResults db)) <= length (rows (YearlyResults db1)))%nat /\
    (forall r',
       In r' (rows (YearlyResults db1)) ->
       In r' (rows (YearlyResults db)) \/
       exists s, key r' = (s, ay) /\ In s (map student_pk (Students db)) /\
                 semester_rows db ay s <> []).
Proof.
  intros Hok. destruct (StoreFacts.results_ok_wf db Hok) as [_ Hwf].
  pose proof (yearly_keys_NoDup db ay) as Hnd.
  exists (with_yearly_results db (yearly_run_table db ay)).
  split; [apply YearlyFacts.compute_yearly_spec|].
  split; [|split; [repeat split|split; [|split]]].
  - rewrite YearlyFacts.compute_yearly_spec. apply f_equal.
    assert (Ht : yearly_run_table (with_yearly_results db (yearly_run_table db ay)) ay =
                 yearly_run_table db ay).
    { exact (StoreFacts.run_idempotent YearlyKey yearly_key_eqb
               UniqueFacts.yearly_key_eqb_eq (fun k => (k, ay))
               (StoreFacts.yearly_mkkey_inj ay)
               (YearlyResults db) (ranked_yearly_data db ay) Hwf Hnd). }
    rewrite Ht. reflexivity.
  - intros i r Hn Hother. cbn [YearlyResults with_yearly_results].
    apply (StoreFacts.run_frame YearlyKey yearly_key_eqb
             UniqueFacts.yearly_key_eqb_eq (fun k => (k, ay))
             (YearlyResults db) (ranked_yearly_data db ay) i r Hwf Hn).
    intros k Hk Hkey. apply yearly_keys_written in Hk. destruct Hk as [_ Hrows].
    rewrite Hkey in Hother. simpl in Hother. destruct Hother as [H|H]; congruence.
  - cbn [YearlyResults with_yearly_results].
    apply (TableFacts.fold_add_length_le YearlyKey yearly_key_eqb
             UniqueFacts.yearly_key_eqb_eq _ _ Hwf).
  - cbn [YearlyResults with_yearly_results]. intros r' Hr'.
    apply (StoreFacts.run_rows_inv YearlyKey yearly_key_eqb
             UniqueFacts.yearly_key_eqb_eq (fun k => (k, ay))
             (YearlyResults db) (ranked_yearly_data db ay) r' Hwf Hnd) in Hr'.
    destruct Hr' as [[Hr' _]|[k [e [Hget [Hkey _]]]]]; [now left|right].
    exists k. split; [exact Hkey|]. apply yearly_keys_written.
    apply DictFacts.get_In in Hget. apply (in_map fst _ (k, e) Hget).
Qed.

Lemma yearly_run_is_idempotent_and_local_witness :
  exists db1,
    compute_and_store_yearly_results Sample.school_after_semesters 1 = Some db1 /\
    compute_and_store_yearly_results db1 1 = Some db1 /\
    SemesterResults db1 = SemesterResults Sample.school_after_semesters.
Proof.
  destruct (yearly_run_is_idempotent_and_local Sample.school_after_semesters 1)
    as [db1 [H1 [H2 [Hsame _]]]].
  - vm_compute. reflexivity.
  - exists db1. split; [exact H1|]. split; [exact H2|]. apply Hsame.
Defined.

(** X11. A run without input changes nothing: a semester run for which no
    enrolled student has an exam result in the scope, also when the
    semester has exams, and a yearly run for an academic year without
    SemesterResults rows, both complete and leave the database as it
    was. *)
Theorem runs_without_input_change_nothing db :
  (forall ay sem,
     (forall s g, In (s, g) (students_in_year db ay) ->
                  student_exam_results db s ay sem = []) ->
     compute_and_store_semester_results db ay sem = Some db) /\
  (forall ay,
     (forall r, In r (rows (SemesterResults db)) -> snd (key r) <> ay) ->
     compute_and_store_yearly_results db ay = Some db).
Proof.
  split.
  - intros ay sem Hnone. rewrite SemesterFacts.compute_semester_spec.
    assert (Hempty : ranked_semester_data db ay sem = []).
    { destruct (ranked_semester_data db ay sem) as [|[k e] l] eqn:E; [reflexivity|].
      exfalso.
      assert (Hk : In k (DictSpec.keys (ranked_semester_data db ay sem)))
        by (rewrite E; now left).
      apply semester_keys_written in Hk. destruct Hk as [g [Hin Hsk]].
      assert (Ht : skipped db ay sem k = true).
      { apply SemesterFacts.skipped_iff. left. now apply (Hnone k g). }
      congruence. }
    unfold semester_run_table. rewrite Hempty. cbn.
    now rewrite SemesterFacts.with_semester_results_same.
  - intros ay Hnone. rewrite YearlyFacts.compute_yearly_spec.
    assert (Hempty : ranked_yearly_data db ay = []).
    { destruct (ranked_yearly_data db ay) as [|[k e] l] eqn:E; [reflexivity|].
      exfalso.
      assert (Hk : In k (DictSpec.keys (ranked_yearly_data db ay)))
        by (rewrite E; now left).
      apply yearly_keys_written in Hk. destruct Hk as [_ Hrows]. apply Hrows.
      unfold semester_rows. apply SemesterFacts.filter_nil_iff. intros r Hr.
      specialize (Hnone r Hr). destruct r as [i [[st m] y] t a rk]. simpl in Hnone |- *.
      apply andb_false_iff. right. now apply Z.eqb_neq. }
    unfold yearly_run_table. rewrite Hempty. cbn.
    now rewrite YearlyFacts.with_yearly_results_same.
Qed.

Lemma runs_without_input_change_nothing_witness :
  semester_exams MoreSamples.school_before_marks 1 1 <> [] /\
  compute_and_store_semester_results MoreSamples.school_before_marks 1 1 =
    Some MoreSamples.school_before_marks /\
  compute_and_store_yearly_results MoreSamples.school_before_marks 2 =
    Some MoreSamples.school_before_marks.
Proof.
  split; [vm_compute; discriminate|].
  destruct (runs_without_input_change_nothing MoreSamples.school_before_marks) as [H1 H2].
  split.
  - apply H1. intros s g Hin. reflexivity.
  - apply H2. intros r [<-|[]]. simpl. discriminate.
Defined.

(** ** Bounds on the stored values *)

Module BoundFacts.
Import SemesterResultService AggregateSpec DataChecks.
Local Open Scope Q_scope.

Lemma len_cons (A : Type) (x : A) l : len (x :: l) == len l + 1.
Proof.
  unfold len. cbn [length]. rewrite Nat2Z.inj_succ, <- Z.add_1_r, inject_Z_plus.
  reflexivity.
Qed.

Lemma len_nonneg (A : Type) (l : list A) : 0 <= len l.
Proof.
  unfold len. change 0 with (inject_Z 0). rewrite <- Zle_Qle. lia.
Qed.

Lemma len_pos (A : Type) (x : A) l : 0 < len (x :: l).
Proof. rewrite len_cons. pose proof (len_nonneg _ l). lra. Qed.

Lemma len_map (A B : Type) (f : A -> B) l : len (map f l) = len l.
Proof. unfold len. now rewrite length_map. Qed.

Lemma sum_map_le (A : Type) (f g : A -> Q) l :
  (forall x, In x l -> f x <= g x) ->
  forall a b, a <= b -> fold_left Qplus (map f l) a <= fold_left Qplus (map g l) b.
Proof.
  induction l as [|x l IH]; simpl; intros H a b Hab; [exact Hab|].
  apply IH; [intros y Hy; apply H; now right|].
  pose proof (H x (or_introl eq_refl)). lra.
Qed.

Lemma sum_map_nonneg (A : Type) (f : A -> Q) l :
  (forall x, In x l -> 0 <= f x) ->
  forall a, 0 <= a -> 0 <= fold_left Qplus (map f l) a.
Proof.
  induction l as [|x l IH]; simpl; intros H a Ha; [exact Ha|].
  apply IH; [intros y Hy; apply H; now right|].
  pose proof (H x (or_introl eq_refl)). lra.
Qed.

Lemma sum_bounds lo hi (l : list Q) :
  (forall x, In x l -> lo <= x <= hi) ->
  forall a, a + lo * len l <= fold_left Qplus l a <= a + hi * len l.
Proof.
  induction l as [|x l IH]; intros H a.
  - unfold len. simpl. change (inject_Z 0) with 0. lra.
  - cbn [fold_left]. rewrite len_cons.
    assert (H' : forall y, In y l -> lo <= y <= hi) by (intros y Hy; apply H; now right).
    specialize (IH H' (a + x)). pose proof (H x (or_introl eq_refl)). lra.
Qed.

Lemma div_le_compat a b c : 0 < c -> a <= b -> a / c <= b / c.
Proof.
  intros Hc Hab. unfold Qdiv. apply Qmult_le_compat_r; [exact Hab|].
  apply Qlt_le_weak. now apply Qinv_lt_0_compat.
Qed.

Lemma div_nonneg a c : 0 < c -> 0 <= a -> 0 <= a / c.
Proof.
  intros Hc Ha. apply Qle_shift_div_l; [exact Hc|]. lra.
Qed.

(** The mean of values between two bounds lies between them. *)
Lemma mean_bounds lo hi (x : Q) l :
  (forall y, In y (x :: l) -> lo <= y <= hi) ->
  lo <= sum (x :: l) / len (x :: l) <= hi.
Proof.
  intros H. pose proof (sum_bounds lo hi (x :: l) H 0) as [H1 H2].
  pose proof (len_pos _ x l) as Hpos. unfold sum. split.
  - apply Qle_shift_div_l; [exact Hpos|]. lra.
  - apply Qle_shift_div_r; [exact Hpos|]. lra.
Qed.

(** The mean of the first components is at most the mean of the second
    ones when every pair is in order. *)
Lemma mean_pairs (l : list (Q * Q)) :
  (forall p, In p l -> 0 <= fst p <= snd p) ->
  0 <= mean (map fst l) <= mean (map snd l).
Proof.
  intros H. destruct l as [|p l]; [simpl; lra|].
  cbn [map mean]. change (fst p :: map fst l) with (map fst (p :: l)).
  change (snd p :: map snd l) with (map snd (p :: l)).
  rewrite !len_map. pose proof (len_pos _ p l) as Hpos. unfold sum. split.
  - apply div_nonneg; [exact Hpos|].
    apply sum_map_nonneg; [|lra]. intros q Hq. now apply H.
  - apply div_le_compat; [exact Hpos|].
    apply sum_map_le; [|lra]. intros q Hq. now apply H.
Qed.

Lemma marks_in_range_spec db :
  marks_in_range db = true ->
  forall er e, In er (ExamResults db) -> In e (Exams db) -> er_exam_id er = exam_pk e ->
               0 <= marks er <= max_marks e.
Proof.
  unfold marks_in_range. intros H er e Her He Hid.
  rewrite forallb_forall in H. specialize (H er Her).
  rewrite forallb_forall in H. specialize (H e He).
  rewrite Hid, Z.eqb_refl in H. simpl in H. apply andb_true_iff in H.
  destruct H as [H1 H2]. apply Qle_bool_iff in H1, H2. auto.
Qed.

Lemma scoped_pair_in_range db s ay sem p :
  marks_in_range db = true -> In p (scoped_results db s ay sem) ->
  0 <= marks (fst p) <= max_marks (snd p).
Proof.
  intros Hm Hp. destruct p as [er e].
  apply SemesterFacts.scoped_results_In in Hp. destruct Hp as [Her [He [Hid _]]].
  now apply (marks_in_range_spec db Hm).
Qed.

(** With marks in range, what a subject contributes is in range. *)
Lemma subject_in_range db s ay sem subject :
  marks_in_range db = true ->
  0 <= achieved db s ay sem subject <= possible db s ay sem subject.
Proof.
  intros Hm. unfold achieved, possible, semester_score, semester_max.
  assert (Hsem : 0 <= match sem_exam_result db s subject ay sem with
                      | Some r => fst r | None => 0 end <=
                 match sem_exam_result db s subject ay sem with
                 | Some r => snd r | None => 0 end).
  { unfold sem_exam_result.
    destruct (filter _ (scoped_results db s ay sem)) as [|p l] eqn:E; [lra|].
    cbn [fst snd]. apply (scoped_pair_in_range db s ay sem p Hm).
    assert (Hp : In p (p :: l)) by now left. rewrite <- E in Hp.
    now apply filter_In in Hp. }
  assert (Hcat : 0 <= cat_avg_score db s subject ay sem <= cat_avg_max db s subject ay sem).
  { unfold cat_avg_score, cat_avg_max. apply mean_pairs. intros q Hq.
    unfold cat_results in Hq. apply in_map_iff in Hq. destruct Hq as [p [<- Hp]].
    apply filter_In in Hp. cbn [fst snd].
    apply (scoped_pair_in_range db s ay sem p Hm). tauto. }
  lra.
Qed.

Lemma totals_in_range db s ay sem :
  marks_in_range db = true ->
  0 <= total_achieved db s ay sem <= total_possible db s ay sem.
Proof.
  intros Hm. unfold total_achieved, total_possible, sum. split.
  - apply sum_map_nonneg; [|lra]. intros x _. now apply subject_in_range.
  - apply sum_map_le; [|lra]. intros x _. now apply subject_in_range.
Qed.

Lemma percentage_in_range db s ay sem :
  marks_in_range db = true -> 0 <= percentage db s ay sem <= 100.
Proof.
  intros Hm. pose proof (totals_in_range db s ay sem Hm) as [H0 H1]. unfold percentage.
  destruct (Qgtb (total_possible db s ay sem) 0) eqn:E; [|lra].
  apply QFacts.Qgtb_true in E.
  assert (Hq : 0 <= total_achieved db s ay sem / total_possible db s ay sem <= 1).
  { split; [now apply div_nonneg|]. apply Qle_shift_div_r; [exact E|]. lra. }
  lra.
Qed.

(** The values of the entry the first loop keeps for a student. *)
Lemma student_result_values db ay sem s g e :
  student_result db ay sem (s, g) = Some e ->
  e_total_marks e = total_achieved db s ay sem /\
  e_average_score e = percentage db s ay sem.
Proof.
  unfold student_result. cbn [fst snd].
  rewrite SemesterFacts.semester_totals_spec.
  cbn [num_subjects_counted total_semester_score total_possible_semester_score].
  destruct (student_exam_results db s ay sem); [discriminate|].
  destruct (student_subjects_in_semester db s ay sem); [discriminate|].
  destruct (length (counted_subjects db s ay sem)); [discriminate|].
  intros [= <-]. split; reflexivity.
Qed.

End BoundFacts.

(** The values of a student's entry in the ranked dictionary. *)
Lemma ranked_entry_totals db ay sem s e :
  Dict.get (ranked_semester_data db ay sem) s = Some e ->
  e_total_marks e = total_achieved db s ay sem /\
  e_average_score e = percentage db s ay sem.
Proof.
  rewrite SemesterFacts.ranked_semester_data_spec, RankFacts.get_ranked.
  destruct (Dict.get _ s) as [e0|] eqn:E; [|discriminate].
  cbn [option_map]. intros [= <-].
  destruct (SemesterFacts.data_get db ay sem _ s e0 E) as [g [_ Hr]].
  exact (BoundFacts.student_result_values db ay sem s g e0 Hr).
Qed.

Lemma averages_in_range_spec db :
  semester_averages_in_range db = true <->
  forall r, In r (rows (SemesterResults db)) -> (0 <= average_score r <= 100)%Q.
Proof.
  unfold semester_averages_in_range. rewrite forallb_forall.
  split; intros H r Hr; specialize (H r Hr).
  - apply andb_true_iff in H. destruct H as [H1 H2]. apply Qle_bool_iff in H1, H2. auto.
  - apply andb_true_iff. split; apply Qle_bool_iff; tauto.
Qed.

(** X12. With every exam result between 0 and the maximum marks of its
    exam, what a semester run stores is in range: for every enrolled
    student it does not skip, the stored total_marks lies between 0 and the
    student's summed possible marks and the stored average_score lies
    between 0 and 100; and if all average scores of the table were between
    0 and 100 before the run, they all are after it. *)
Theorem stored_semester_values_are_in_range db ay sem :
  results_ok db = true -> marks_in_range db = true ->
  exists db',
    compute_and_store_semester_results db ay sem = Some db' /\
    (forall s g,
       In (s, g) (students_in_year db ay) -> skipped db ay sem s = false ->
       exists row,
         get_semester_result_by_composite_keys db' s sem ay = Some row /\
         (0 <= total_marks row <= total_possible db s ay sem)%Q /\
         (0 <= average_score row <= 100)%Q) /\
    (semester_averages_in_range db = true -> semester_averages_in_range db' = true).
Proof.
  intros Hok Hm. destruct (StoreFacts.results_ok_wf db Hok) as [Hwf _].
  exists (with_semester_results db (semester_run_table db ay sem)).
  split; [apply SemesterFacts.compute_semester_spec|]. split.
  - intros s g Hin Hsk.
    destruct (semester_written_entry db ay sem s g Hin Hsk) as [e He].
    destruct (semester_row_of_entry db ay sem s e Hok He) as [row [Hf [Ht [Ha _]]]].
    destruct (ranked_entry_totals db ay sem s e He) as [Het Hea].
    exists row. split; [exact Hf|]. rewrite Ht, Ha, Het, Hea.
    split; [now apply BoundFacts.totals_in_range|now apply BoundFacts.percentage_in_range].
  - rewrite !averages_in_range_spec. intros Hold r' Hr'.
    cbn [SemesterResults with_semester_results] in Hr'.
    apply (StoreFacts.run_rows_inv SemesterKey semester_key_eqb
             UniqueFacts.semester_key_eqb_eq (fun k => (k, sem, ay))
             (SemesterResults db) (ranked_semester_data db ay sem) r' Hwf
             (semester_keys_NoDup db ay sem)) in Hr'.
    destruct Hr' as [[Hr' _]|[k [e [Hget [_ Hv]]]]]; [now apply Hold|].
    destruct (ranked_entry_totals db ay sem k e Hget) as [_ Hea].
    assert (Havg : average_score r' = e_average_score e).
    { unfold TableSpec.values, entry_values in Hv. now injection Hv as _ H _. }
    rewrite Havg, Hea. now apply BoundFacts.percentage_in_range.
Qed.

Lemma stored_semester_values_are_in_range_witness :
  exists db' row,
    compute_and_store_semester_results Sample.school 1 1 = Some db' /\
    get_semester_result_by_composite_keys db' Sample.jane 1 1 = Some row /\
    (0 <= average_score row <= 100)%Q /\
    semester_averages_in_range db' = true.
Proof.
  destruct (stored_semester_values_are_in_range Sample.school 1 1 eq_refl eq_refl)
    as [db' [Hc [Hrows Hall]]].
  destruct (Hrows Sample.jane Sample.grade1) as [row [Hf [_ Ha]]].
  - simpl. right. now left.
  - reflexivity.
  - exists db', row. split; [exact Hc|]. split; [exact Hf|]. split; [exact Ha|].
    apply Hall. reflexivity.
Defined.

(** X13. With every stored semester average between 0 and 100, the
    average_score a yearly run stores for a student of the Students table
    with semester rows in the year lies between 0 and 100 as well. *)
Theorem stored_yearly_averages_are_in_range db ay s :
  schema_ok db = true -> semester_averages_in_range db = true ->
  In s (map student_pk (Students db)) -> semester_rows db ay s <> [] ->
  exists db' row,
    compute_and_store_yearly_results db ay = Some db' /\
    get_yearly_result_by_composite_keys db' s ay = Some row /\
    (0 <= average_score row <= 100)%Q.
Proof.
  intros Hok Hrange Hin Hne. unfold schema_ok in Hok. apply andb_true_iff in Hok.
  destruct Hok as [Hen Hres].
  destruct (yearly_student_entry db ay s Hen Hin Hne) as [e [Hget [_ Ha]]].
  destruct (yearly_row_of_entry db ay s e Hres Hget) as [row [Hf [_ [Ha' _]]]].
  exists (with_yearly_results db (yearly_run_table db ay)), row.
  split; [apply YearlyFacts.compute_yearly_spec|]. split; [exact Hf|].
  rewrite Ha', Ha.
  destruct (semester_rows db ay s) as [|r0 l] eqn:E; [congruence|].
  rewrite <- (BoundFacts.len_map _ _ (@average_score SemesterKey) (r0 :: l)).
  cbn [map]. apply BoundFacts.mean_bounds. intros y Hy.
  change (average_score r0 :: map (@average_score _) l)
    with (map (@average_score SemesterKey) (r0 :: l)) in Hy.
  apply in_map_iff in Hy. destruct Hy as [r [<- Hr]].
  apply (proj1 (averages_in_range_spec db) Hrange).
  rewrite <- E in Hr. unfold semester_rows in Hr. now apply filter_In in Hr.
Qed.

Lemma stored_yearly_averages_are_in_range_witness :
  exists db' row,
    compute_and_store_yearly_results Sample.school_after_semesters 1 = Some db' /\
    get_yearly_result_by_composite_keys db' Sample.mike 1 = Some row /\
    (0 <= average_score row <= 100)%Q.
Proof.
  apply (stored_yearly_averages_are_in_range Sample.school_after_semesters 1 Sample.mike).
  - vm_compute. reflexivity.
  - vm_compute. reflexivity.
  - vm_compute. tauto.
  - vm_compute. discriminate.
Defined.

(** ** The rank as a count *)

Module CohortFacts.
Import Ranking RankSpec CohortSpec.

Lemma length_filter_map (A B : Type) (f : A -> B) (P : B -> bool) l :
  length (filter P (map f l)) = length (filter (fun x => P (f x)) l).
Proof.
  induction l as [|x l IH]; simpl; [reflexivity|].
  destruct (P (f x)); simpl; now rewrite IH.
Qed.

Lemma length_filter_le (A : Type) (P : A -> bool) l :
  (length (filter P l) <= length l)%nat.
Proof.
  induction l as [|x l IH]; simpl; [lia|]. destruct (P x); simpl; lia.
Qed.

Lemma length_filter_lt (A : Type) (P : A -> bool) l x :
  In x l -> P x = false -> (length (filter P l) < length l)%nat.
Proof.
  induction l as [|y l IH]; simpl; intros Hin HP; [contradiction|].
  destruct Hin as [->|Hin].
  - rewrite HP. pose proof (length_filter_le A P l). lia.
  - specialize (IH Hin HP). destruct (P y); simpl; lia.
Qed.

(** The rank of an entry of a ranked dictionary is one more than the
    number of entries of its grade with a strictly greater average, and at
    most the size of its cohort. *)
Lemma ranked_rank_count d s e :
  Dict.get (ranked d) s = Some e ->
  e_grade_rank e = Some (S (length (better (ranked d) e))) /\
  (S (length (better (ranked d) e)) <= length (cohort (ranked d) (e_grade_id e)))%nat.
Proof.
  intros Hget. pose proof Hget as Hget0.
  rewrite RankFacts.get_ranked in Hget0.
  destruct (Dict.get d s) as [e0|] eqn:E; [|discriminate].
  cbn [option_map] in Hget0. injection Hget0 as He.
  assert (Hcount : competition_rank (cohort_scores d (e_grade_id e0)) (e_average_score e0) =
                   S (length (better (ranked d) e))).
  { unfold competition_rank, cohort_scores. f_equal.
    rewrite <- (RankFacts.students_in_grade_ranked d (e_grade_id e0)).
    unfold students_in_grade. rewrite map_map. cbn [snd].
    rewrite length_filter_map. unfold better, cohort. now rewrite <- He. }
  split.
  - rewrite <- He at 1. cbn [e_grade_rank set_grade_rank]. now rewrite Hcount.
  - apply (length_filter_lt _ _ _ (s, e)).
    + unfold cohort. apply filter_In. split; [now apply DictFacts.get_In|].
      apply Z.eqb_refl.
    + cbn [snd]. apply QFacts.Qgtb_le. apply Qle_refl.
Qed.
End CohortFacts.

Import CohortSpec.

(** X14. The rank both runs store is a count: the grade_rank of a
    student's row is one more than the number of students of the same grade
    in the run whose average is strictly greater, so it is at least 1 and
    at most the number of students of that grade in the run. *)
Theorem stored_rank_counts_better_students db ay sem :
  results_ok db = true ->
  (exists db',
     compute_and_store_semester_results db ay sem = Some db' /\
     forall s e,
       Dict.get (ranked_semester_data db ay sem) s = Some e ->
       exists row,
         get_semester_result_by_composite_keys db' s sem ay = Some row /\
         grade_rank row = S (length (better (ranked_semester_data db ay sem) e)) /\
         (1 <= grade_rank row <=
          length (cohort (ranked_semester_data db ay sem) (e_grade_id e)))%nat) /\
  (exists db',
     compute_and_store_yearly_results db ay = Some db' /\
     forall s e,
       Dict.get (ranked_yearly_data db ay) s = Some e ->
       exists row,
         get_yearly_result_by_composite_keys db' s ay = Some row /\
         grade_rank row = S (length (better (ranked_yearly_data db ay) e)) /\
         (1 <= grade_rank row <=
          length (cohort (ranked_yearly_data db ay) (e_grade_id e)))%nat).
Proof.
  intros Hok. split.
  - exists (with_semester_results db (semester_run_table db ay sem)).
    split; [apply SemesterFacts.compute_semester_spec|]. intros s e Hget.
    destruct (semester_row_of_entry db ay sem s e Hok Hget) as [row [Hf [_ [_ Hr]]]].
    exists row. split; [exact Hf|].
    rewrite SemesterFacts.ranked_semester_data_spec in Hget |- *.
    destruct (CohortFacts.ranked_rank_count _ s e Hget) as [Hrank Hle].
    assert (Heq : grade_rank row = S (length (better (ranked (student_semester_data db ay sem (students_in_year db ay))) e)))
      by congruence.
    rewrite Heq. split; [reflexivity|]. split; [lia|exact Hle].
  - exists (with_yearly_results db (yearly_run_table db ay)).
    split; [apply YearlyFacts.compute_yearly_spec|]. intros s e Hget.
    destruct (yearly_row_of_entry db ay s e Hok Hget) as [row [Hf [_ [_ Hr]]]].
    exists row. split; [exact Hf|].
    rewrite YearlyFacts.ranked_yearly_data_spec in Hget |- *.
    destruct (CohortFacts.ranked_rank_count _ s e Hget) as [Hrank Hle].
    assert (Heq : grade_rank row = S (length (better (ranked (student_yearly_data (semester_results_data db ay))) e)))
      by congruence.
    rewrite Heq. split; [reflexivity|]. split; [lia|exact Hle].
Qed.

Lemma stored_rank_counts_better_students_witness :
  exists db' row,
    compute_and_store_semester_results Sample.three_students 1 1 = Some db' /\
    get_semester_result_by_composite_keys db' Sample.mike 1 1 = Some row /\
    grade_rank row = 3%nat.
Proof.
  destruct (stored_rank_counts_better_students Sample.three_students 1 1 eq_refl)
    as [[db' [Hc H]] _].
  assert (He : exists e, Dict.get (ranked_semester_data Sample.three_students 1 1)
                           Sample.mike = Some e).
  { vm_compute. eexists. reflexivity. }
  destruct He as [e He]. destruct (H Sample.mike e He) as [row [Hf [Hr _]]].
  exists db', row. split; [exact Hc|]. split; [exact Hf|]. rewrite Hr.
  vm_compute in He. injection He as <-. vm_compute. reflexivity.
Defined.

(** ** From the marks to the yearly result *)

Module PipelineFacts.

Lemma semester_rows_In db ay s r :
  In r (semester_rows db ay s) <->
  In r (rows (SemesterResults db)) /\ fst (fst (key r)) = s /\ snd (key r) = ay.
Proof.
  unfold semester_rows. rewrite filter_In.
  destruct r as [i [[st m] y] t a rk]. simpl.
  rewrite andb_true_iff, !Z.eqb_eq. tauto.
Qed.

Lemma students_in_year_student db ay s g :
  In (s, g) (students_in_year db ay) -> In s (map student_pk (Students db)).
Proof.
  unfold students_in_year. intros H. apply in_flat_map in H. destruct H as [st [Hst H]].
  apply in_flat_map in H. destruct H as [en [_ H]].
  destruct ((student_pk st =? enr_student_id en) && (enr_academic_year_id en =? ay))%Z;
    [|contradiction].
  destruct H as [[= <- _]|[]]. now apply in_map.
Qed.

Lemma NoDup_rows (K : Type) (t : ResultTable K) : TableSpec.wf t -> NoDup (rows t).
Proof. intros [H _]. now apply NoDup_map_inv in H. Qed.

(** After the runs of two different semesters, a student written by both
    has exactly the two rows of these runs in the academic year, when the
    table held no row of the student for another semester of the year. *)
Lemma rows_after_two_runs db ay sem1 sem2 s g :
  results_ok db = true -> sem1 <> sem2 ->
  In (s, g) (students_in_year db ay) ->
  skipped db ay sem1 s = false -> skipped db ay sem2 s = false ->
  (forall r, In r (semester_rows db ay s) ->
             snd (fst (key r)) = sem1 \/ snd (fst (key r)) = sem2) ->
  let T1 := semester_run_table db ay sem1 in
  let db1 := with_semester_results db T1 in
  let db2 := with_semester_results db1 (semester_run_table db1 ay sem2) in
  exists r1 r2,
    Permutation (semester_rows db2 ay s) [r1; r2] /\
    total_marks r1 = total_achieved db s ay sem1 /\
    average_score r1 = percentage db s ay sem1 /\
    total_marks r2 = total_achieved db s ay sem2 /\
    average_score r2 = percentage db s ay sem2.
Proof.
  intros Hok Hsem Hin Hsk1 Hsk2 Hold T1 db1 db2.
  destruct (StoreFacts.results_ok_wf db Hok) as [Hwf Hwfy].
  set (R1 := ranked_semester_data db ay sem1) in *.
  set (R2 := ranked_semester_data db ay sem2) in *.
  set (T2 := semester_run_table db1 ay sem2).
  pose proof (semester_keys_NoDup db ay sem1) as Hnd1. fold R1 in Hnd1.
  pose proof (semester_keys_NoDup db ay sem2) as Hnd2. fold R2 in Hnd2.
  assert (HwfT1 : TableSpec.wf T1).
  { apply (TableFacts.wf_fold_add SemesterKey semester_key_eqb
             UniqueFacts.semester_key_eqb_eq _ _ Hwf). }
  assert (HwfT2 : TableSpec.wf T2).
  { apply (TableFacts.wf_fold_add SemesterKey semester_key_eqb
             UniqueFacts.semester_key_eqb_eq _ _ HwfT1). }
  destruct (semester_written_entry db ay sem1 s g Hin Hsk1) as [e1 He1]. fold R1 in He1.
  destruct (semester_written_entry db ay sem2 s g Hin Hsk2) as [e2 He2]. fold R2 in He2.
  (* the row of the first run *)
  destruct (StoreFacts.run_row SemesterKey semester_key_eqb UniqueFacts.semester_key_eqb_eq
              (fun k => (k, sem1, ay)) (StoreFacts.semester_mkkey_inj sem1 ay)
              (SemesterResults db) R1 s e1 Hwf Hnd1 He1) as [r1 [Hf1 [Hk1 Hv1]]].
  apply (TableFacts.fetch_Some SemesterKey semester_key_eqb UniqueFacts.semester_key_eqb_eq)
    in Hf1. destruct Hf1 as [Hr1 _]. change (In r1 (rows T1)) in Hr1.
  assert (Hr1' : In r1 (rows T2)).
  { apply In_nth_error in Hr1. destruct Hr1 as [i Hi].
    apply (nth_error_In _ i).
    apply (StoreFacts.run_frame SemesterKey semester_key_eqb
             UniqueFacts.semester_key_eqb_eq (fun k => (k, sem2, ay)) T1 R2 i r1 HwfT1 Hi).
    intros k _ Hk. rewrite Hk1 in Hk. injection Hk as _ Hs. contradiction. }
  (* the row of the second run *)
  destruct (StoreFacts.run_row SemesterKey semester_key_eqb UniqueFacts.semester_key_eqb_eq
              (fun k => (k, sem2, ay)) (StoreFacts.semester_mkkey_inj sem2 ay)
              T1 R2 s e2 HwfT1 Hnd2 He2) as [r2 [Hf2 [Hk2 Hv2]]].
  apply (TableFacts.fetch_Some SemesterKey semester_key_eqb UniqueFacts.semester_key_eqb_eq)
    in Hf2. destruct Hf2 as [Hr2 _]. change (In r2 (rows T2)) in Hr2.
  exists r1, r2. split.
  - apply NoDup_Permutation.
    + unfold semester_rows. apply ClassifyFacts.NoDup_filter_list.
      apply (NoDup_rows SemesterKey T2 HwfT2).
    + constructor; [|constructor; [intros []|constructor]].
      intros [H|[]]. rewrite H in Hk2. rewrite Hk1 in Hk2. injection Hk2 as H'. contradiction.
    + intros r. rewrite semester_rows_In. cbn [SemesterResults with_semester_results db2].
      fold T2. split.
      * intros [Hr [Hs Hy]].
        assert (Hsame : forall r', In r' (rows T2) -> key r' = key r -> r' = r).
        { intros r' Hr' Hk.
          apply (UniqueFacts.NoDup_map_inj _ _ (@key _) (rows T2)); auto. apply HwfT2. }
        apply (StoreFacts.run_rows_inv SemesterKey semester_key_eqb
                 UniqueFacts.semester_key_eqb_eq (fun k => (k, sem2, ay))
                 T1 R2 r HwfT1 Hnd2) in Hr.
        destruct Hr as [[Hr Hnot2]|[k [e [Hget [Hkey _]]]]].
        -- apply (StoreFacts.run_rows_inv SemesterKey semester_key_eqb
                    UniqueFacts.semester_key_eqb_eq (fun k => (k, sem1, ay))
                    (SemesterResults db) R1 r Hwf Hnd1) in Hr.
           destruct Hr as [[Hr Hnot1]|[k [e [Hget [Hkey _]]]]].
           ++ exfalso.
              assert (Hrow : In r (semester_rows db ay s))
                by (apply semester_rows_In; auto).
              destruct r as [i [[st m] y] t a rk]. simpl in *. subst st y.
              destruct (Hold _ Hrow) as [Hm|Hm]; simpl in Hm; subst m.
              ** apply (Hnot1 s); [|reflexivity].
                 apply DictFacts.get_In in He1. apply (in_map fst _ (s, e1) He1).
              ** apply (Hnot2 s); [|reflexivity].
                 apply DictFacts.get_In in He2. apply (in_map fst _ (s, e2) He2).
           ++ left. apply Hsame; [exact Hr1'|]. rewrite Hk1, Hkey.
              rewrite Hkey in Hs. simpl in Hs. now subst k.
        -- right. left. apply Hsame; [exact Hr2|]. rewrite Hk2, Hkey.
           rewrite Hkey in Hs. simpl in Hs. now subst k.
      * intros [<-|[<-|[]]].
        -- rewrite Hk1. auto.
        -- rewrite Hk2. auto.
  - destruct (ranked_entry_totals db ay sem1 s e1 He1) as [Ht1 Ha1].
    destruct (ranked_entry_totals db ay sem2 s e2 He2) as [Ht2 Ha2].
    unfold TableSpec.values, entry_values in Hv1, Hv2.
    injection Hv1 as Hv11 Hv12 _. injection Hv2 as Hv21 Hv22 _.
    repeat split; congruence.
Qed.

(** The yearly row after the runs of two semesters, in the totals of the
    two semester runs. *)
Lemma yearly_row_after_two_runs db ay sem1 sem2 s g :
  schema_ok db = true -> sem1 <> sem2 ->
  In (s, g) (students_in_year db ay) ->
  skipped db ay sem1 s = false -> skipped db ay sem2 s = false ->
  (forall r, In r (semester_rows db ay s) ->
             snd (fst (key r)) = sem1 \/ snd (fst (key r)) = sem2) ->
  exists db1 db2 db3 row,
    compute_and_store_semester_results db ay sem1 = Some db1 /\
    compute_and_store_semester_results db1 ay sem2 = Some db2 /\
    compute_and_store_yearly_results db2 ay = Some db3 /\
    get_yearly_result_by_composite_keys db3 s ay = Some row /\
    (total_marks row == total_achieved db s ay sem1 + total_achieved db s ay sem2)%Q /\
    (average_score row == (percentage db s ay sem1 + percentage db s ay sem2) / 2)%Q.
Proof.
  intros Hok Hsem Hin Hsk1 Hsk2 Hold.
  unfold schema_ok in Hok. apply andb_true_iff in Hok. destruct Hok as [Hen Hres].
  destruct (StoreFacts.results_ok_wf db Hres) as [Hwf Hwfy].
  destruct (rows_after_two_runs db ay sem1 sem2 s g Hres Hsem Hin Hsk1 Hsk2 Hold)
    as [r1 [r2 [Hperm [Ht1 [Ha1 [Ht2 Ha2]]]]]].
  set (db1 := with_semester_results db (semester_run_table db ay sem1)) in *.
  set (db2 := with_semester_results db1 (semester_run_table db1 ay sem2)) in *.
  assert (Hres2 : results_ok db2 = true).
  { apply StoreFacts.results_ok_iff. split; [|exact Hwfy].
    cbn [SemesterResults with_semester_results db2].
    apply (TableFacts.wf_fold_add SemesterKey semester_key_eqb
             UniqueFacts.semester_key_eqb_eq).
    apply (TableFacts.wf_fold_add SemesterKey semester_key_eqb
             UniqueFacts.semester_key_eqb_eq _ _ Hwf). }
  assert (Hne : semester_rows db2 ay s <> []).
  { intros Hnil. rewrite Hnil in Hperm. apply Permutation_length in Hperm. discriminate. }
  destruct (yearly_student_entry db2 ay s Hen
              (students_in_year_student db ay s g Hin) Hne)
    as [e [Hget [Het Hea]]].
  destruct (yearly_row_of_entry db2 ay s e Hres2 Hget) as [row [Hf [Ht [Ha _]]]].
  exists db1, db2, (with_yearly_results db2 (yearly_run_table db2 ay)), row.
  split; [apply SemesterFacts.compute_semester_spec|].
  split; [apply SemesterFacts.compute_semester_spec|].
  split; [apply YearlyFacts.compute_yearly_spec|].
  split; [exact Hf|].
  assert (Hsum_t : SemesterResultService.sum (map (@total_marks _) (semester_rows db2 ay s)) =
                   SemesterResultService.sum (map (@total_marks _) [r1; r2])).
  { apply ClassifyFacts.sum_Permutation. now apply Permutation_map. }
  assert (Hsum_a : SemesterResultService.sum (map (@average_score _) (semester_rows db2 ay s)) =
                   SemesterResultService.sum (map (@average_score _) [r1; r2])).
  { apply ClassifyFacts.sum_Permutation. now apply Permutation_map. }
  assert (Hlen : SemesterResultService.len (semester_rows db2 ay s) = 2%Q).
  { unfold SemesterResultService.len. now rewrite (Permutation_length Hperm). }
  rewrite Ht, Ha, Het, Hea, Hsum_t, Hsum_a, Hlen.
  unfold SemesterResultService.sum. cbn [map fold_left].
  rewrite Ht1, Ha1, Ht2, Ha2. split.
  - ring.
  - field.
Qed.

End PipelineFacts.

(** X15. The three runs in the order of the services' test block: the
    run of one semester, the run of another semester and then the yearly
    run all complete, and for an enrolled student whom neither semester run
    skips (a student with a counted subject in each of the two semesters),
    and who had no row for a third semester of the year, the yearly row
    holds as total_marks the sum of the two semesters' achieved totals
    and as average_score the mean of the two semesters' percentages, where
    the totals and percentages are those of the student's marks in the
    exams of each semester: per subject the semester exam with the least
    exam id plus the mean of the CATs. *)
Theorem yearly_result_follows_the_semester_runs db ay sem1 sem2 s g :
  schema_ok db = true -> marks_ok db = true ->
  names_regular db ay sem1 = true -> names_regular db ay sem2 = true ->
  sem1 <> sem2 ->
  In (s, g) (students_in_year db ay) ->
  SemesterMarks.counted db s ay sem1 <> [] ->
  SemesterMarks.counted db s ay sem2 <> [] ->
  (forall r, In r (semester_rows db ay s) ->
             snd (fst (key r)) = sem1 \/ snd (fst (key r)) = sem2) ->
  exists db1 db2 db3 row,
    compute_and_store_semester_results db ay sem1 = Some db1 /\
    compute_and_store_semester_results db1 ay sem2 = Some db2 /\
    compute_and_store_yearly_results db2 ay = Some db3 /\
    get_yearly_result_by_composite_keys db3 s ay = Some row /\
    (total_marks row ==
       SemesterMarks.total_achieved db s ay sem1 +
       SemesterMarks.total_achieved db s ay sem2)%Q /\
    (average_score row ==
       (SemesterMarks.percentage db s ay sem1 +
        SemesterMarks.percentage db s ay sem2) / 2)%Q.
Proof.
  intros Hok Hmarks Hreg1 Hreg2 Hsem Hin Hc1 Hc2 Hold.
  destruct (ExamScopeFacts.marks_ok_keys db Hmarks) as [Hex [Hres [Hsub _]]].
  assert (Hrefine : forall sem,
             names_regular db ay sem = true ->
             total_achieved db s ay sem = SemesterMarks.total_achieved db s ay sem /\
             percentage db s ay sem = SemesterMarks.percentage db s ay sem /\
             (SemesterMarks.counted db s ay sem <> [] -> skipped db ay sem s = false)).
  { intros sem Hreg.
    pose proof (fun e He Hsc =>
                  proj1 (ExamScopeFacts.names_regular_spec db ay sem Hreg e He Hsc)) as Hsn.
    pose proof (fun e He Hsc =>
                  proj2 (ExamScopeFacts.names_regular_spec db ay sem Hreg e He Hsc)) as Hcn.
    destruct (RefineFacts.totals_refine named_semester_exam named_cat db ay sem
                Hex Hres Hsub Hsn Hcn s) as [Ht [_ Hp]].
    split; [exact Ht|]. split; [exact Hp|]. intros Hc.
    pose proof (RefineFacts.counted_refine named_semester_exam named_cat db ay sem
                  Hex Hres Hsub Hsn Hcn s) as Hperm.
    assert (Hc' : counted_subjects db s ay sem <> []).
    { intros Hnil. rewrite Hnil in Hperm. apply Permutation_nil in Hperm. contradiction. }
    apply (SemesterFacts.skipped_false db ay sem s g).
    rewrite (SemesterFacts.counted_not_skipped db ay sem s g Hc'). eauto. }
  destruct (Hrefine sem1 Hreg1) as [Ht1 [Hp1 Hs1]].
  destruct (Hrefine sem2 Hreg2) as [Ht2 [Hp2 Hs2]].
  destruct (PipelineFacts.yearly_row_after_two_runs db ay sem1 sem2 s g Hok Hsem Hin
              (Hs1 Hc1) (Hs2 Hc2) Hold)
    as [db1 [db2 [db3 [row [H1 [H2 [H3 [H4 [H5 H6]]]]]]]]].
  exists db1, db2, db3, row.
  rewrite <- Ht1, <- Ht2, <- Hp1, <- Hp2. auto 10.
Qed.

Lemma yearly_result_follows_the_semester_runs_witness :
  exists db1 db2 db3 row,
    compute_and_store_semester_results Sample.school 1 1 = Some db1 /\
    compute_and_store_semester_results db1 1 2 = Some db2 /\
    compute_and_store_yearly_results db2 1 = Some db3 /\
    get_yearly_result_by_composite_keys db3 Sample.john 1 = Some row /\
    (total_marks row == 379 # 1)%Q.
Proof.
  destruct (yearly_result_follows_the_semester_runs Sample.school 1 1 2
              Sample.john Sample.grade1) as [db1 [db2 [db3 [row [H1 [H2 [H3 [H4 [H5 _]]]]]]]]].
  - reflexivity.
  - reflexivity.
  - reflexivity.
  - reflexivity.
  - discriminate.
  - simpl. now left.
  - vm_compute. discriminate.
  - vm_compute. discriminate.
  - intros r [].
  - exists db1, db2, db3, row. repeat (split; [assumption|]).
    rewrite H5. vm_compute. reflexivity.
Defined.

(** ** What the runs do not read *)

Module ScopeFacts.
Import ScopeSpec.

Lemma flat_map_map (A B C : Type) (h : A -> B) (g : B -> list C) l :
  flat_map g (map h l) = flat_map (fun a => g (h a)) l.
Proof. induction l as [|a l IH]; simpl; [reflexivity|]. now rewrite IH. Qed.

Lemma students_in_year_grades f db ay :
  students_in_year (with_enrollment_grades f db) ay = students_in_year db ay.
Proof.
  unfold students_in_year. cbn [Students Enrollments with_enrollment_grades].
  apply flat_map_ext. intros st. now rewrite flat_map_map.
Qed.

Lemma ranked_semester_data_grades f db ay sem :
  ranked_semester_data (with_enrollment_grades f db) ay sem = ranked_semester_data db ay sem.
Proof.
  unfold ranked_semester_data. rewrite students_in_year_grades. reflexivity.
Qed.

(** The grade of an answer of [query_students] is the student's current
    grade. *)
Lemma students_in_year_current_grade db ay s g :
  In (s, g) (students_in_year db ay) ->
  exists st, In st (Students db) /\ student_pk st = s /\ current_grade_id st = g.
Proof.
  unfold students_in_year. intros H. apply in_flat_map in H. destruct H as [st [Hst H]].
  apply in_flat_map in H. destruct H as [en [_ H]].
  destruct ((student_pk st =? enr_student_id en) && (enr_academic_year_id en =? ay))%Z;
    [|contradiction].
  destruct H as [[= <- <-]|[]]. eauto.
Qed.

Lemma semester_entry_grade db ay sem s e :
  Dict.get (ranked_semester_data db ay sem) s = Some e ->
  exists st, In st (Students db) /\ student_pk st = s /\
             e_grade_id e = current_grade_id st.
Proof.
  rewrite SemesterFacts.ranked_semester_data_spec, RankFacts.get_ranked.
  destruct (Dict.get _ s) as [e0|] eqn:E; [|discriminate].
  cbn [option_map]. intros [= <-].
  destruct (SemesterFacts.data_get db ay sem _ s e0 E) as [g [Hin Hr]].
  apply SemesterFacts.student_result_grade_id in Hr. destruct Hr as [Hg _].
  destruct (students_in_year_current_grade db ay s g Hin) as [st [Hst [Hpk Hcg]]].
  exists st. split; [exact Hst|]. split; [exact Hpk|].
  cbn [e_grade_id set_grade_rank]. congruence.
Qed.

Lemma yearly_entry_grade db ay s e :
  Dict.get (ranked_yearly_data db ay) s = Some e ->
  exists st, In st (Students db) /\ student_pk st = s /\
             e_grade_id e = current_grade_id st.
Proof.
  rewrite YearlyFacts.ranked_yearly_data_spec, RankFacts.get_ranked,
    YearlyFacts.yearly_data_get.
  destruct (answers_of s (semester_results_data db ay)) as [|r0 l] eqn:E; [discriminate|].
  cbn [option_map]. intros [= <-]. cbn [e_grade_id set_grade_rank].
  assert (Hr : In r0 (answers_of s (semester_results_data db ay))) by (rewrite E; now left).
  unfold answers_of in Hr. apply filter_In in Hr. destruct Hr as [Hr Hs].
  apply Z.eqb_eq in Hs. unfold semester_results_data in Hr.
  apply in_flat_map in Hr. destruct Hr as [sr [_ Hr]].
  apply in_flat_map in Hr. destruct Hr as [st [Hst Hr]].
  destruct (key sr) as [[k m] y].
  destruct ((k =? student_pk st) && (y =? ay))%Z eqn:Ec; [|contradiction].
  destruct Hr as [<-|[]]. simpl in Hs |- *. apply andb_true_iff in Ec.
  destruct Ec as [Ec _]. apply Z.eqb_eq in Ec.
  exists st. split; [exact Hst|]. split; [congruence|reflexivity].
Qed.

End ScopeFacts.

Import ScopeSpec.

(** X16. The cohorts of both runs follow [Students.current_grade_id]:
    the grade under which a student is ranked is the current grade of the
    student's row in Students.  The grade of the enrolment is never read:
    with the grades of all enrolments changed in any way, both runs store
    the same result rows. *)
Theorem cohorts_follow_the_current_grade db ay sem f :
  (forall s e,
     Dict.get (ranked_semester_data db ay sem) s = Some e ->
     exists st, In st (Students db) /\ student_pk st = s /\
                e_grade_id e = current_grade_id st) /\
  (forall s e,
     Dict.get (ranked_yearly_data db ay) s = Some e ->
     exists st, In st (Students db) /\ student_pk st = s /\
                e_grade_id e = current_grade_id st) /\
  (exists db1 db2,
     compute_and_store_semester_results db ay sem = Some db1 /\
     compute_and_store_semester_results (with_enrollment_grades f db) ay sem = Some db2 /\
     db2 = with_enrollment_grades f db1) /\
  (exists db1 db2,
     compute_and_store_yearly_results db ay = Some db1 /\
     compute_and_store_yearly_results (with_enrollment_grades f db) ay = Some db2 /\
     db2 = with_enrollment_grades f db1).
Proof.
  split; [intros s e; apply ScopeFacts.semester_entry_grade|].
  split; [intros s e; apply ScopeFacts.yearly_entry_grade|]. split.
  - exists (with_semester_results db (semester_run_table db ay sem)),
           (with_semester_results (with_enrollment_grades f db)
              (semester_run_table (with_enrollment_grades f db) ay sem)).
    split; [apply SemesterFacts.compute_semester_spec|].
    split; [apply SemesterFacts.compute_semester_spec|].
    unfold semester_run_table. rewrite ScopeFacts.ranked_semester_data_grades. reflexivity.
  - exists (with_yearly_results db (yearly_run_table db ay)),
           (with_yearly_results (with_enrollment_grades f db)
              (yearly_run_table (with_enrollment_grades f db) ay)).
    split; [apply YearlyFacts.compute_yearly_spec|].
    split; [apply YearlyFacts.compute_yearly_spec|]. reflexivity.
Qed.

Lemma cohorts_follow_the_current_grade_witness :
  exists db1 db2,
    compute_and_store_semester_results Sample.school 1 1 = Some db1 /\
    compute_and_store_semester_results
      (with_enrollment_grades (fun _ => 9%Z) Sample.school) 1 1 = Some db2 /\
    SemesterResults db2 = SemesterResults db1.
Proof.
  destruct (cohorts_follow_the_current_grade Sample.school 1 1 (fun _ => 9%Z))
    as [_ [_ [[db1 [db2 [H1 [H2 H3]]]] _]]].
  exists db1, db2. split; [exact H1|]. split; [exact H2|]. now rewrite H3.
Defined.

(** X17. A semester run reads the Exams table through the exams of its
    own semester and academic year only: on two stores that differ in
    their Exams tables alone, and whose Exams tables hold the same exams
    of that semester and academic year, the run computes the same totals,
    averages and ranks and leaves the same SemesterResults table. *)
Theorem semester_run_reads_only_its_exams db exams exams' ay sem :
  filter (MarksSpec.of_semester ay sem) exams =
    filter (MarksSpec.of_semester ay sem) exams' ->
  ranked_semester_data (with_exams exams db) ay sem =
    ranked_semester_data (with_exams exams' db) ay sem /\
  exists db1 db2,
    compute_and_store_semester_results (with_exams exams db) ay sem = Some db1 /\
    compute_and_store_semester_results (with_exams exams' db) ay sem = Some db2 /\
    SemesterResults db1 = SemesterResults db2.
Proof.
  intros Hsame.
  pose proof (ExamScopeFacts.ranked_semester_data_exams db exams exams' ay sem Hsame) as Hr.
  split; [exact Hr|].
  exists (with_semester_results (with_exams exams db)
            (semester_run_table (with_exams exams db) ay sem)),
         (with_semester_results (with_exams exams' db)
            (semester_run_table (with_exams exams' db) ay sem)).
  split; [apply SemesterFacts.compute_semester_spec|].
  split; [apply SemesterFacts.compute_semester_spec|].
  cbn [SemesterResults with_semester_results]. unfold semester_run_table.
  now rewrite Hr.
Qed.

Lemma semester_run_reads_only_its_exams_witness :
  exists db1 db2,
    compute_and_store_semester_results Sample.school 1 1 = Some db1 /\
    compute_and_store_semester_results
      (with_exams MoreSamples.exams_of_two_years Sample.school) 1 1 = Some db2 /\
    SemesterResults db1 = SemesterResults db2.
Proof.
  destruct (semester_run_reads_only_its_exams Sample.school
              (Exams Sample.school) MoreSamples.exams_of_two_years 1 1 eq_refl)
    as [_ [db1 [db2 [H1 [H2 H3]]]]].
  exists db1, db2. split; [exact H1|]. split; [exact H2|exact H3].
Defined.
